(** * cbz2epub: the archive reader, the merger and the EPUB assembler

    A shallow embedding of the Go packages [cbz] (ReadFile, MergeFiles,
    isImageFile, getMimeType), [epub] (ConvertFromCBZ, ConvertFile) and
    [cmd/cbz2epub] (handleMergeCommand, handleConvertCommand,
    processDirectory, printUsage), together with the small part of the Go
    standard library they call.

    Go strings and byte slices are byte sequences: a Go [string] is a
    [string] here (one [ascii] per byte) and a [[]byte] is a [list byte].
    Loop indices and the merge counter are Go [int]s that only count
    elements held in memory; they are natural numbers here. *)

From Stdlib Require Import String Ascii List Arith Lia Bool.
From Stdlib Require Import DecimalString DecimalNat Decimal.
From Stdlib Require Import Sorted Permutation.
From Stdlib Require Import Init.Byte.
Import ListNotations.
Open Scope list_scope.
Open Scope string_scope.

Set Implicit Arguments.

(** ** Values shared by the packages *)

(** A Go slice is either [nil] or a (possibly empty) backing sequence. *)
Inductive slice (A : Type) : Type :=
| nil_slice
| mk_slice (elements : list A).
Arguments nil_slice {A}.

Definition elems {A : Type} (s : slice A) : list A :=
  match s with
  | nil_slice => []
  | mk_slice l => l
  end.

Definition len {A : Type} (s : slice A) : nat := List.length (elems s).

(** [append(s, x)]: the result is never nil. *)
Definition append {A : Type} (s : slice A) (x : A) : slice A :=
  mk_slice (elems s ++ [x])%list.


(** Go [error] values: what a library call reports, or such a value wrapped
    by [fmt.Errorf(prefix + ": %w", cause)]. *)
Inductive error : Type :=
| LibError (msg : string)
| Errorf (prefix : string) (cause : error).

Fixpoint Error (e : error) : string :=
  match e with
  | LibError msg => msg
  | Errorf prefix cause => prefix ++ ": " ++ Error cause
  end.

Inductive result (A : Type) : Type :=
| Ok (a : A)
| Err (e : error).
Arguments Err {A} e.

(** ** The part of the Go runtime that the sources leave open

    [sort.Slice] is documented as a sort that is not guaranteed to be stable,
    and its algorithm changed between Go releases; it is taken by its
    contract.  [strings.ToLower] maps a string holding a non-ASCII byte
    through the Unicode tables, which are taken as given. *)

Record StrictWeakOrder {A : Type} (less : A -> A -> bool) : Prop := {
  swo_irrefl : forall a, less a a = false;
  swo_trans : forall a b c, less a b = true -> less b c = true -> less a c = true;
  swo_incomp : forall a b c, less a b = false -> less b c = false -> less a c = false
}.

(** [l] is in the order of [less]: no later element is less than an earlier one. *)
Definition sorted_by {A : Type} (less : A -> A -> bool) (l : list A) : Prop :=
  StronglySorted (fun a b => less b a = false) l.

Class GoRuntime : Type := {
  unicode_ToLower : string -> string;
  sort_Slice : forall A : Type, (A -> A -> bool) -> list A -> list A;
  sort_Slice_perm : forall (A : Type) (less : A -> A -> bool) (l : list A),
      Permutation l (sort_Slice less l);
  sort_Slice_sorted : forall (A : Type) (less : A -> A -> bool) (l : list A),
      StrictWeakOrder less -> sorted_by less (sort_Slice less l)
}.

(** ** Package strings *)
Module strings.

(** [len(s) >= len(suffix) && s[len(s)-len(suffix):] == suffix] *)
Definition HasSuffix (s suffix : string) : bool :=
  (String.length suffix <=? String.length s)%nat &&
  (substring (String.length s - String.length suffix) (String.length suffix) s =? suffix).

Definition TrimSuffix (s suffix : string) : string :=
  if HasSuffix s suffix
  then substring 0 (String.length s - String.length suffix) s
  else s.

Fixpoint all_bytes (p : ascii -> bool) (s : string) : bool :=
  match s with
  | EmptyString => true
  | String c s' => p c && all_bytes p s'
  end.

Fixpoint map_bytes (f : ascii -> ascii) (s : string) : string :=
  match s with
  | EmptyString => EmptyString
  | String c s' => String (f c) (map_bytes f s')
  end.

(** [c < utf8.RuneSelf] *)
Definition is_ascii (c : ascii) : bool := (nat_of_ascii c <? 128)%nat.

(** ['A' <= c && c <= 'Z'] *)
Definition is_upper (c : ascii) : bool :=
  (65 <=? nat_of_ascii c)%nat && (nat_of_ascii c <=? 90)%nat.

(** [c += 'a' - 'A'] on an upper-case byte *)
Definition lower_byte (c : ascii) : ascii :=
  if is_upper c then ascii_of_nat (nat_of_ascii c + 32) else c.

(** An ASCII-only string is lowered byte by byte (and returned as it is when
    it has no upper-case byte); any other string goes through
    [Map(unicode.ToLower, s)]. *)
Definition ToLower {rt : GoRuntime} (s : string) : string :=
  if all_bytes is_ascii s
  then if all_bytes (fun c => negb (is_upper c)) s then s else map_bytes lower_byte s
  else unicode_ToLower s.

End strings.

(** ** Package path/filepath (Unix: the separator is the slash) *)
Module filepath.

Definition IsPathSeparator (c : ascii) : bool := (c =? "/")%char.

(** The loop of [Ext]: [rest] holds [path[0..i]] read backwards from index
    [i], [acc] is [path[i+1:]]. *)
Fixpoint Ext_loop (rest : list ascii) (acc : string) : string :=
  match rest with
  | [] => EmptyString
  | c :: rest' =>
      if IsPathSeparator c then EmptyString
      else if (c =? ".")%char then String c acc
      else Ext_loop rest' (String c acc)
  end.

Definition Ext (path : string) : string :=
  Ext_loop (List.rev (list_ascii_of_string path)) EmptyString.

(** [for len(path) > 0 && os.IsPathSeparator(path[len(path)-1])], on the
    reversed path. *)
Fixpoint strip_trailing (rpath : list ascii) : list ascii :=
  match rpath with
  | [] => []
  | c :: r => if IsPathSeparator c then strip_trailing r else rpath
  end.

(** The last element: the bytes after the last separator, on the reversed
    path. *)
Fixpoint last_element (rpath : list ascii) : list ascii :=
  match rpath with
  | [] => []
  | c :: r => if IsPathSeparator c then [] else c :: last_element r
  end.

Definition Base (path : string) : string :=
  if (path =? EmptyString) then "."
  else
    let rpath := strip_trailing (List.rev (list_ascii_of_string path)) in
    let elem := string_of_list_ascii (List.rev (last_element rpath)) in
    if (elem =? EmptyString) then "/" else elem.

End filepath.

(** ** Package fmt: the verbs the sources use *)
Module fmt.

(** [%d] of a non-negative int *)
Definition d (n : nat) : string := NilEmpty.string_of_uint (Nat.to_uint n).

Fixpoint zeros (k : nat) : string :=
  match k with
  | O => EmptyString
  | S k' => String "0" (zeros k')
  end.

(** [%03d] of a non-negative int: at least three digits, padded with zeros *)
Definition d03 (n : nat) : string :=
  zeros (3 - String.length (d n)) ++ d n.

End fmt.

(** ** The environment: archives on disk, library failures, written containers *)

(** Compression method of a written entry. *)
Inductive Method : Type := Store | Deflate.

(** What reading one entry of an archive yields: [file.Open()] fails,
    [io.ReadAll] fails, or the entry's bytes. *)
Inductive Body : Type :=
| OpenFails (e : error)
| ReadFails (e : error)
| Content (data : list byte).

(** One entry of an archive opened for reading ([*zip.File]).  [zf_dir_attr]
    stands for the directory bit of the entry's external attributes. *)
Record ZipFile : Type := {
  zf_Name : string;
  zf_dir_attr : bool;
  zf_body : Body
}.

(** One entry handed to a [zip.Writer]. *)
Record Entry : Type := {
  e_Name : string;
  e_Method : Method;
  e_Data : list byte
}.

(** The world a call runs in.
    - [w_file path]: the file that [path] names.  Two paths name the same
      file exactly when [w_file] maps them alike: a path spelled in another
      way ([a.cbz] and [./a.cbz]) or a link names the file of the path it
      stands for.  The programs create no link, so this stays as it is.
    - [w_disk file]: what [zip.OpenReader] finds in the file as it is now.
    - [w_unfinished entries]: what [zip.OpenReader] finds in a file whose
      writer has been handed [entries] and has not finished its directory;
      it depends on what the writer has flushed, and is left open.
    - [w_faults]: the outcomes of the calls that write ([os.Create], the
      writer's [Create]/[CreateHeader], [Write] and [Close]), in call order;
      [None] is success, and a call past the end of the list succeeds.
    - [w_opened]: the paths passed to [zip.OpenReader] so far, in call order.
    - [w_containers file]: the entries handed to the writer of the container
      created in [file], in creation order.
    - [w_today], [w_uuid]: what [time.Now().Format("2006-01-02")] and
      [util.GenerateUUID()] return. *)
Record World : Type := {
  w_file : string -> string;
  w_disk : string -> error + list ZipFile;
  w_unfinished : list Entry -> error + list ZipFile;
  w_faults : list (option error);
  w_opened : list string;
  w_containers : string -> option (list Entry);
  w_today : string;
  w_uuid : string
}.

(** [w_zips w path]: what [zip.OpenReader(path)] returns in [w]. *)
Definition w_zips (w : World) (path : string) : error + list ZipFile :=
  w_disk w (w_file w path).

(** [w_written w path]: the entries handed to the writer of the container
    created at [path], if one was created there. *)
Definition w_written (w : World) (path : string) : option (list Entry) :=
  w_containers w (w_file w path).

(** A computation that may fail and that acts on the world. *)
Definition M (A : Type) : Type := World -> result A * World.

Definition ret {A : Type} (a : A) : M A := fun w => (Ok a, w).

Definition bind {A B : Type} (m : M A) (k : A -> M B) : M B :=
  fun w =>
    match m w with
    | (Ok a, w') => k a w'
    | (Err e, w') => (Err e, w')
    end.

Notation "x <- m ;; k" := (bind m (fun x => k))
  (at level 61, m at next level, right associativity).
Notation "m ;; k" := (bind m (fun _ => k))
  (at level 61, right associativity).

(** [if err != nil { return fmt.Errorf(prefix + ": %w", err) }] *)
Definition wrapf {A : Type} (prefix : string) (m : M A) : M A :=
  fun w =>
    match m w with
    | (Ok a, w') => (Ok a, w')
    | (Err e, w') => (Err (Errorf prefix e), w')
    end.

(** [defer f()]: [f] runs when the function returns, whatever it returns,
    and its own result is discarded. *)
Definition defer {A B : Type} (f : M B) (body : M A) : M A :=
  fun w =>
    match body w with
    | (r, w') => (r, snd (f w'))
    end.

(** The outcome of the next writing call. *)
Definition next_outcome : M unit :=
  fun w =>
    let rest := {| w_file := w_file w; w_disk := w_disk w;
                   w_unfinished := w_unfinished w; w_faults := tl (w_faults w);
                   w_opened := w_opened w; w_containers := w_containers w;
                   w_today := w_today w; w_uuid := w_uuid w |} in
    match w_faults w with
    | Some e :: _ => (Err e, rest)
    | _ => (Ok tt, rest)
    end.

Definition entries_at (w : World) (path : string) : list Entry :=
  match w_written w path with
  | Some es => es
  | None => []
  end.

(** The file that [path] names now holds a container with the entries [es],
    in which a reader finds [seen]. *)
Definition set_file (path : string) (seen : error + list ZipFile) (es : list Entry) : M unit :=
  fun w =>
    (Ok tt,
     {| w_file := w_file w;
        w_disk := fun f => if f =? w_file w path then seen else w_disk w f;
        w_unfinished := w_unfinished w;
        w_faults := w_faults w; w_opened := w_opened w;
        w_containers := fun f => if f =? w_file w path then Some es else w_containers w f;
        w_today := w_today w; w_uuid := w_uuid w |}).

(** The writer of the container at [path] has been handed the entries [es]
    and has not finished. *)
Definition set_written (path : string) (es : list Entry) : M unit :=
  fun w => set_file path (w_unfinished w es) es w.

(** ** Package os *)
Module os.

(** An empty file is not a zip container. *)
Definition truncated : error := LibError "zip: not a valid zip file".

(** [os.Create(name)]: on success the file that [name] names is empty,
    whatever it held. *)
Definition Create (name : string) : M unit :=
  next_outcome ;;
  set_file name (inl truncated) [].

(** [file.Close()] on a file opened by [os.Create]: nothing that the world
    records. *)
Definition Close (name : string) : M unit := ret tt.

End os.

(** ** Package archive/zip *)
Module zip.

(** [zip.OpenReader(name)] *)
Definition OpenReader (name : string) : M (list ZipFile) :=
  fun w =>
    let w' := {| w_file := w_file w; w_disk := w_disk w;
                 w_unfinished := w_unfinished w; w_faults := w_faults w;
                 w_opened := (w_opened w ++ [name])%list;
                 w_containers := w_containers w;
                 w_today := w_today w; w_uuid := w_uuid w |} in
    match w_zips w name with
    | inl e => (Err e, w')
    | inr files => (Ok files, w')
    end.

(** [file.FileInfo().IsDir()]: the attributes say so, or the name ends in a
    slash. *)
Definition IsDir (file : ZipFile) : bool :=
  zf_dir_attr file || strings.HasSuffix (zf_Name file) "/".

(** [file.Open()] *)
Definition Open (file : ZipFile) : M Body :=
  fun w =>
    match zf_body file with
    | OpenFails e => (Err e, w)
    | b => (Ok b, w)
    end.

(** [w.CreateHeader(&zip.FileHeader{Name: name, Method: method})] on the
    writer of the container at [out]: a new, empty entry after those written
    so far. *)
Definition CreateHeader (out name : string) (method : Method) : M unit :=
  next_outcome ;;
  fun w =>
    set_written out
      (entries_at w out ++ [{| e_Name := name; e_Method := method; e_Data := [] |}])%list w.

(** [w.Create(name)]: [CreateHeader] with the Deflate method. *)
Definition Create (out name : string) : M unit := CreateHeader out name Deflate.

Definition add_data (data : list byte) (e : Entry) : Entry :=
  {| e_Name := e_Name e; e_Method := e_Method e; e_Data := (e_Data e ++ data)%list |}.

Fixpoint write_last (data : list byte) (es : list Entry) : list Entry :=
  match es with
  | [] => []
  | [e] => [add_data data e]
  | e :: es' => e :: write_last data es'
  end.

(** [writer.Write(data)] on the writer returned by the last [Create]: the data
    goes to the last entry. *)
Definition Write (out : string) (data : list byte) : M unit :=
  next_outcome ;;
  fun w => set_written out (write_last data (entries_at w out)) w.

(** An entry of a finished container as a reader finds it: under its name,
    with its bytes. *)
Definition as_zip (e : Entry) : ZipFile :=
  {| zf_Name := e_Name e; zf_dir_attr := false; zf_body := Content (e_Data e) |}.

(** [w.Close()] on the writer of the container at [out]: it writes the
    directory, and the file then is a container that holds the entries
    handed to the writer.  When it fails the file stays unfinished. *)
Definition Close (out : string) : M unit :=
  next_outcome ;;
  fun w => set_file out (inr (map as_zip (entries_at w out))) (entries_at w out) w.

End zip.

(** ** Package io *)
Module io.

(** [io.ReadAll(rc)] on an opened entry *)
Definition ReadAll (rc : Body) : M (list byte) :=
  fun w =>
    match rc with
    | Content data => (Ok data, w)
    | ReadFails e => (Err e, w)
    | OpenFails e => (Err e, w)
    end.

End io.

(** ** Package sort *)
Module sort.

(** [sort.Slice(x, less)]: sorts the elements in place; a nil slice stays nil. *)
Definition Slice {rt : GoRuntime} {A : Type} (x : slice A) (less : A -> A -> bool) : slice A :=
  match x with
  | nil_slice => nil_slice
  | mk_slice l => mk_slice (sort_Slice less l)
  end.

End sort.

(** ** Package cbz *)
Module cbz.

(** Image represents an image inside a CBZ file *)
Record Image : Type := {
  Name : string;
  Data : list byte;
  MimeType : string
}.

(** File represents a CBZ file with its contents (its [Name] field is
    [File_Name] here, the name [Name] being taken by [Image]). *)
Record File : Type := {
  File_Name : string;
  Images : slice Image
}.

Section WithRuntime.
Context {rt : GoRuntime}.

(** isImageFile checks if a file is an image based on its extension *)
Definition isImageFile (filename : string) : bool :=
  let ext := strings.ToLower (filepath.Ext filename) in
  (ext =? ".jpg") || (ext =? ".jpeg") || (ext =? ".png") || (ext =? ".gif") || (ext =? ".webp").

(** getMimeType returns the MIME type for a file based on its extension *)
Definition getMimeType (filename : string) : string :=
  let ext := strings.ToLower (filepath.Ext filename) in
  if (ext =? ".jpg") || (ext =? ".jpeg") then "image/jpeg"
  else if ext =? ".png" then "image/png"
  else if ext =? ".gif" then "image/gif"
  else if ext =? ".webp" then "image/webp"
  else "application/octet-stream".

(** The loop [for _, file := range zipReader.File] of ReadFile, with
    [cbzFile.Images] as the accumulator. *)
Fixpoint range_File (files : list ZipFile) (images : slice Image) : M (slice Image) :=
  match files with
  | [] => ret images
  | file :: rest =>
      if zip.IsDir file || negb (isImageFile (zf_Name file))
      then range_File rest images
      else
        rc <- wrapf "failed to open file in CBZ" (zip.Open file) ;;
        data <- wrapf "failed to read file data" (io.ReadAll rc) ;;
        range_File rest
          (append images
             {| Name := filepath.Base (zf_Name file);
                Data := data;
                MimeType := getMimeType (zf_Name file) |})
  end.

(** The [less] function passed to [sort.Slice]. *)
Definition by_name (a b : Image) : bool := String.ltb (Name a) (Name b).

(** ReadFile reads a CBZ file and returns its contents *)
Definition ReadFile (filename : string) : M File :=
  zipReader <- wrapf "failed to open CBZ file" (zip.OpenReader filename) ;;
  images <- range_File zipReader (mk_slice []) ;;
  ret {| File_Name := filename; Images := sort.Slice images by_name |}.

(** The loop [for _, image := range cbzFile.Images] of MergeFiles; the result
    is the value of [imageCounter] after the loop. *)
Fixpoint range_Images (outputFile : string) (chapterIndex : nat)
    (images : list Image) (imageCounter : nat) : M nat :=
  match images with
  | [] => ret imageCounter
  | image :: rest =>
      let ext := filepath.Ext (Name image) in
      let newName :=
        "chapter" ++ fmt.d03 (chapterIndex + 1) ++ "_" ++ fmt.d03 imageCounter ++ ext in
      let imageCounter := imageCounter + 1 in
      wrapf "failed to create file in output zip" (zip.Create outputFile newName) ;;
      wrapf "failed to write image data" (zip.Write outputFile (Data image)) ;;
      range_Images outputFile chapterIndex rest imageCounter
  end.

(** The loop [for chapterIndex, inputFile := range inputFiles] of MergeFiles. *)
Fixpoint range_inputFiles (outputFile : string) (chapterIndex : nat)
    (inputFiles : list string) (imageCounter : nat) : M unit :=
  match inputFiles with
  | [] => ret tt
  | inputFile :: rest =>
      cbzFile <- wrapf ("failed to read input file " ++ inputFile) (ReadFile inputFile) ;;
      imageCounter <- range_Images outputFile chapterIndex (elems (Images cbzFile)) imageCounter ;;
      range_inputFiles outputFile (chapterIndex + 1) rest imageCounter
  end.

(** MergeFiles merges multiple CBZ files into one *)
Definition MergeFiles (inputFiles : list string) (outputFile : string) : M unit :=
  wrapf "failed to create output file" (os.Create outputFile) ;;
  defer (os.Close outputFile)
    (defer (zip.Close outputFile)
       (range_inputFiles outputFile 0 inputFiles 1)).

End WithRuntime.
End cbz.

(** ** Package util *)
Module util.

(** Modelled from the spec: util.GenerateUUID is not among the sources; the
    spec describes it as the generator of a random 36-character identifier,
    [Used once per Document Assembler invocation].  The identifier is what the
    world supplies; nothing is assumed about its characters. *)
Definition GenerateUUID : M string := fun w => (Ok (w_uuid w), w).

End util.

(** ** Package time *)
Module time.

(** [time.Now().Format("2006-01-02")] *)
Definition Now_Format : M string := fun w => (Ok (w_today w), w).

End time.

(** ** Text of the generated documents *)

(** The line feed and the double quote of the Go raw string literals. *)
Definition nl : string := String (ascii_of_nat 10) EmptyString.
Definition dq : string := String (ascii_of_nat 34) EmptyString.

(** [s] between double quotes *)
Definition q (s : string) : string := dq ++ s ++ dq.

(** [[]byte(s)] *)
Definition bytes_of (s : string) : list byte := list_byte_of_string s.

(** ** Package epub *)
Module epub.
Import cbz.

Definition xml_decl : string :=
  "<?xml version=" ++ q "1.0" ++ " encoding=" ++ q "UTF-8" ++ "?>".

(** The literal written to META-INF/container.xml *)
Definition container_xml : string :=
  xml_decl ++ nl ++
  "<container version=" ++ q "1.0" ++ " xmlns=" ++
    q "urn:oasis:names:tc:opendocument:xmlns:container" ++ ">" ++ nl ++
  "  <rootfiles>" ++ nl ++
  "    <rootfile full-path=" ++ q "OEBPS/content.opf" ++ " media-type=" ++
    q "application/oebps-package+xml" ++ "/>" ++ nl ++
  "  </rootfiles>" ++ nl ++
  "</container>".

(** The first [fmt.Sprintf] of content.opf, with [title], [uuid], [date] *)
Definition opf_head (title uuid date : string) : string :=
  xml_decl ++ nl ++
  "<package xmlns=" ++ q "http://www.idpf.org/2007/opf" ++ " unique-identifier=" ++
    q "BookID" ++ " version=" ++ q "2.0" ++ ">" ++ nl ++
  "  <metadata xmlns:dc=" ++ q "http://purl.org/dc/elements/1.1/" ++ " xmlns:opf=" ++
    q "http://www.idpf.org/2007/opf" ++ ">" ++ nl ++
  "    <dc:title>" ++ title ++ "</dc:title>" ++ nl ++
  "    <dc:language>en</dc:language>" ++ nl ++
  "    <dc:identifier id=" ++ q "BookID" ++ ">urn:uuid:" ++ uuid ++ "</dc:identifier>" ++ nl ++
  "    <dc:date>" ++ date ++ "</dc:date>" ++ nl ++
  "    <dc:creator>CBZ2EPUB Converter</dc:creator>" ++ nl ++
  "  </metadata>" ++ nl ++
  "  <manifest>" ++ nl ++
  "    <item id=" ++ q "ncx" ++ " href=" ++ q "toc.ncx" ++ " media-type=" ++
    q "application/x-dtbncx+xml" ++ "/>" ++ nl.

(** The manifest line of an image, [n] being [i+1] *)
Definition image_item (n : nat) (newName mimeType : string) : string :=
  "    <item id=" ++ q ("image" ++ fmt.d03 n) ++ " href=" ++ q ("images/" ++ newName) ++
  " media-type=" ++ q mimeType ++ "/>" ++ nl.

(** The manifest line of a page, [n] being [i+1] *)
Definition page_item (n : nat) (pageName : string) : string :=
  "    <item id=" ++ q ("page" ++ fmt.d03 n) ++ " href=" ++ q ("pages/" ++ pageName) ++
  " media-type=" ++ q "application/xhtml+xml" ++ "/>" ++ nl.

(** The wrapper page of an image, [n] being [i+1] *)
Definition page_xhtml (n : nat) (newName : string) : string :=
  xml_decl ++ nl ++
  "<!DOCTYPE html PUBLIC " ++ q "-//W3C//DTD XHTML 1.1//EN" ++ " " ++
    q "http://www.w3.org/TR/xhtml11/DTD/xhtml11.dtd" ++ ">" ++ nl ++
  "<html xmlns=" ++ q "http://www.w3.org/1999/xhtml" ++ ">" ++ nl ++
  "<head>" ++ nl ++
  "  <title>Page " ++ fmt.d n ++ "</title>" ++ nl ++
  "  <style type=" ++ q "text/css" ++ ">" ++ nl ++
  "    img { max-width: 100%; max-height: 100%; }" ++ nl ++
  "    body { margin: 0; padding: 0; text-align: center; }" ++ nl ++
  "  </style>" ++ nl ++
  "</head>" ++ nl ++
  "<body>" ++ nl ++
  "  <div>" ++ nl ++
  "    <img src=" ++ q ("../images/" ++ newName) ++ " alt=" ++ q ("Page " ++ fmt.d n) ++
    " />" ++ nl ++
  "  </div>" ++ nl ++
  "</body>" ++ nl ++
  "</html>".

(** The spine line of a page, [n] being [i+1] *)
Definition itemref (n : nat) : string :=
  "    <itemref idref=" ++ q ("page" ++ fmt.d03 n) ++ "/>" ++ nl.

(** The first [fmt.Sprintf] of toc.ncx, with [uuid], [title] *)
Definition ncx_head (uuid title : string) : string :=
  xml_decl ++ nl ++
  "<!DOCTYPE ncx PUBLIC " ++ q "-//NISO//DTD ncx 2005-1//EN" ++ " " ++
    q "http://www.daisy.org/z3986/2005/ncx-2005-1.dtd" ++ ">" ++ nl ++
  "<ncx xmlns=" ++ q "http://www.daisy.org/z3986/2005/ncx/" ++ " version=" ++ q "2005-1" ++
    ">" ++ nl ++
  "  <head>" ++ nl ++
  "    <meta name=" ++ q "dtb:uid" ++ " content=" ++ q ("urn:uuid:" ++ uuid) ++ "/>" ++ nl ++
  "    <meta name=" ++ q "dtb:depth" ++ " content=" ++ q "1" ++ "/>" ++ nl ++
  "    <meta name=" ++ q "dtb:totalPageCount" ++ " content=" ++ q "0" ++ "/>" ++ nl ++
  "    <meta name=" ++ q "dtb:maxPageNumber" ++ " content=" ++ q "0" ++ "/>" ++ nl ++
  "  </head>" ++ nl ++
  "  <docTitle>" ++ nl ++
  "    <text>" ++ title ++ "</text>" ++ nl ++
  "  </docTitle>" ++ nl ++
  "  <navMap>" ++ nl.

(** The navigation point of a page, [n] being [i+1] *)
Definition navPoint (n : nat) : string :=
  "    <navPoint id=" ++ q ("navpoint-" ++ fmt.d n) ++ " playOrder=" ++ q (fmt.d n) ++
    ">" ++ nl ++
  "      <navLabel>" ++ nl ++
  "        <text>Page " ++ fmt.d n ++ "</text>" ++ nl ++
  "      </navLabel>" ++ nl ++
  "      <content src=" ++ q ("pages/page" ++ fmt.d03 n ++ ".xhtml") ++ "/>" ++ nl ++
  "    </navPoint>" ++ nl.

(** First loop [for i, image := range cbzFile.Images]: the image goes to the
    manifest and to the container.  The result is the buffer [contentOPF]. *)
Fixpoint range_images (outputFile : string) (i : nat) (images : list Image)
    (contentOPF : string) : M string :=
  match images with
  | [] => ret contentOPF
  | image :: rest =>
      let ext := filepath.Ext (Name image) in
      let newName := "image" ++ fmt.d03 (i + 1) ++ ext in
      let contentOPF := contentOPF ++ image_item (i + 1) newName (MimeType image) in
      wrapf "failed to create image file" (zip.Create outputFile ("OEBPS/images/" ++ newName)) ;;
      wrapf "failed to write image data" (zip.Write outputFile (Data image)) ;;
      range_images outputFile (i + 1) rest contentOPF
  end.

(** Second loop [for i, image := range cbzFile.Images]: the page of the image
    goes to the manifest and to the container. *)
Fixpoint range_pages (outputFile : string) (i : nat) (images : list Image)
    (contentOPF : string) : M string :=
  match images with
  | [] => ret contentOPF
  | image :: rest =>
      let ext := filepath.Ext (Name image) in
      let newName := "image" ++ fmt.d03 (i + 1) ++ ext in
      let pageName := "page" ++ fmt.d03 (i + 1) ++ ".xhtml" in
      let contentOPF := contentOPF ++ page_item (i + 1) pageName in
      wrapf "failed to create page file" (zip.Create outputFile ("OEBPS/pages/" ++ pageName)) ;;
      wrapf "failed to write page content"
        (zip.Write outputFile (bytes_of (page_xhtml (i + 1) newName))) ;;
      range_pages outputFile (i + 1) rest contentOPF
  end.

(** Third loop [for i := range cbzFile.Images]: the spine. *)
Fixpoint range_spine (i : nat) (images : list Image) (contentOPF : string) : string :=
  match images with
  | [] => contentOPF
  | _ :: rest => range_spine (i + 1) rest (contentOPF ++ itemref (i + 1))
  end.

(** Fourth loop [for i := range cbzFile.Images]: the navigation map. *)
Fixpoint range_navMap (i : nat) (images : list Image) (tocNCX : string) : string :=
  match images with
  | [] => tocNCX
  | _ :: rest => range_navMap (i + 1) rest (tocNCX ++ navPoint (i + 1))
  end.

(** ConvertFromCBZ converts a CBZ file to EPUB format *)
Definition ConvertFromCBZ (cbzFile : File) (outputFile : string) : M unit :=
  wrapf "failed to create output file" (os.Create outputFile) ;;
  defer (os.Close outputFile)
    (defer (zip.Close outputFile)
       (wrapf "failed to create mimetype file" (zip.CreateHeader outputFile "mimetype" Store) ;;
        wrapf "failed to write mimetype file"
          (zip.Write outputFile (bytes_of "application/epub+zip")) ;;
        wrapf "failed to create container.xml" (zip.Create outputFile "META-INF/container.xml") ;;
        wrapf "failed to write container.xml" (zip.Write outputFile (bytes_of container_xml)) ;;
        let title := strings.TrimSuffix (filepath.Base (File_Name cbzFile)) ".cbz" in
        date <- time.Now_Format ;;
        uuid <- util.GenerateUUID ;;
        let contentOPF := opf_head title uuid date in
        contentOPF <- range_images outputFile 0 (elems (Images cbzFile)) contentOPF ;;
        contentOPF <- range_pages outputFile 0 (elems (Images cbzFile)) contentOPF ;;
        let contentOPF :=
          contentOPF ++ ("  </manifest>" ++ nl ++ "  <spine toc=" ++ q "ncx" ++ ">" ++ nl) in
        let contentOPF := range_spine 0 (elems (Images cbzFile)) contentOPF in
        let contentOPF := contentOPF ++ ("  </spine>" ++ nl ++ "</package>") in
        wrapf "failed to create content.opf" (zip.Create outputFile "OEBPS/content.opf") ;;
        wrapf "failed to write content.opf" (zip.Write outputFile (bytes_of contentOPF)) ;;
        let tocNCX := ncx_head uuid title in
        let tocNCX := range_navMap 0 (elems (Images cbzFile)) tocNCX in
        let tocNCX := tocNCX ++ ("  </navMap>" ++ nl ++ "</ncx>") in
        wrapf "failed to create toc.ncx" (zip.Create outputFile "OEBPS/toc.ncx") ;;
        wrapf "failed to write toc.ncx" (zip.Write outputFile (bytes_of tocNCX)) ;;
        ret tt)).

(** ConvertFile converts a CBZ file to EPUB format *)
Definition ConvertFile {rt : GoRuntime} (inputFile outputFile : string) : M unit :=
  cbzFile <- wrapf "failed to read CBZ file" (ReadFile inputFile) ;;
  wrapf "failed to convert to EPUB" (ConvertFromCBZ cbzFile outputFile) ;;
  ret tt.

End epub.

(** ** The host of the commands

    The commands of package cmd/cbz2epub look at the file system, convert
    several archives in one run and report on the standard logger and on
    standard output. *)

(** A directory as [os.ReadDir] lists it: an error, or its entries in the
    order of the listing, each with its name; an entry that is a directory
    ([entry.IsDir()]) carries that directory.  The commands create regular
    files only and look at no entry that is not a directory, so the files
    they create are left out of the listings. *)
#[local] Unset Elimination Schemes.
Inductive Dir : Type :=
| mkDir (listing : error + list (string * option Dir)).
#[local] Set Elimination Schemes.

(** What [os.Stat] reports of a path, as far as the commands look at it. *)
Inductive FileInfo : Type :=
| RegularFile
| Directory (dir : Dir).

(** What the commands print: a record of the standard logger (the formatted
    message; the logger puts its prefix and the time before it and a line
    feed after it where it ends in none), a line of [fmt.Println], or the
    output of [flag.PrintDefaults]. *)
Inductive Output : Type :=
| Logged (msg : string)
| Printed (line : string)
| PrintedDefaults.

(** The host a command runs on.
    - [h_world]: the archives, the write outcomes and the containers.
    - [h_stat path]: what [os.Stat(path)] returns for a path at which the run
      has created no file.
    - [h_glob pattern]: what [filepath.Glob(pattern)] returns.  Every pattern
      of the commands ends in *.cbz and a command that calls Glob creates
      only files named *.epub, so its own files do not change the matches.
    - [h_ids]: the date and the identifier that each later conversion sees,
      in call order; when the list is used up the ones of the world stay.
    - [h_output]: what has been printed so far. *)
Record Host : Type := {
  h_world : World;
  h_stat : string -> error + FileInfo;
  h_glob : string -> error + list string;
  h_ids : list (string * string);
  h_output : list Output
}.

(** A step of a command: it always returns and acts on the host.  A Go
    [error] result is an [option error], [None] being [nil]. *)
Definition Cmd (A : Type) : Type := Host -> A * Host.

Definition retH {A : Type} (a : A) : Cmd A := fun h => (a, h).

Definition bindH {A B : Type} (m : Cmd A) (k : A -> Cmd B) : Cmd B :=
  fun h => let (a, h') := m h in k a h'.

Notation "x <<- m ;; k" := (bindH m (fun x => k))
  (at level 61, m at next level, right associativity).
Notation "m ;;; k" := (bindH m (fun _ => k))
  (at level 61, right associativity).

Definition say (o : Output) : Cmd unit :=
  fun h =>
    (tt, {| h_world := h_world h; h_stat := h_stat h; h_glob := h_glob h;
            h_ids := h_ids h; h_output := (h_output h ++ [o])%list |}).

(** [log.Printf(format, args...)], [msg] being the formatted message *)
Definition log_Printf (msg : string) : Cmd unit := say (Logged msg).

(** [log.Println(s)] *)
Definition log_Println (s : string) : Cmd unit := say (Logged (s ++ nl)).

(** [fmt.Println(s)] *)
Definition fmt_Println (s : string) : Cmd unit := say (Printed s).

(** [flag.PrintDefaults()] *)
Definition flag_PrintDefaults : Cmd unit := say PrintedDefaults.

(** The [error] a call returned. *)
Definition error_of {A : Type} (r : result A) : option error :=
  match r with
  | Ok _ => None
  | Err e => Some e
  end.

Definition set_world (w : World) (h : Host) : Host :=
  {| h_world := w; h_stat := h_stat h; h_glob := h_glob h;
     h_ids := h_ids h; h_output := h_output h |}.

(** [os.Stat(name)]: a file the run has created is a regular file. *)
Definition os_Stat (name : string) : Cmd (error + FileInfo) :=
  fun h =>
    (match w_written (h_world h) name with
     | Some _ => inr RegularFile
     | None => h_stat h name
     end, h).

(** [os.ReadDir(dirPath)], [dir] being the directory at [dirPath] *)
Definition os_ReadDir (dir : Dir) : error + list (string * option Dir) :=
  match dir with
  | mkDir listing => listing
  end.

(** [filepath.Glob(pattern)] *)
Definition filepath_Glob (pattern : string) : Cmd (error + list string) :=
  fun h => (h_glob h pattern, h).

(** The elements of a path between its separators. *)
Fixpoint path_elements (path : string) : list string :=
  match path with
  | EmptyString => [EmptyString]
  | String c rest =>
      if filepath.IsPathSeparator c then EmptyString :: path_elements rest
      else match path_elements rest with
           | [] => [String c EmptyString]
           | e :: es => String c e :: es
           end
  end.

(** The loop of [filepath.Clean] element by element: [out] holds the elements
    written so far, the last one first.  An empty element and [.] are
    dropped; [..] removes the element before it, stays when there is none to
    remove in a path that is not rooted, and is dropped at the root. *)
Fixpoint Clean_loop (rooted : bool) (elements out : list string) : list string :=
  match elements with
  | [] => out
  | e :: rest =>
      if (e =? EmptyString) || (e =? ".") then Clean_loop rooted rest out
      else if e =? ".." then
        match out with
        | top :: out' =>
            if top =? ".." then Clean_loop rooted rest (".." :: out)
            else Clean_loop rooted rest out'
        | [] => if rooted then Clean_loop rooted rest [] else Clean_loop rooted rest [".."]
        end
      else Clean_loop rooted rest (e :: out)
  end.

(** [strings.Join(elems, "/")] *)
Fixpoint join_elements (elements : list string) : string :=
  match elements with
  | [] => EmptyString
  | [e] => e
  | e :: rest => e ++ "/" ++ join_elements rest
  end.

(** [filepath.Clean(path)] *)
Definition filepath_Clean (path : string) : string :=
  match path with
  | EmptyString => "."
  | String c _ =>
      let rooted := filepath.IsPathSeparator c in
      let out := join_elements (List.rev (Clean_loop rooted (path_elements path) [])) in
      if rooted then "/" ++ out
      else if out =? EmptyString then "." else out
  end.

(** [filepath.Join(a, b)]: the first element that is not empty and those
    after it, joined by separators and cleaned. *)
Definition filepath_Join (a b : string) : string :=
  if negb (a =? EmptyString) then filepath_Clean (a ++ "/" ++ b)
  else if negb (b =? EmptyString) then filepath_Clean b
  else EmptyString.

(** The world in which the next conversion runs: it sees the next date and
    identifier of the host. *)
Definition renewed (h : Host) : World :=
  match h_ids h with
  | [] => h_world h
  | (date, uuid) :: _ =>
      {| w_file := w_file (h_world h); w_disk := w_disk (h_world h);
         w_unfinished := w_unfinished (h_world h); w_faults := w_faults (h_world h);
         w_opened := w_opened (h_world h); w_containers := w_containers (h_world h);
         w_today := date; w_uuid := uuid |}
  end.

(** ** Package cmd/cbz2epub *)
Module cbz2epub.

(** Config holds the application configuration *)
Record Config : Type := {
  Merge : bool;
  Convert : bool;
  OutputFile : string;
  Verbose : bool;
  Recursive : bool;
  InputFiles : slice string
}.

Section WithRuntime.
Context {rt : GoRuntime}.

(** [sort.Strings(x)]: increasing byte-wise order, by the contract of the
    runtime's sort. *)
Definition sort_Strings (x : slice string) : slice string := sort.Slice x String.ltb.

(** [cbz.MergeFiles] called on the host *)
Definition cbz_MergeFiles (inputFiles : list string) (outputFile : string) : Cmd (option error) :=
  fun h =>
    let (r, w) := cbz.MergeFiles inputFiles outputFile (h_world h) in
    (error_of r, set_world w h).

(** [epub.ConvertFile] called on the host *)
Definition epub_ConvertFile (inputFile outputFile : string) : Cmd (option error) :=
  fun h =>
    let (r, w) := epub.ConvertFile inputFile outputFile (renewed h) in
    (error_of r,
     {| h_world := w; h_stat := h_stat h; h_glob := h_glob h;
        h_ids := tl (h_ids h); h_output := h_output h |}).

(** printUsage prints the usage information *)
Definition printUsage : Cmd unit :=
  fmt_Println "CBZ2EPUB - A tool for merging CBZ files and converting them to EPUB" ;;;
  fmt_Println (nl ++ "Usage:") ;;;
  fmt_Println "  cbz2epub -merge [-output filename.cbz] file1.cbz file2.cbz ..." ;;;
  fmt_Println "  cbz2epub -convert [-output filename.epub] file.cbz" ;;;
  fmt_Println "  cbz2epub -convert -recursive [directory]" ;;;
  fmt_Println (nl ++ "Options:") ;;;
  flag_PrintDefaults.

(** handleMergeCommand handles the merge command *)
Definition handleMergeCommand (config : Config) : Cmd (option error) :=
  if (len (InputFiles config) =? 0)%nat then
    log_Println "No input files specified" ;;;
    printUsage ;;;
    retH (Some (LibError "no input files specified"))
  else
    let inputFiles := sort_Strings (InputFiles config) in
    let outputFile :=
      if OutputFile config =? EmptyString then "merged.cbz" else OutputFile config in
    (if Verbose config
     then log_Printf ("Merging " ++ fmt.d (len inputFiles) ++ " files into " ++
                      outputFile ++ nl)
     else retH tt) ;;;
    err <<- cbz_MergeFiles (elems inputFiles) outputFile ;;
    match err with
    | Some e =>
        log_Printf ("Error merging CBZ files: " ++ Error e) ;;;
        retH (Some e)
    | None =>
        log_Printf ("Successfully merged " ++ fmt.d (len inputFiles) ++
                    " CBZ files into " ++ outputFile ++ nl) ;;;
        retH None
    end.

(** The loop [for _, file := range files] of processDirectory, with
    [processingError] as the accumulator. *)
Fixpoint range_files (config : Config) (files : list string)
    (processingError : option error) : Cmd (option error) :=
  match files with
  | [] => retH processingError
  | file :: rest =>
      let outputFile := strings.TrimSuffix file ".cbz" ++ ".epub" in
      (if Verbose config
       then log_Printf ("Converting " ++ file ++ " to " ++ outputFile ++ nl)
       else retH tt) ;;;
      err <<- epub_ConvertFile file outputFile ;;
      match err with
      | Some e =>
          log_Printf ("Error converting " ++ file ++ ": " ++ Error e ++ nl) ;;;
          range_files config rest (Some e)
      | None =>
          log_Printf ("Successfully converted " ++ file ++ " to " ++ outputFile ++ nl) ;;;
          range_files config rest processingError
      end
  end.

(** processDirectory processes all CBZ files in a directory; [dir] is the
    directory at [dirPath].  The inner loop is
    [for _, subdir := range subdirs]. *)
Fixpoint processDirectory (dir : Dir) (dirPath : string) (config : Config) {struct dir}
  : Cmd (option error) :=
  (if Verbose config
   then log_Printf ("Processing directory: " ++ dirPath ++ nl)
   else retH tt) ;;;
  files <<- filepath_Glob (filepath_Join dirPath "*.cbz") ;;
  match files with
  | inl err =>
      log_Printf ("Error finding CBZ files in " ++ dirPath ++ ": " ++ Error err ++ nl) ;;;
      retH (Some err)
  | inr files =>
      if (List.length files =? 0)%nat then
        log_Printf ("No CBZ files found in " ++ dirPath ++ nl) ;;;
        retH None
      else
        processingError <<- range_files config files None ;;
        if Recursive config then
          match dir with
          | mkDir (inl err) =>
              log_Printf ("Error reading subdirectories in " ++ dirPath ++ ": " ++
                          Error err ++ nl) ;;;
              retH (Some err)
          | mkDir (inr subdirs) =>
              (fix range_subdirs (subdirs : list (string * option Dir))
                   (processingError : option error) : Cmd (option error) :=
                 match subdirs with
                 | [] => retH processingError
                 | (name, Some subdir) :: rest =>
                     err <<- processDirectory subdir (filepath_Join dirPath name) config ;;
                     range_subdirs rest
                       (match err, processingError with
                        | Some e, None => Some e
                        | _, _ => processingError
                        end)
                 | (_, None) :: rest => range_subdirs rest processingError
                 end) subdirs processingError
          end
        else retH processingError
  end.

(** The loop [for _, inputFile := range config.InputFiles] of
    handleConvertCommand, with [conversionError] as the accumulator. *)
Fixpoint range_InputFiles (config : Config) (inputFiles : list string)
    (conversionError : option error) : Cmd (option error) :=
  match inputFiles with
  | [] => retH conversionError
  | inputFile :: rest =>
      fileInfo <<- os_Stat inputFile ;;
      match fileInfo with
      | inl err =>
          log_Printf ("Error accessing " ++ inputFile ++ ": " ++ Error err ++ nl) ;;;
          range_InputFiles config rest (Some err)
      | inr (Directory dir) =>
          if Recursive config then
            err <<- processDirectory dir inputFile config ;;
            range_InputFiles config rest
              (match err with
               | Some e => Some e
               | None => conversionError
               end)
          else
            log_Printf ("Skipping directory " ++ inputFile ++
                        " (use -recursive to process directories)" ++ nl) ;;;
            range_InputFiles config rest conversionError
      | inr RegularFile =>
          if negb (strings.HasSuffix (strings.ToLower inputFile) ".cbz") then
            log_Printf ("Skipping non-CBZ file: " ++ inputFile ++ nl) ;;;
            range_InputFiles config rest conversionError
          else
            let outputFile :=
              if (OutputFile config =? EmptyString) || (1 <? len (InputFiles config))%nat
              then strings.TrimSuffix inputFile ".cbz" ++ ".epub"
              else OutputFile config in
            (if Verbose config
             then log_Printf ("Converting " ++ inputFile ++ " to " ++ outputFile ++ nl)
             else retH tt) ;;;
            err <<- epub_ConvertFile inputFile outputFile ;;
            match err with
            | Some e =>
                log_Printf ("Error converting " ++ inputFile ++ ": " ++ Error e ++ nl) ;;;
                range_InputFiles config rest (Some e)
            | None =>
                log_Printf ("Successfully converted " ++ inputFile ++ " to " ++
                            outputFile ++ nl) ;;;
                range_InputFiles config rest conversionError
            end
      end
  end.

(** handleConvertCommand handles the convert command *)
Definition handleConvertCommand (config : Config) : Cmd (option error) :=
  if (len (InputFiles config) =? 0)%nat then
    log_Println "No input files specified" ;;;
    printUsage ;;;
    retH (Some (LibError "no input files specified"))
  else range_InputFiles config (elems (InputFiles config)) None.

End WithRuntime.
End cbz2epub.

(** * Specification vocabulary

    Closed forms of what the programs read and write, the observations made
    on a run, and the readers of the generated documents.  Nothing here is
    part of the sources; the facts further down relate it to them. *)

Unset Implicit Arguments.

(** ** Digits *)

Definition is_digit (c : ascii) : bool :=
  (48 <=? nat_of_ascii c)%nat && (nat_of_ascii c <=? 57)%nat.

(** [e] is empty or starts with a byte that is no digit. *)
Definition no_digit_head (e : string) : Prop :=
  match e with
  | EmptyString => True
  | String c _ => is_digit c = false
  end.

Fixpoint lead_zeros (k : nat) (u : uint) : uint :=
  match k with
  | O => u
  | S k' => D0 (lead_zeros k' u)
  end.

(** ** Observing a run: frames and entries put *)

(** [w'] differs from [w] at most by the outcomes consumed and by the
    file that [out] names. *)
Definition frame (out : string) (w w' : World) : Prop :=
  w_file w' = w_file w /\ w_unfinished w' = w_unfinished w /\
  w_opened w' = w_opened w /\ w_today w' = w_today w /\ w_uuid w' = w_uuid w /\
  forall f, f <> w_file w out ->
    w_disk w' f = w_disk w f /\ w_containers w' f = w_containers w f.

(** [w'] names the files as [w] does and holds what [w] holds in every file
    but the one that [out] names. *)
Definition off (out : string) (w w' : World) : Prop :=
  w_file w' = w_file w /\ w_unfinished w' = w_unfinished w /\
  forall f, f <> w_file w out ->
    w_disk w' f = w_disk w f /\ w_containers w' f = w_containers w f.

(** None of the paths names the file that [out] names. *)
Definition apart (w : World) (out : string) (paths : list string) : Prop :=
  Forall (fun p => w_file w p <> w_file w out) paths.

(** An entry created and then written, as every entry of both programs is:
    the two messages are those of the two error returns. *)
Record Put : Type := {
  put_create_msg : string;
  put_write_msg : string;
  put_entry : Entry
}.

Definition blank (e : Entry) : Entry :=
  {| e_Name := e_Name e; e_Method := e_Method e; e_Data := [] |}.

Definition put (out : string) (p : Put) : M unit :=
  wrapf (put_create_msg p)
    (zip.CreateHeader out (e_Name (put_entry p)) (e_Method (put_entry p))) ;;
  wrapf (put_write_msg p) (zip.Write out (e_Data (put_entry p))).

Fixpoint puts (out : string) (ps : list Put) : M unit :=
  match ps with
  | [] => ret tt
  | p :: ps' => put out p ;; puts out ps'
  end.

(** No outcome of the list is a failure. *)
Definition no_fault (faults : list (option error)) : Prop :=
  Forall (fun o => o = None) faults.

(** ** An insertion sort that keeps ties in order *)

(** [x] goes before the first element [y] with [before x y]. *)
Fixpoint insert_by {A : Type} (before : A -> A -> bool) (x : A) (l : list A) : list A :=
  match l with
  | [] => [x]
  | y :: l' => if before x y then x :: y :: l' else y :: insert_by before x l'
  end.

Definition insertion_sort {A : Type} (before : A -> A -> bool) (l : list A) : list A :=
  fold_left (fun acc x => insert_by before x acc) l [].

(** Insertion after the elements that are not greater: ties keep their order. *)
Definition stable_sort {A : Type} (less : A -> A -> bool) (l : list A) : list A :=
  insertion_sort less l.

(** ** sort.Slice on short slices, as the Go releases since 1.19 run it

    [sort.Slice(x, less)] calls [pdqsort_func(lessSwap{less, swap}, 0,
    length, bits.Len(uint(length)))] of sort/zsortfunc.go.  What follows is
    the part of it that a slice of at most 13 elements reaches: up to 12
    elements the insertion sort; at 13 elements the choice of a pivot among
    the elements at 3, 6 and 9, the test whether the slice is in order, one
    partition, and the insertion sort of the two sides, which have at most
    12 elements.  [breakPatterns_func], [heapSort_func], the ninther of
    [choosePivot_func], [reverseRange_func], [partitionEqual_func] and the
    shifting of [partialInsertionSort_func] are reached by longer slices
    only and are not part of the model. *)
Module pdqsort.
Section WithLess.
Context {A : Type}.
Variable less : A -> A -> bool.

Fixpoint set_nth (data : list A) (i : nat) (x : A) : list A :=
  match data, i with
  | [], _ => []
  | _ :: rest, O => x :: rest
  | d :: rest, S i' => d :: set_nth rest i' x
  end.

(** [data.Less(i, j)] and [data.Swap(i, j)]; every call below has its
    indices within the slice. *)
Definition Less (data : list A) (i j : nat) : bool :=
  match nth_error data i, nth_error data j with
  | Some x, Some y => less x y
  | _, _ => false
  end.

Definition Swap (data : list A) (i j : nat) : list A :=
  match nth_error data i, nth_error data j with
  | Some x, Some y => set_nth (set_nth data i y) j x
  | _, _ => data
  end.

(** [for j := i; j > a && data.Less(j, j-1); j-- { data.Swap(j, j-1) }] *)
Fixpoint insertion_step (a : nat) (data : list A) (j : nat) : list A :=
  match j with
  | O => data
  | S j' =>
      if (a <? j)%nat && Less data j j'
      then insertion_step a (Swap data j j') j'
      else data
  end.

(** [for i := a + 1; i < b; i++], [count] being the number of rounds left *)
Fixpoint insertion_rounds (a : nat) (data : list A) (i count : nat) : list A :=
  match count with
  | O => data
  | S count' => insertion_rounds a (insertion_step a data i) (S i) count'
  end.

(** insertionSort_func sorts data[a:b] using insertion sort. *)
Definition insertionSort_func (data : list A) (a b : nat) : list A :=
  insertion_rounds a data (a + 1) (b - (a + 1)).

(** order2_func returns x,y where data[x] <= data[y], where x,y=a,b or
    x,y=b,a; the third component is the count of swaps. *)
Definition order2_func (data : list A) (a b swaps : nat) : nat * nat * nat :=
  if Less data b a then (b, a, swaps + 1) else (a, b, swaps).

(** median_func returns x where data[x] is the median of data[a], data[b],
    data[c]. *)
Definition median_func (data : list A) (a b c swaps : nat) : nat * nat :=
  let '(a, b, swaps) := order2_func data a b swaps in
  let '(b, c, swaps) := order2_func data b c swaps in
  let '(a, b, swaps) := order2_func data a b swaps in
  (b, swaps).

Inductive sortedHint : Type := unknownHint | increasingHint | decreasingHint.

(** choosePivot_func chooses a pivot in data[a:b], for [b - a] below
    [shortestNinther] = 50; [maxSwaps] is 4 * 3. *)
Definition choosePivot_func (data : list A) (a b : nat) : nat * sortedHint :=
  let l := b - a in
  let i := a + l / 4 * 1 in
  let j := a + l / 4 * 2 in
  let k := a + l / 4 * 3 in
  let '(j, swaps) := if (8 <=? l)%nat then median_func data i j k 0 else (j, 0) in
  match swaps with
  | 0 => (j, increasingHint)
  | 12 => (j, decreasingHint)
  | _ => (j, unknownHint)
  end.

(** [for i < b && !data.Less(i, i-1) { i++ }] *)
Fixpoint ordered_up_to (data : list A) (i b fuel : nat) : nat :=
  match fuel with
  | O => i
  | S fuel' =>
      if (i <? b)%nat && negb (Less data i (i - 1))
      then ordered_up_to data (S i) b fuel'
      else i
  end.

(** partialInsertionSort_func, for [b - a] below [shortestShifting] = 50: it
    returns in its first round, true if the slice is sorted. *)
Definition partialInsertionSort_func (data : list A) (a b : nat) : bool :=
  (ordered_up_to data (a + 1) b (b - a) =? b)%nat.

(** [for i <= j && data.Less(i, a) { i++ }] *)
Fixpoint scan_up (data : list A) (a i j fuel : nat) : nat :=
  match fuel with
  | O => i
  | S fuel' =>
      if (i <=? j)%nat && Less data i a then scan_up data a (S i) j fuel' else i
  end.

(** [for i <= j && !data.Less(j, a) { j-- }] *)
Fixpoint scan_down (data : list A) (a i j fuel : nat) : nat :=
  match fuel with
  | O => j
  | S fuel' =>
      if (i <=? j)%nat && negb (Less data j a) then scan_down data a i (j - 1) fuel' else j
  end.

(** The second loop of partition_func: scan up, scan down, [if i > j
    { break }], swap, [i++], [j--]. *)
Fixpoint partition_loop (data : list A) (a i j fuel : nat) : list A * nat :=
  match fuel with
  | O => (data, j)
  | S fuel' =>
      let i := scan_up data a i j (List.length data) in
      let j := scan_down data a i j (List.length data) in
      if (j <? i)%nat then (data, j)
      else partition_loop (Swap data i j) a (S i) (j - 1) fuel'
  end.

(** partition_func does one quicksort partition: it returns the slice, the
    new place of the pivot and whether the slice was already partitioned. *)
Definition partition_func (data : list A) (a b pivot : nat) : list A * nat * bool :=
  let data := Swap data a pivot in
  let i := a + 1 in
  let j := b - 1 in
  let i := scan_up data a i j (List.length data) in
  let j := scan_down data a i j (List.length data) in
  if (j <? i)%nat then (Swap data j a, j, true)
  else
    let data := Swap data i j in
    let '(data, j) := partition_loop data a (S i) (j - 1) (List.length data) in
    (Swap data j a, j, false).

(** pdqsort_func on data[0:len(data)] for a slice of at most 13 elements:
    [maxInsertion] is 12, and after one partition each side is sorted by the
    insertion sort, the shorter side first. *)
Definition pdqsort_func (data : list A) : list A :=
  let b := List.length data in
  if (b <=? 12)%nat then insertionSort_func data 0 b
  else
    let '(pivot, hint) := choosePivot_func data 0 b in
    if match hint with increasingHint => true | _ => false end &&
       partialInsertionSort_func data 0 b
    then data
    else
      let '(data, mid, _) := partition_func data 0 b pivot in
      if (mid - 0 <? b - mid)%nat
      then insertionSort_func (insertionSort_func data 0 mid) (mid + 1) b
      else insertionSort_func (insertionSort_func data (mid + 1) b) 0 mid.

End WithLess.
End pdqsort.

(** [l] is in the order of [less], as a test. *)
Fixpoint in_order {A : Type} (less : A -> A -> bool) (l : list A) : bool :=
  match l with
  | [] => true
  | x :: rest => forallb (fun y => negb (less y x)) rest && in_order less rest
  end.

(** sort.Slice of the Go releases since 1.19 on a slice of at most 13
    elements.  A longer slice, and a result that is not in order (there is
    none under a strict weak order), is sorted by the insertion sort: the
    model of the runtime claims nothing of pdqsort there. *)
Definition go_sort {A : Type} (less : A -> A -> bool) (l : list A) : list A :=
  let sorted := if (List.length l <=? 13)%nat then pdqsort.pdqsort_func less l else l in
  if in_order less sorted then sorted else stable_sort less sorted.

(** ** The archive reader in closed form *)

Section ReaderVocabulary.
Context {rt : GoRuntime}.

(** The entries ReadFile keeps: no directory, an image extension. *)
Definition kept (file : ZipFile) : bool :=
  negb (zip.IsDir file || negb (cbz.isImageFile (zf_Name file))).

Definition retained (files : list ZipFile) : list ZipFile := filter kept files.

Definition body_data (file : ZipFile) : list byte :=
  match zf_body file with
  | Content data => data
  | _ => []
  end.

Definition readable (file : ZipFile) : Prop :=
  exists data, zf_body file = Content data.

(** The Image that ReadFile makes of an entry. *)
Definition image_of (file : ZipFile) : cbz.Image :=
  {| cbz.Name := filepath.Base (zf_Name file);
     cbz.Data := body_data file;
     cbz.MimeType := cbz.getMimeType (zf_Name file) |}.

(** The loop of ReadFile without the world, which it leaves as it is. *)
Fixpoint collect (files : list ZipFile) (images : slice cbz.Image) : result (slice cbz.Image) :=
  match files with
  | [] => Ok images
  | file :: rest =>
      if kept file
      then match zf_body file with
           | OpenFails e => Err (Errorf "failed to open file in CBZ" e)
           | ReadFails e => Err (Errorf "failed to read file data" e)
           | Content _ => collect rest (append images (image_of file))
           end
      else collect rest images
  end.

(** The world after a call of [zip.OpenReader(name)]. *)
Definition logged (name : string) (w : World) : World :=
  {| w_file := w_file w; w_disk := w_disk w;
     w_unfinished := w_unfinished w; w_faults := w_faults w;
     w_opened := (w_opened w ++ [name])%list;
     w_containers := w_containers w;
     w_today := w_today w; w_uuid := w_uuid w |}.

(** What ReadFile returns, from what [zip.OpenReader] returns. *)
Definition read_result (zips : string -> error + list ZipFile) (filename : string)
  : result cbz.File :=
  match zips filename with
  | inl e => Err (Errorf "failed to open CBZ file" e)
  | inr files =>
      match collect files (mk_slice []) with
      | Ok images =>
          Ok {| cbz.File_Name := filename; cbz.Images := sort.Slice images cbz.by_name |}
      | Err e => Err e
      end
  end.

(** ** The merger in closed form *)

(** [fmt.Sprintf("chapter%03d_%03d%s", c, n, ext)] *)
Definition chapter_name (c n : nat) (ext : string) : string :=
  "chapter" ++ fmt.d03 c ++ "_" ++ fmt.d03 n ++ ext.

(** The entry MergeFiles writes for an image of chapter [c] (1-based) when the
    counter is [n]. *)
Definition chapter_entry (c n : nat) (image : cbz.Image) : Entry :=
  {| e_Name := chapter_name c n (filepath.Ext (cbz.Name image));
     e_Method := Deflate;
     e_Data := cbz.Data image |}.

Definition chapter_put (c n : nat) (image : cbz.Image) : Put :=
  {| put_create_msg := "failed to create file in output zip";
     put_write_msg := "failed to write image data";
     put_entry := chapter_entry c n image |}.

Fixpoint chapter_puts (chapterIndex n : nat) (images : list cbz.Image) : list Put :=
  match images with
  | [] => []
  | image :: rest => chapter_put (chapterIndex + 1) n image :: chapter_puts chapterIndex (n + 1) rest
  end.

(** The puts of a whole merge: chapter by chapter, one counter. *)
Fixpoint merge_puts (chapterIndex n : nat) (archives : list cbz.File) : list Put :=
  match archives with
  | [] => []
  | a :: rest =>
      (chapter_puts chapterIndex n (elems (cbz.Images a)) ++
       merge_puts (chapterIndex + 1) (n + len (cbz.Images a)) rest)%list
  end.

(** Each input read in the given world. *)
Definition read_all (zips : string -> error + list ZipFile)
    (inputFiles : list string) (archives : list cbz.File) : Prop :=
  Forall2 (fun p a => read_result zips p = Ok a) inputFiles archives.

End ReaderVocabulary.

(** ** Worlds after a call *)

(** The world after a failed writing call: one outcome consumed. *)
Definition consumed (w : World) : World :=
  {| w_file := w_file w; w_disk := w_disk w;
     w_unfinished := w_unfinished w; w_faults := tl (w_faults w);
     w_opened := w_opened w; w_containers := w_containers w;
     w_today := w_today w; w_uuid := w_uuid w |}.

(** The world in which the file that [name] names holds a container with
    the entries [es], in which a reader finds [seen]. *)
Definition holding (name : string) (seen : error + list ZipFile) (es : list Entry)
    (w : World) : World :=
  {| w_file := w_file w;
     w_disk := fun f => if f =? w_file w name then seen else w_disk w f;
     w_unfinished := w_unfinished w;
     w_faults := w_faults w; w_opened := w_opened w;
     w_containers := fun f => if f =? w_file w name then Some es else w_containers w f;
     w_today := w_today w; w_uuid := w_uuid w |}.

(** The world after [os.Create(name)] succeeded. *)
Definition created (name : string) (w : World) : World :=
  holding name (inl os.truncated) [] (consumed w).

(** The world after the deferred [Close] calls of a function that wrote the
    container at [out]: one more outcome is consumed, and when it is no
    failure the file is the finished container. *)
Definition closed (out : string) (w : World) : World :=
  match w_faults w with
  | Some _ :: _ => consumed w
  | _ => holding out (inr (map zip.as_zip (entries_at w out))) (entries_at w out) (consumed w)
  end.

(** A result with the deferred [Close] calls done. *)
Definition closing {A : Type} (out : string) (r : result A * World) : result A * World :=
  (fst r, closed out (snd r)).

(** ** Numbering *)

(** The elements of [l] with their positions, counted from [n]. *)
Definition numbered_from {A : Type} (n : nat) (l : list A) : list (nat * A) :=
  combine (seq n (List.length l)) l.

(** Every image of the archives, each with the position of its archive,
    counted from [c]. *)
Definition chapters_from (c : nat) (archives : list cbz.File) : list (nat * cbz.Image) :=
  flat_map (fun ca => map (pair (fst ca)) (elems (cbz.Images (snd ca))))
    (numbered_from c archives).

(** The images of a merge in output order: (counter, (chapter, image)), both
    numbers 1-based. *)
Definition merged (archives : list cbz.File) : list (nat * (nat * cbz.Image)) :=
  numbered_from 1 (chapters_from 1 archives).

Definition merged_entry (x : nat * (nat * cbz.Image)) : Entry :=
  chapter_entry (fst (snd x)) (fst x) (snd (snd x)).

Definition total_images (archives : list cbz.File) : nat :=
  list_sum (map (fun a => len (cbz.Images a)) archives).

(** ** The assembler in closed form *)

(** [fmt.Sprintf("image%03d%s", k, ext)] for the image at position [k] *)
Definition image_file (k : nat) (image : cbz.Image) : string :=
  "image" ++ fmt.d03 k ++ filepath.Ext (cbz.Name image).

(** [fmt.Sprintf("page%03d.xhtml", k)] *)
Definition page_file (k : nat) : string := "page" ++ fmt.d03 k ++ ".xhtml".

(** The entries and the manifest lines of the image at position [fst x]. *)
Definition image_entry (x : nat * cbz.Image) : Entry :=
  {| e_Name := "OEBPS/images/" ++ image_file (fst x) (snd x);
     e_Method := Deflate;
     e_Data := cbz.Data (snd x) |}.

Definition page_entry (x : nat * cbz.Image) : Entry :=
  {| e_Name := "OEBPS/pages/" ++ page_file (fst x);
     e_Method := Deflate;
     e_Data := bytes_of (epub.page_xhtml (fst x) (image_file (fst x) (snd x))) |}.

Definition image_line (x : nat * cbz.Image) : string :=
  epub.image_item (fst x) (image_file (fst x) (snd x)) (cbz.MimeType (snd x)).

Definition page_line (x : nat * cbz.Image) : string :=
  epub.page_item (fst x) (page_file (fst x)).

Definition image_put (x : nat * cbz.Image) : Put :=
  {| put_create_msg := "failed to create image file";
     put_write_msg := "failed to write image data";
     put_entry := image_entry x |}.

Definition page_put (x : nat * cbz.Image) : Put :=
  {| put_create_msg := "failed to create page file";
     put_write_msg := "failed to write page content";
     put_entry := page_entry x |}.

(** The loops of ConvertFromCBZ as lists, index by index. *)
Fixpoint image_puts (i : nat) (images : list cbz.Image) : list Put :=
  match images with
  | [] => []
  | image :: rest => image_put (i + 1, image) :: image_puts (i + 1) rest
  end.

Fixpoint image_lines (i : nat) (images : list cbz.Image) : string :=
  match images with
  | [] => EmptyString
  | image :: rest => image_line (i + 1, image) ++ image_lines (i + 1) rest
  end.

Fixpoint page_puts (i : nat) (images : list cbz.Image) : list Put :=
  match images with
  | [] => []
  | image :: rest => page_put (i + 1, image) :: page_puts (i + 1) rest
  end.

Fixpoint page_lines (i : nat) (images : list cbz.Image) : string :=
  match images with
  | [] => EmptyString
  | image :: rest => page_line (i + 1, image) ++ page_lines (i + 1) rest
  end.

Fixpoint spine_lines (i : nat) (images : list cbz.Image) : string :=
  match images with
  | [] => EmptyString
  | _ :: rest => epub.itemref (i + 1) ++ spine_lines (i + 1) rest
  end.

Fixpoint nav_lines (i : nat) (images : list cbz.Image) : string :=
  match images with
  | [] => EmptyString
  | _ :: rest => epub.navPoint (i + 1) ++ nav_lines (i + 1) rest
  end.

(** The title ConvertFromCBZ derives from the archive's name. *)
Definition title_of (cbzFile : cbz.File) : string :=
  strings.TrimSuffix (filepath.Base (cbz.File_Name cbzFile)) ".cbz".

(** The text of content.opf and of toc.ncx. *)
Definition opf_text (cbzFile : cbz.File) (uuid date : string) : string :=
  epub.opf_head (title_of cbzFile) uuid date ++
  image_lines 0 (elems (cbz.Images cbzFile)) ++
  page_lines 0 (elems (cbz.Images cbzFile)) ++
  ("  </manifest>" ++ nl ++ "  <spine toc=" ++ q "ncx" ++ ">" ++ nl) ++
  spine_lines 0 (elems (cbz.Images cbzFile)) ++
  ("  </spine>" ++ nl ++ "</package>").

Definition ncx_text (cbzFile : cbz.File) (uuid : string) : string :=
  epub.ncx_head uuid (title_of cbzFile) ++
  nav_lines 0 (elems (cbz.Images cbzFile)) ++
  ("  </navMap>" ++ nl ++ "</ncx>").

Definition mimetype_entry : Entry :=
  {| e_Name := "mimetype"; e_Method := Store; e_Data := bytes_of "application/epub+zip" |}.

Definition container_entry : Entry :=
  {| e_Name := "META-INF/container.xml"; e_Method := Deflate;
     e_Data := bytes_of epub.container_xml |}.

Definition opf_entry (cbzFile : cbz.File) (uuid date : string) : Entry :=
  {| e_Name := "OEBPS/content.opf"; e_Method := Deflate;
     e_Data := bytes_of (opf_text cbzFile uuid date) |}.

Definition ncx_entry (cbzFile : cbz.File) (uuid : string) : Entry :=
  {| e_Name := "OEBPS/toc.ncx"; e_Method := Deflate;
     e_Data := bytes_of (ncx_text cbzFile uuid) |}.

Definition head_puts : list Put :=
  [ {| put_create_msg := "failed to create mimetype file";
       put_write_msg := "failed to write mimetype file";
       put_entry := mimetype_entry |};
    {| put_create_msg := "failed to create container.xml";
       put_write_msg := "failed to write container.xml";
       put_entry := container_entry |} ].

Definition tail_puts (cbzFile : cbz.File) (uuid date : string) : list Put :=
  [ {| put_create_msg := "failed to create content.opf";
       put_write_msg := "failed to write content.opf";
       put_entry := opf_entry cbzFile uuid date |};
    {| put_create_msg := "failed to create toc.ncx";
       put_write_msg := "failed to write toc.ncx";
       put_entry := ncx_entry cbzFile uuid |} ].

(** Everything ConvertFromCBZ hands to the writer, in order. *)
Definition epub_puts (cbzFile : cbz.File) (uuid date : string) : list Put :=
  (head_puts ++
   image_puts 0 (elems (cbz.Images cbzFile)) ++
   page_puts 0 (elems (cbz.Images cbzFile)) ++
   tail_puts cbzFile uuid date)%list.

(** The entries of the container ConvertFromCBZ writes for an archive, the
    images numbered from 1 in the archive's order. *)
Definition epub_entries (cbzFile : cbz.File) (uuid date : string) : list Entry :=
  ([mimetype_entry; container_entry] ++
   map image_entry (numbered_from 1 (elems (cbz.Images cbzFile))) ++
   map page_entry (numbered_from 1 (elems (cbz.Images cbzFile))) ++
   [opf_entry cbzFile uuid date; ncx_entry cbzFile uuid])%list.

(** ** Reading the generated documents back

    The spine, the navigation map and the manifest are read off the text of
    content.opf and toc.ncx line by line, each from the last line that opens
    it: text that a title brings in stands before that line. *)

(** The pieces of [s] between the occurrences of [sep]. *)
Fixpoint split (sep : ascii) (s : string) : list string :=
  match s with
  | EmptyString => [EmptyString]
  | String c s' =>
      if (c =? sep)%char then EmptyString :: split sep s'
      else match split sep s' with
           | [] => [String c EmptyString]
           | l :: ls => String c l :: ls
           end
  end.

(** The lines of a text, and the pieces of a line between double quotes. *)
Definition lines (s : string) : list string := split (ascii_of_nat 10) s.
Definition fields (s : string) : list string := split (ascii_of_nat 34) s.

Definition free_of (sep : ascii) (s : string) : bool :=
  strings.all_bytes (fun c => negb (c =? sep)%char) s.

(** The lines after the last line equal to [x]. *)
Fixpoint after_last (x : string) (ls : list string) : option (list string) :=
  match ls with
  | [] => None
  | l :: ls' =>
      match after_last x ls' with
      | Some r => Some r
      | None => if l =? x then Some ls' else None
      end
  end.

(** The idref of a line [<itemref idref=.../>]. *)
Definition itemref_id (l : string) : option string :=
  match fields l with
  | [a; id; b] => if (a =? "    <itemref idref=") && (b =? "/>") then Some id else None
  | _ => None
  end.

(** The idrefs of the itemref lines up to the line that closes the spine. *)
Fixpoint read_itemrefs (ls : list string) : option (list string) :=
  match ls with
  | [] => None
  | l :: rest =>
      if l =? "  </spine>" then Some []
      else match itemref_id l, read_itemrefs rest with
           | Some id, Some ids => Some (id :: ids)
           | _, _ => None
           end
  end.

(** The line that opens the spine of a content.opf and names toc.ncx as its
    table of contents: [  <spine toc=], [ncx] between double quotes, [>]. *)
Definition spine_line : string :=
  String.append "  <spine toc="
    (String (ascii_of_nat 34) (String.append "ncx" (String (ascii_of_nat 34) ">"))).

(** The spine of a content.opf: its idrefs in document order. *)
Definition spine_of (opf : string) : option (list string) :=
  match after_last spine_line (lines opf) with
  | Some rest => read_itemrefs rest
  | None => None
  end.





(** The (id, href, media-type) of a line [<item .../>]. *)
Definition item_of (l : string) : option (string * string * string) :=
  match fields l with
  | [a; id; b; href; c; mediaType; d] =>
      if (a =? "    <item id=") && (b =? " href=") && (c =? " media-type=") && (d =? "/>")
      then Some (id, href, mediaType) else None
  | _ => None
  end.

Fixpoint read_items (ls : list string) : option (list (string * string * string)) :=
  match ls with
  | [] => None
  | l :: rest =>
      if l =? "  </manifest>" then Some []
      else match item_of l, read_items rest with
           | Some it, Some its => Some (it :: its)
           | _, _ => None
           end
  end.

(** The manifest of a content.opf, in document order. *)
Definition manifest_of (opf : string) : option (list (string * string * string)) :=
  match after_last "  <manifest>" (lines opf) with
  | Some rest => read_items rest
  | None => None
  end.

(** ** The lines of the generated documents *)

(** The idref of page [k]. *)
Definition page_id (k : nat) : string := "page" ++ fmt.d03 k.

(** The spine line of page [k] without its line feed. *)
Definition itemref_text (k : nat) : string :=
  "    <itemref idref=" ++ q (page_id k) ++ "/>".

(** Everything of content.opf before the line that opens the spine. *)
Definition opf_before_spine (cbzFile : cbz.File) (uuid date : string) : string :=
  epub.opf_head (title_of cbzFile) uuid date ++
  image_lines 0 (elems (cbz.Images cbzFile)) ++
  page_lines 0 (elems (cbz.Images cbzFile)) ++
  "  </manifest>".


(** The target of the navigation point of page [k]. *)
Definition page_href (k : nat) : string := "pages/" ++ page_file k.







Definition opf_before_manifest (title uuid date : string) : string :=
  epub.xml_decl ++ nl ++
  "<package xmlns=" ++ q "http://www.idpf.org/2007/opf" ++ " unique-identifier=" ++
    q "BookID" ++ " version=" ++ q "2.0" ++ ">" ++ nl ++
  "  <metadata xmlns:dc=" ++ q "http://purl.org/dc/elements/1.1/" ++ " xmlns:opf=" ++
    q "http://www.idpf.org/2007/opf" ++ ">" ++ nl ++
  "    <dc:title>" ++ title ++ "</dc:title>" ++ nl ++
  "    <dc:language>en</dc:language>" ++ nl ++
  "    <dc:identifier id=" ++ q "BookID" ++ ">urn:uuid:" ++ uuid ++ "</dc:identifier>" ++ nl ++
  "    <dc:date>" ++ date ++ "</dc:date>" ++ nl ++
  "    <dc:creator>CBZ2EPUB Converter</dc:creator>" ++ nl ++
  "  </metadata>".

(** The manifest line of the navigation document. *)
Definition ncx_item : string :=
  "    <item id=" ++ q "ncx" ++ " href=" ++ q "toc.ncx" ++ " media-type=" ++
    q "application/x-dtbncx+xml" ++ "/>".

(** ** The MIME table of the specification *)

(** The recognized extensions with their MIME types, as the specification
    tabulates them, and the type of an extension under that table. *)
Definition mime_table : list (string * string) :=
  [(".jpg", "image/jpeg"); (".jpeg", "image/jpeg"); (".png", "image/png");
   (".gif", "image/gif"); (".webp", "image/webp")].

Definition mime_for (ext : string) : string :=
  match find (fun p => ext =? fst p) mime_table with
  | Some p => snd p
  | None => "application/octet-stream"
  end.

(** ** The images of a container, by the specification *)






(** ** Looking an entry up *)

(** The entry of a given name, and an entry's content as text. *)
Definition entry_named (name : string) (es : list Entry) : option Entry :=
  find (fun e => e_Name e =? name) es.

Definition text_of (e : Entry) : string := string_of_list_byte (e_Data e).

(** ** The title of the specification *)

(** The file name of a path with its extension stripped: the base name
    without what [filepath.Ext] finds at its end. *)
Definition without_extension (path : string) : string :=
  let base := filepath.Base path in
  substring 0 (String.length base - String.length (filepath.Ext base)) base.

(** An archive whose file name has its extension in upper case; the convert
    command accepts such a name. *)
Definition upper_case_archive : cbz.File :=
  {| cbz.File_Name := "shelf/Vol1.CBZ"; cbz.Images := mk_slice [] |}.

(** ** The documents up to their titles *)

(** The text of content.opf up to the title, and of toc.ncx up to the title. *)
Definition opf_up_to_title : string :=
  epub.xml_decl ++ nl ++
  "<package xmlns=" ++ q "http://www.idpf.org/2007/opf" ++ " unique-identifier=" ++
    q "BookID" ++ " version=" ++ q "2.0" ++ ">" ++ nl ++
  "  <metadata xmlns:dc=" ++ q "http://purl.org/dc/elements/1.1/" ++ " xmlns:opf=" ++
    q "http://www.idpf.org/2007/opf" ++ ">" ++ nl ++
  "    <dc:title>".

Definition ncx_up_to_title (uuid : string) : string :=
  epub.xml_decl ++ nl ++
  "<!DOCTYPE ncx PUBLIC " ++ q "-//NISO//DTD ncx 2005-1//EN" ++ " " ++
    q "http://www.daisy.org/z3986/2005/ncx-2005-1.dtd" ++ ">" ++ nl ++
  "<ncx xmlns=" ++ q "http://www.daisy.org/z3986/2005/ncx/" ++ " version=" ++ q "2005-1" ++
    ">" ++ nl ++
  "  <head>" ++ nl ++
  "    <meta name=" ++ q "dtb:uid" ++ " content=" ++ q ("urn:uuid:" ++ uuid) ++ "/>" ++ nl ++
  "    <meta name=" ++ q "dtb:depth" ++ " content=" ++ q "1" ++ "/>" ++ nl ++
  "    <meta name=" ++ q "dtb:totalPageCount" ++ " content=" ++ q "0" ++ "/>" ++ nl ++
  "    <meta name=" ++ q "dtb:maxPageNumber" ++ " content=" ++ q "0" ++ "/>" ++ nl ++
  "  </head>" ++ nl ++
  "  <docTitle>" ++ nl ++
  "    <text>".

(** ** Data of the examples *)

(** A world for the examples: no failure, nothing opened or written yet. *)
Definition quiet_world (zips : string -> error + list ZipFile) : World :=
  {| w_file := fun path => path; w_disk := zips;
     w_unfinished := fun _ => inl os.truncated;
     w_faults := []; w_opened := [];
     w_containers := fun _ => None;
     w_today := "2024-05-17";
     w_uuid := "3f2b8c1e-9d4a-4e6f-8a7b-5c0d1e2f3a4b" |}.

(** An entry that reads well. *)
Definition file_entry (name content : string) : ZipFile :=
  {| zf_Name := name; zf_dir_attr := false; zf_body := Content (bytes_of content) |}.

Definition no_such_file : error := LibError "open: no such file or directory".

(** An archive with an upper-case extension, a nested image and a text file. *)
Definition mixed_zips (path : string) : error + list ZipFile :=
  if path =? "mixed.cbz"
  then inr [file_entry "b/Cover.PNG" "P"; file_entry "readme.txt" "T"; file_entry "a.jpeg" "J"]
  else inl no_such_file.

Definition cover_png : cbz.Image :=
  {| cbz.Name := "Cover.PNG"; cbz.Data := bytes_of "P"; cbz.MimeType := "image/png" |}.

Definition a_jpeg : cbz.Image :=
  {| cbz.Name := "a.jpeg"; cbz.Data := bytes_of "J"; cbz.MimeType := "image/jpeg" |}.

(** An archive of thirteen images: two title pages of one base name in two
    folders, then eleven pages. *)
Definition twins : list ZipFile :=
  [file_entry "vol1/title.jpg" "first"; file_entry "vol2/title.jpg" "second";
   file_entry "page01.jpg" "1"; file_entry "page02.jpg" "2"; file_entry "page03.jpg" "3";
   file_entry "page04.jpg" "4"; file_entry "page05.jpg" "5"; file_entry "page06.jpg" "6";
   file_entry "page07.jpg" "7"; file_entry "page08.jpg" "8"; file_entry "page09.jpg" "9";
   file_entry "page10.jpg" "10"; file_entry "page11.jpg" "11"].

Definition twins_zips (path : string) : error + list ZipFile :=
  if path =? "twins.cbz" then inr twins else inl no_such_file.

(** Two archives that read well and a path that is no archive. *)
Definition shelf_zips (path : string) : error + list ZipFile :=
  if path =? "a.cbz"
  then inr [file_entry "a2.jpg" "A2"; file_entry "a1.jpg" "A1"]
  else if path =? "b.cbz"
  then inr [file_entry "b1.png" "B1"; file_entry "b2.png" "B2"]
  else inl no_such_file.

(** An archive of three pages, one of them without an extension. *)
Definition three_pages : cbz.File :=
  {| cbz.File_Name := "vol/One & Two.cbz";
     cbz.Images := mk_slice
       [ {| cbz.Name := "p1.jpg"; cbz.Data := bytes_of "one"; cbz.MimeType := "image/jpeg" |};
         {| cbz.Name := "p2"; cbz.Data := bytes_of "two"; cbz.MimeType := "image/png" |};
         {| cbz.Name := "p3.GIF"; cbz.Data := bytes_of "three"; cbz.MimeType := "image/gif" |} ] |}.






(** ** Outcomes of the writing calls *)

(** The first failure among the outcomes. *)
Fixpoint first_fault (faults : list (option error)) : option error :=
  match faults with
  | [] => None
  | Some e :: _ => Some e
  | None :: rest => first_fault rest
  end.

(** The messages of a list of puts, in call order. *)
Definition put_messages (ps : list Put) : list string :=
  flat_map (fun p => [put_create_msg p; put_write_msg p]) ps.

(** The messages of the error returns of ConvertFromCBZ, in source order. *)
Definition epub_messages : list string :=
  [ "failed to create output file";
    "failed to create mimetype file"; "failed to write mimetype file";
    "failed to create container.xml"; "failed to write container.xml";
    "failed to create image file"; "failed to write image data";
    "failed to create page file"; "failed to write page content";
    "failed to create content.opf"; "failed to write content.opf";
    "failed to create toc.ncx"; "failed to write toc.ncx" ].

(** An archive with entries that cannot be read: a text file that cannot be
    opened, then an image whose data breaks off, then an image that cannot be
    opened. *)
Definition damaged_zips (path : string) : error + list ZipFile :=
  if path =? "damaged.cbz"
  then inr [file_entry "p1.jpg" "one";
            {| zf_Name := "notes.txt"; zf_dir_attr := false;
               zf_body := OpenFails (LibError "zip: unsupported compression algorithm") |};
            {| zf_Name := "p2.png"; zf_dir_attr := false;
               zf_body := ReadFails (LibError "unexpected EOF") |};
            {| zf_Name := "p3.gif"; zf_dir_attr := false;
               zf_body := OpenFails (LibError "zip: checksum error") |}]
  else inl no_such_file.

(** ** A written container read back *)

(** The image of a merge under its new name. *)
Definition merged_image (x : nat * (nat * cbz.Image)) : cbz.Image :=
  {| cbz.Name := chapter_name (fst (snd x)) (fst x) (filepath.Ext (cbz.Name (snd (snd x))));
     cbz.Data := cbz.Data (snd (snd x));
     cbz.MimeType := cbz.MimeType (snd (snd x)) |}.

(** The world in which the container written at [out] has been closed and
    reads back as it was written. *)
Definition reread (out : string) (w : World) : World :=
  {| w_file := w_file w;
     w_disk := fun f => if f =? w_file w out
                        then inr (map zip.as_zip (entries_at w out)) else w_disk w f;
     w_unfinished := w_unfinished w;
     w_faults := w_faults w; w_opened := w_opened w; w_containers := w_containers w;
     w_today := w_today w; w_uuid := w_uuid w |}.

(** A byte that is neither a separator nor a dot. *)
Definition plain (c : ascii) : bool :=
  negb (filepath.IsPathSeparator c) && negb (c =? ".")%char.

(** ** The manifest lines of the generated content.opf *)

(** [s] holds neither a double quote nor a line feed. *)
Definition quotable (s : string) : bool :=
  free_of (ascii_of_nat 34) s && free_of (ascii_of_nat 10) s.

(** The id and the href of the image at position [fst x]. *)
Definition image_id (k : nat) : string := "image" ++ fmt.d03 k.

Definition image_href (x : nat * cbz.Image) : string :=
  "images/" ++ image_file (fst x) (snd x).

(** The manifest lines of an image and of a page, without their line feeds. *)
Definition image_item_text (x : nat * cbz.Image) : string :=
  "    <item id=" ++ q (image_id (fst x)) ++ " href=" ++ q (image_href x) ++
  " media-type=" ++ q (cbz.MimeType (snd x)) ++ "/>".

Definition page_item_text (k : nat) : string :=
  "    <item id=" ++ q (page_id k) ++ " href=" ++ q (page_href k) ++
  " media-type=" ++ q "application/xhtml+xml" ++ "/>".

(** The manifest items of an image and of a page: (id, href, media-type). *)
Definition image_item_of (x : nat * cbz.Image) : string * string * string :=
  (image_id (fst x), image_href x, cbz.MimeType (snd x)).

Definition page_item_of (k : nat) : string * string * string :=
  (page_id k, page_href k, "application/xhtml+xml").

(** The manifest ConvertFromCBZ writes for a list of images. *)
Definition manifest_items (images : list cbz.Image) : list (string * string * string) :=
  (("ncx", "toc.ncx", "application/x-dtbncx+xml") ::
   map image_item_of (numbered_from 1 images) ++
   map page_item_of (seq 1 (List.length images)))%list.

(** The extension and the MIME type of every image can stand between double
    quotes on a line. *)
Definition images_quotable (images : list cbz.Image) : Prop :=
  Forall (fun image => quotable (filepath.Ext (cbz.Name image)) = true /\
                       quotable (cbz.MimeType image) = true) images.

(** ** Observing a command *)

(** The host after [os] were printed. *)
Definition said (os : list Output) (h : Host) : Host :=
  {| h_world := h_world h; h_stat := h_stat h; h_glob := h_glob h;
     h_ids := h_ids h; h_output := (h_output h ++ os)%list |}.

(** What printUsage prints. *)
Definition usage : list Output :=
  [ Printed "CBZ2EPUB - A tool for merging CBZ files and converting them to EPUB";
    Printed (nl ++ "Usage:");
    Printed "  cbz2epub -merge [-output filename.cbz] file1.cbz file2.cbz ...";
    Printed "  cbz2epub -convert [-output filename.epub] file.cbz";
    Printed "  cbz2epub -convert -recursive [directory]";
    Printed (nl ++ "Options:");
    PrintedDefaults ].

(** The configuration with other input files. *)
Definition with_inputs (config : cbz2epub.Config) (inputFiles : list string)
  : cbz2epub.Config :=
  {| cbz2epub.Merge := cbz2epub.Merge config;
     cbz2epub.Convert := cbz2epub.Convert config;
     cbz2epub.OutputFile := cbz2epub.OutputFile config;
     cbz2epub.Verbose := cbz2epub.Verbose config;
     cbz2epub.Recursive := cbz2epub.Recursive config;
     cbz2epub.InputFiles := mk_slice inputFiles |}.

(** The steps for the elements of a list in turn, with their results. *)
Fixpoint each {A B : Type} (step : A -> Cmd B) (l : list A) : Cmd (list B) :=
  match l with
  | [] => retH []
  | x :: rest =>
      b <<- step x ;;
      bs <<- each step rest ;;
      retH (b :: bs)
  end.

(** The error a loop ends with that starts from [start] and keeps the error
    of each failing step. *)
Definition last_error (start : option error) (outcomes : list (option error))
  : option error :=
  fold_left (fun acc o => match o with Some e => Some e | None => acc end) outcomes start.

(** [w'] names the files as [w] does and holds at [p] the archive and the
    container that [w] holds there. *)
Definition same_file (p : string) (w w' : World) : Prop :=
  w_file w' = w_file w /\ w_zips w' p = w_zips w p /\ w_written w' p = w_written w p.

(** On a host that names the files by [resolve], the step leaves the file
    of [p] as it is. *)
Definition keeps_file (resolve : string -> string) (p : string) {A : Type} (m : Cmd A)
  : Prop :=
  forall h, w_file (h_world h) = resolve -> same_file p (h_world h) (h_world (snd (m h))).

(** The input is passed over on [h]: a regular file whose lowered path does
    not end in .cbz, or a directory when -recursive is not set. *)
Definition passed_over {rt : GoRuntime} (config : cbz2epub.Config) (h : Host)
    (inputFile : string) : Prop :=
  match fst (os_Stat inputFile h) with
  | inl _ => False
  | inr RegularFile => strings.HasSuffix (strings.ToLower inputFile) ".cbz" = false
  | inr (Directory _) => cbz2epub.Recursive config = false
  end.

(** A host for the examples: the archives of the shelf, one of them also
    under an upper-case name, a directory [comics] with one archive below it
    and none at its top, a text file. *)
Definition shelf_host : Host :=
  {| h_world :=
       quiet_world (fun path => if path =? "B.CBZ" then shelf_zips "b.cbz"
                                else shelf_zips path);
     h_stat := fun p =>
       if p =? "comics"
       then inr (Directory (mkDir (inr [("old", Some (mkDir (inr [("a.cbz", None)])));
                                        ("readme.txt", None)])))
       else if (p =? "a.cbz") || (p =? "b.cbz") || (p =? "B.CBZ") || (p =? "notes.txt")
       then inr RegularFile
       else inl no_such_file;
     h_glob := fun pattern =>
       if pattern =? "comics/old/*.cbz" then inr ["comics/old/a.cbz"] else inr [];
     h_ids := [("2024-05-17", "11111111-2222-4333-8444-555555555555")];
     h_output := [] |}.

Definition plain_config (inputFiles : list string) : cbz2epub.Config :=
  {| cbz2epub.Merge := false; cbz2epub.Convert := false;
     cbz2epub.OutputFile := EmptyString; cbz2epub.Verbose := false;
     cbz2epub.Recursive := true; cbz2epub.InputFiles := mk_slice inputFiles |}.

(** ** The pages of the generated container *)

(** The lines [ls], a line feed between them. *)
Fixpoint unlines (ls : list string) : string :=
  match ls with
  | [] => EmptyString
  | [l] => l
  | l :: rest => l ++ nl ++ unlines rest
  end.

(** The line of a page that shows the image, with its src and its alt. *)
Definition img_src (newName : string) : string := "../images/" ++ newName.

Definition img_alt (n : nat) : string := "Page " ++ fmt.d n.

Definition img_line (n : nat) (newName : string) : string :=
  "    <img src=" ++ q (img_src newName) ++ " alt=" ++ q (img_alt n) ++ " />".

(** The lines of the page of the image at position [n]. *)
Definition page_texts (n : nat) (newName : string) : list string :=
  [ epub.xml_decl;
    "<!DOCTYPE html PUBLIC " ++ q "-//W3C//DTD XHTML 1.1//EN" ++ " " ++
      q "http://www.w3.org/TR/xhtml11/DTD/xhtml11.dtd" ++ ">";
    "<html xmlns=" ++ q "http://www.w3.org/1999/xhtml" ++ ">";
    "<head>";
    "  <title>Page " ++ fmt.d n ++ "</title>";
    "  <style type=" ++ q "text/css" ++ ">";
    "    img { max-width: 100%; max-height: 100%; }";
    "    body { margin: 0; padding: 0; text-align: center; }";
    "  </style>";
    "</head>";
    "<body>";
    "  <div>";
    img_line n newName;
    "  </div>";
    "</body>";
    "</html>" ].

(** The src of the first line of a page that starts an [img] element. *)
Definition img_src_of (page : string) : option string :=
  match find (String.prefix "    <img src=") (lines page) with
  | Some l =>
      match fields l with
      | [a; src; b; _; c] =>
          if (a =? "    <img src=") && (b =? " alt=") && (c =? " />") then Some src else None
      | _ => None
      end
  | None => None
  end.

(** The entry that a reference made in a page names: the pages lie in
    OEBPS/pages/, so [../x] is OEBPS/x. *)
Definition from_pages (src : string) : option string :=
  if String.prefix "../" src
  then Some ("OEBPS/" ++ substring 3 (String.length src - 3) src)
  else None.

(** ** The archives a directory run attempts *)

(** The archives processDirectory attempts for a directory, in order: the
    matches of the directory itself and, when it has any, when -recursive is
    set and the directory can be listed, those of its subdirectories in the
    order of the listing. *)
Fixpoint attempted (glob : string -> error + list string) (recursive : bool)
    (dir : Dir) (dirPath : string) {struct dir} : list string :=
  match glob (filepath_Join dirPath "*.cbz") with
  | inl _ => []
  | inr files =>
      if (List.length files =? 0)%nat then []
      else
        (files ++
         (if recursive then
            match dir with
            | mkDir (inl _) => []
            | mkDir (inr subdirs) =>
                (fix below (subdirs : list (string * option Dir)) : list string :=
                   match subdirs with
                   | [] => []
                   | (name, Some subdir) :: rest =>
                       (attempted glob recursive subdir (filepath_Join dirPath name) ++
                        below rest)%list
                   | (_, None) :: rest => below rest
                   end) subdirs
            end
          else []))%list
  end.

(** From a host with the matches [glob], the step opens exactly the archives
    [l], in this order, and leaves the matches as they are. *)
Definition opens (glob : string -> error + list string) {A : Type} (m : Cmd A)
    (l : list string) : Prop :=
  forall h, h_glob h = glob ->
    h_glob (snd (m h)) = glob /\
    w_opened (h_world (snd (m h))) = (w_opened (h_world h) ++ l)%list.

(** * Facts about the library model *)

(** ** Strings *)

Lemma string_app_assoc (a b c : string) : (a ++ b) ++ c = a ++ (b ++ c).
Proof. induction a as [|x a IH]; simpl; [reflexivity | now rewrite IH]. Qed.

Lemma string_app_nil_r (a : string) : a ++ EmptyString = a.
Proof. induction a as [|x a IH]; simpl; [reflexivity | now rewrite IH]. Qed.

Lemma string_app_length (a b : string) :
  String.length (a ++ b) = String.length a + String.length b.
Proof. induction a as [|x a IH]; simpl; [reflexivity | now rewrite IH]. Qed.

Lemma string_app_inv_head (a b c : string) : a ++ b = a ++ c -> b = c.
Proof.
  induction a as [|x a IH]; simpl; intros H; [exact H|].
  injection H as H. now apply IH.
Qed.

Lemma substring_head (a b : string) : substring 0 (String.length a) (a ++ b) = a.
Proof.
  induction a as [|x a IH]; simpl.
  - now destruct b.
  - now rewrite IH.
Qed.

Lemma substring_tail (a b : string) :
  substring (String.length a) (String.length b) (a ++ b) = b.
Proof.
  induction a as [|x a IH]; simpl; [|exact IH].
  rewrite <- (string_app_nil_r b) at 2.
  change (String.length b) with (String.length b).
  rewrite substring_head. reflexivity.
Qed.

Lemma substring_split (k : nat) (s : string) :
  k <= String.length s ->
  substring 0 k s ++ substring k (String.length s - k) s = s.
Proof.
  revert k. induction s as [|x s IH]; intros k Hk; simpl in Hk.
  - assert (k = 0) by lia. subst. reflexivity.
  - destruct k as [|k].
    + simpl. f_equal.
      rewrite <- (string_app_nil_r s) at 2.
      rewrite substring_head. reflexivity.
    + simpl. f_equal. apply IH. lia.
Qed.

Lemma string_of_list_ascii_app (a b : list ascii) :
  string_of_list_ascii (a ++ b)%list = string_of_list_ascii a ++ string_of_list_ascii b.
Proof. induction a as [|x a IH]; simpl; [reflexivity | now rewrite IH]. Qed.

(** ** strings.HasSuffix and strings.TrimSuffix *)

Lemma HasSuffix_app (a suffix : string) : strings.HasSuffix (a ++ suffix) suffix = true.
Proof.
  unfold strings.HasSuffix. rewrite string_app_length.
  apply andb_true_iff. split.
  - apply Nat.leb_le. lia.
  - replace (String.length a + String.length suffix - String.length suffix)
      with (String.length a) by lia.
    rewrite substring_tail. apply String.eqb_refl.
Qed.

Lemma TrimSuffix_app (a suffix : string) : strings.TrimSuffix (a ++ suffix) suffix = a.
Proof.
  unfold strings.TrimSuffix. rewrite HasSuffix_app, string_app_length.
  replace (String.length a + String.length suffix - String.length suffix)
    with (String.length a) by lia.
  apply substring_head.
Qed.

Lemma HasSuffix_split (s suffix : string) :
  strings.HasSuffix s suffix = true -> s = strings.TrimSuffix s suffix ++ suffix.
Proof.
  intros H. unfold strings.TrimSuffix. rewrite H.
  unfold strings.HasSuffix in H. apply andb_true_iff in H. destruct H as [Hl He].
  apply Nat.leb_le in Hl. apply String.eqb_eq in He.
  remember (String.length s - String.length suffix) as k eqn:Hk.
  assert (Hm : String.length suffix = String.length s - k) by lia.
  rewrite Hm in He. rewrite <- He.
  symmetry. apply substring_split. lia.
Qed.

Lemma TrimSuffix_none (s suffix : string) :
  strings.HasSuffix s suffix = false -> strings.TrimSuffix s suffix = s.
Proof. intros H. unfold strings.TrimSuffix. now rewrite H. Qed.

(** ** fmt: decimal digits *)

Lemma uint_digits (u : uint) : strings.all_bytes is_digit (NilEmpty.string_of_uint u) = true.
Proof. induction u; simpl; auto. Qed.

Lemma zeros_digits (k : nat) : strings.all_bytes is_digit (fmt.zeros k) = true.
Proof. induction k; simpl; auto. Qed.

Lemma all_bytes_app (p : ascii -> bool) (a b : string) :
  strings.all_bytes p (a ++ b) = strings.all_bytes p a && strings.all_bytes p b.
Proof. induction a as [|x a IH]; simpl; [reflexivity|]. now rewrite IH, andb_assoc. Qed.

Lemma d_digits (n : nat) : strings.all_bytes is_digit (fmt.d n) = true.
Proof. apply uint_digits. Qed.

Lemma d03_digits (n : nat) : strings.all_bytes is_digit (fmt.d03 n) = true.
Proof. unfold fmt.d03. now rewrite all_bytes_app, zeros_digits, d_digits. Qed.

Lemma uint_of_zeros (k : nat) (u : uint) :
  NilEmpty.uint_of_string (fmt.zeros k ++ NilEmpty.string_of_uint u) = Some (lead_zeros k u).
Proof.
  induction k as [|k IH]; simpl.
  - apply NilEmpty.usu.
  - now rewrite IH.
Qed.

Lemma of_lead_zeros (k : nat) (u : uint) : Nat.of_uint (lead_zeros k u) = Nat.of_uint u.
Proof. induction k as [|k IH]; simpl; [reflexivity | exact IH]. Qed.

Lemma d03_inj (a b : nat) : fmt.d03 a = fmt.d03 b -> a = b.
Proof.
  unfold fmt.d03, fmt.d. intros H.
  apply (f_equal NilEmpty.uint_of_string) in H.
  rewrite !uint_of_zeros in H. injection H as H.
  apply (f_equal Nat.of_uint) in H.
  now rewrite !of_lead_zeros, !Unsigned.of_to in H.
Qed.

(** Two digit runs followed by text that starts with no digit agree as soon as
    the whole texts agree. *)
Lemma digits_split (a b e1 e2 : string) :
  strings.all_bytes is_digit a = true -> strings.all_bytes is_digit b = true ->
  no_digit_head e1 -> no_digit_head e2 ->
  a ++ e1 = b ++ e2 -> a = b /\ e1 = e2.
Proof.
  revert b. induction a as [|x a IH]; intros b Ha Hb H1 H2 H.
  - destruct b as [|y b]; simpl in *.
    + now split.
    + subst e1. apply andb_true_iff in Hb. destruct Hb as [Hy _].
      simpl in H1. congruence.
  - destruct b as [|y b]; simpl in *.
    + subst e2. apply andb_true_iff in Ha. destruct Ha as [Hx _].
      simpl in H2. congruence.
    + injection H as Hxy H.
      apply andb_true_iff in Ha. apply andb_true_iff in Hb.
      destruct (IH b) as [E1 E2]; try tauto.
      split; congruence.
Qed.

(** ** filepath.Ext and filepath.Base *)

Lemma Ext_loop_shape (rest : list ascii) (acc : string) :
  filepath.Ext_loop rest acc = EmptyString \/
  exists r, filepath.Ext_loop rest acc = String "." r.
Proof.
  revert acc. induction rest as [|c rest IH]; intros acc; simpl.
  - now left.
  - destruct (filepath.IsPathSeparator c); [now left|].
    destruct (Ascii.eqb_spec c "."%char) as [->|_].
    + right. now exists acc.
    + apply IH.
Qed.

(** An extension is empty or starts with a dot. *)
Lemma Ext_shape (path : string) :
  filepath.Ext path = EmptyString \/ exists r, filepath.Ext path = String "." r.
Proof. apply Ext_loop_shape. Qed.

Lemma Ext_no_digit_head (path : string) : no_digit_head (filepath.Ext path).
Proof.
  destruct (Ext_shape path) as [E|[r E]]; rewrite E; simpl; [exact I | reflexivity].
Qed.

Lemma Ext_loop_last_element (l : list ascii) (acc : string) :
  filepath.Ext_loop (filepath.last_element l) acc = filepath.Ext_loop l acc.
Proof.
  revert acc. induction l as [|c l IH]; intros acc; simpl; [reflexivity|].
  destruct (filepath.IsPathSeparator c) eqn:Hc; simpl; [reflexivity|].
  rewrite Hc. destruct (c =? ".")%char; [reflexivity | apply IH].
Qed.

(** A string that is not empty and does not end in a slash, read backwards. *)
Lemma no_trailing_slash (path : string) :
  path <> EmptyString -> strings.HasSuffix path "/" = false ->
  exists c r, List.rev (list_ascii_of_string path) = c :: r /\
              filepath.IsPathSeparator c = false.
Proof.
  intros Hne Hs.
  destruct (List.rev (list_ascii_of_string path)) as [|c r] eqn:E.
  - exfalso. apply Hne.
    apply (f_equal (@List.rev ascii)) in E. rewrite rev_involutive in E. simpl in E.
    rewrite <- (string_of_list_ascii_of_string path), E. reflexivity.
  - exists c, r. split; [reflexivity|].
    unfold filepath.IsPathSeparator.
    destruct (Ascii.eqb_spec c "/"%char) as [->|_]; [|reflexivity].
    exfalso.
    apply (f_equal (@List.rev ascii)) in E. rewrite rev_involutive in E. simpl in E.
    assert (Hp : path = string_of_list_ascii (List.rev r) ++ "/").
    { rewrite <- (string_of_list_ascii_of_string path), E.
      now rewrite string_of_list_ascii_app. }
    rewrite Hp, HasSuffix_app in Hs. discriminate.
Qed.

(** The base name of an entry that is no directory keeps the extension. *)
Lemma Ext_Base (path : string) :
  path <> EmptyString -> strings.HasSuffix path "/" = false ->
  filepath.Ext (filepath.Base path) = filepath.Ext path.
Proof.
  intros Hne Hs.
  destruct (no_trailing_slash path Hne Hs) as (c & r & E & Hc).
  unfold filepath.Base.
  destruct (String.eqb_spec path EmptyString) as [->|_]; [congruence|].
  rewrite E. simpl. rewrite Hc. simpl. rewrite Hc.
  set (le := filepath.last_element r).
  change (List.rev (c :: le)) with (List.rev le ++ [c])%list.
  assert (Hle : string_of_list_ascii (List.rev le ++ [c]) <> EmptyString).
  { rewrite string_of_list_ascii_app. simpl.
    destruct (string_of_list_ascii (List.rev le)); simpl; discriminate. }
  destruct (String.eqb_spec (string_of_list_ascii (List.rev le ++ [c])) EmptyString) as [E0|_];
    [congruence|].
  unfold filepath.Ext.
  rewrite list_ascii_of_string_of_list_ascii, rev_app_distr, rev_involutive, E.
  simpl. rewrite Hc.
  destruct (c =? ".")%char; [reflexivity|].
  apply Ext_loop_last_element.
Qed.

(** ** Running computations *)

Lemma bind_assoc {A B C : Type} (m : M A) (f : A -> M B) (g : B -> M C) (w : World) :
  bind (bind m f) g w = bind m (fun x => bind (f x) g) w.
Proof. unfold bind. destruct (m w) as [[a|e] w']; reflexivity. Qed.

Lemma bind_ext {A B : Type} (m : M A) (k1 k2 : A -> M B) (w : World) :
  (forall a w', k1 a w' = k2 a w') -> bind m k1 w = bind m k2 w.
Proof. intros H. unfold bind. destruct (m w) as [[a|e] w']; [apply H | reflexivity]. Qed.

Lemma frame_refl (out : string) (w : World) : frame out w w.
Proof. unfold frame. repeat split. Qed.

Lemma frame_trans (out : string) (w1 w2 w3 : World) :
  frame out w1 w2 -> frame out w2 w3 -> frame out w1 w3.
Proof.
  intros (a1 & a2 & a3 & a4 & a5 & a6) (b1 & b2 & b3 & b4 & b5 & b6).
  rewrite a1 in b6.
  split; [congruence|]. split; [congruence|]. split; [congruence|].
  split; [congruence|]. split; [congruence|].
  intros f Hf. destruct (a6 f Hf) as [c1 c2]. destruct (b6 f Hf) as [d1 d2].
  split; congruence.
Qed.

Lemma frame_consumed (out : string) (w : World) : frame out w (consumed w).
Proof. unfold frame. repeat split. Qed.

Lemma frame_holding (out : string) (seen : error + list ZipFile) (es : list Entry)
    (w : World) :
  frame out w (holding out seen es w).
Proof.
  unfold frame, holding. cbn.
  split; [reflexivity|]. split; [reflexivity|]. split; [reflexivity|].
  split; [reflexivity|]. split; [reflexivity|].
  intros f Hf. apply String.eqb_neq in Hf. now rewrite Hf.
Qed.

Lemma entries_at_holding (out : string) (seen : error + list ZipFile) (es : list Entry)
    (w : World) :
  entries_at (holding out seen es w) out = es.
Proof. unfold entries_at, w_written, holding. cbn. now rewrite String.eqb_refl. Qed.

Lemma holding_faults (out : string) (seen : error + list ZipFile) (es : list Entry)
    (w : World) :
  w_faults (holding out seen es w) = w_faults w.
Proof. reflexivity. Qed.

Lemma consumed_faults (w : World) : w_faults (consumed w) = tl (w_faults w).
Proof. reflexivity. Qed.

Lemma frame_off (out : string) (w w' : World) : frame out w w' -> off out w w'.
Proof. intros (a1 & a2 & _ & _ & _ & a6). exact (conj a1 (conj a2 a6)). Qed.

Lemma off_refl (out : string) (w : World) : off out w w.
Proof. unfold off. repeat split. Qed.

Lemma off_trans (out : string) (w1 w2 w3 : World) :
  off out w1 w2 -> off out w2 w3 -> off out w1 w3.
Proof.
  intros (a1 & a2 & a6) (b1 & b2 & b6). rewrite a1 in b6.
  split; [congruence|]. split; [congruence|].
  intros f Hf. destruct (a6 f Hf) as [c1 c2]. destruct (b6 f Hf) as [d1 d2].
  split; congruence.
Qed.

Lemma off_logged (out name : string) (w : World) : off out w (logged name w).
Proof. unfold off. repeat split. Qed.

Lemma off_zips (out p : string) (w w' : World) :
  off out w w' -> w_file w p <> w_file w out -> w_zips w' p = w_zips w p.
Proof. intros (Hf & _ & H) Hp. unfold w_zips. rewrite Hf. exact (proj1 (H _ Hp)). Qed.

Lemma off_written (out p : string) (w w' : World) :
  off out w w' -> w_file w p <> w_file w out -> w_written w' p = w_written w p.
Proof. intros (Hf & _ & H) Hp. unfold w_written. rewrite Hf. exact (proj2 (H _ Hp)). Qed.

Lemma off_apart (out : string) (w w' : World) (paths : list string) :
  off out w w' -> apart w out paths -> apart w' out paths.
Proof. intros (Hf & _) H. unfold apart in *. now rewrite Hf. Qed.

Lemma entries_at_consumed (w : World) (p : string) :
  entries_at (consumed w) p = entries_at w p.
Proof. reflexivity. Qed.

Lemma CreateHeader_run (msg out name : string) (method : Method) (w : World) :
  wrapf msg (zip.CreateHeader out name method) w =
  match w_faults w with
  | Some e :: _ => (Err (Errorf msg e), consumed w)
  | _ =>
      (Ok tt,
       holding out
         (w_unfinished w
            (entries_at w out ++ [{| e_Name := name; e_Method := method; e_Data := [] |}]))
         (entries_at w out ++ [{| e_Name := name; e_Method := method; e_Data := [] |}])
         (consumed w))
  end.
Proof.
  unfold wrapf, zip.CreateHeader, bind, next_outcome, set_written, set_file, holding, consumed.
  destruct (w_faults w) as [|[e|] fs]; reflexivity.
Qed.

Lemma Write_run (msg out : string) (data : list byte) (w : World) :
  wrapf msg (zip.Write out data) w =
  match w_faults w with
  | Some e :: _ => (Err (Errorf msg e), consumed w)
  | _ =>
      (Ok tt,
       holding out (w_unfinished w (zip.write_last data (entries_at w out)))
         (zip.write_last data (entries_at w out)) (consumed w))
  end.
Proof.
  unfold wrapf, zip.Write, bind, next_outcome, set_written, set_file, holding, consumed.
  destruct (w_faults w) as [|[e|] fs]; reflexivity.
Qed.

Lemma write_last_snoc (data : list byte) (es : list Entry) (e : Entry) :
  zip.write_last data (es ++ [e])%list = (es ++ [zip.add_data data e])%list.
Proof.
  induction es as [|x es IH]; simpl; [reflexivity|].
  rewrite IH. destruct es; reflexivity.
Qed.

(** What one [put] does, by the next two outcomes. *)
Lemma put_run (out : string) (p : Put) (w : World) :
  let r := fst (put out p w) in
  let w' := snd (put out p w) in
  frame out w w' /\
  match w_faults w with
  | Some e :: fs =>
      r = Err (Errorf (put_create_msg p) e) /\ w_faults w' = fs /\
      entries_at w' out = entries_at w out
  | _ =>
      match tl (w_faults w) with
      | Some e :: fs =>
          r = Err (Errorf (put_write_msg p) e) /\ w_faults w' = fs /\
          entries_at w' out = (entries_at w out ++ [blank (put_entry p)])%list
      | _ =>
          r = Ok tt /\ w_faults w' = tl (tl (w_faults w)) /\
          entries_at w' out = (entries_at w out ++ [put_entry p])%list
      end
  end.
Proof.
  destruct p as [cm wm [name method data]]. cbv zeta.
  unfold put, blank. cbn [put_create_msg put_write_msg put_entry e_Name e_Method e_Data].
  unfold bind. rewrite CreateHeader_run.
  destruct (w_faults w) as [|[e|] fs] eqn:Hf.
  - rewrite Write_run, holding_faults, consumed_faults, Hf. cbn [tl fst snd].
    rewrite holding_faults, consumed_faults, holding_faults, consumed_faults, Hf.
    split; [|split; [reflexivity|split; [reflexivity|]]].
    + eapply frame_trans; [apply frame_consumed|].
      eapply frame_trans; [apply (frame_holding out)|].
      eapply frame_trans; [apply frame_consumed|]. apply (frame_holding out).
    + rewrite entries_at_holding. change (entries_at (consumed ?x) out) with (entries_at x out).
      rewrite entries_at_holding. now rewrite write_last_snoc.
  - cbn [fst snd]. split; [apply frame_consumed|]. rewrite consumed_faults, Hf. repeat split.
  - rewrite Write_run, holding_faults, consumed_faults, Hf. cbn [tl].
    destruct fs as [|[e|] fs']; cbn [tl fst snd];
      rewrite ?holding_faults, ?consumed_faults, ?holding_faults, ?consumed_faults, ?Hf;
      cbn [tl].
    + split; [|split; [reflexivity|split; [reflexivity|]]].
      * eapply frame_trans; [apply frame_consumed|].
        eapply frame_trans; [apply (frame_holding out)|].
        eapply frame_trans; [apply frame_consumed|]. apply (frame_holding out).
      * rewrite entries_at_holding. change (entries_at (consumed ?x) out) with (entries_at x out).
        rewrite entries_at_holding. now rewrite write_last_snoc.
    + split; [|split; [reflexivity|split; [reflexivity|]]].
      * eapply frame_trans; [apply frame_consumed|].
        eapply frame_trans; [apply (frame_holding out)|]. apply frame_consumed.
      * change (entries_at (consumed ?x) out) with (entries_at x out).
        now rewrite entries_at_holding.
    + split; [|split; [reflexivity|split; [reflexivity|]]].
      * eapply frame_trans; [apply frame_consumed|].
        eapply frame_trans; [apply (frame_holding out)|].
        eapply frame_trans; [apply frame_consumed|]. apply (frame_holding out).
      * rewrite entries_at_holding. change (entries_at (consumed ?x) out) with (entries_at x out).
        rewrite entries_at_holding. now rewrite write_last_snoc.
Qed.

Lemma no_fault_tl (faults : list (option error)) : no_fault faults -> no_fault (tl faults).
Proof. intros H. destruct H; simpl; [constructor | assumption]. Qed.

Lemma put_ok (out : string) (p : Put) (w : World) :
  fst (put out p w) = Ok tt ->
  entries_at (snd (put out p w)) out = (entries_at w out ++ [put_entry p])%list /\
  w_faults (snd (put out p w)) = tl (tl (w_faults w)).
Proof.
  intros H. pose proof (put_run out p w) as [_ Hp]. simpl in Hp.
  destruct (w_faults w) as [|[e|] fs]; simpl in Hp.
  - tauto.
  - destruct Hp as (Hp & _). congruence.
  - destruct fs as [|[e|] fs']; simpl in Hp; try tauto.
    destruct Hp as (Hp & _). congruence.
Qed.

Lemma put_no_fault (out : string) (p : Put) (w : World) :
  no_fault (w_faults w) -> fst (put out p w) = Ok tt.
Proof.
  intros H. pose proof (put_run out p w) as [_ Hp]. simpl in Hp.
  destruct (w_faults w) as [|[e|] fs]; simpl in Hp.
  - tauto.
  - inversion H; discriminate.
  - destruct fs as [|[e|] fs']; simpl in Hp; try tauto.
    inversion H as [|? ? _ H']. inversion H'; discriminate.
Qed.

Lemma puts_frame (out : string) (ps : list Put) (w : World) :
  frame out w (snd (puts out ps w)).
Proof.
  revert w. induction ps as [|p ps IH]; intros w; simpl.
  - apply frame_refl.
  - unfold bind. pose proof (put_run out p w) as [Hfr _].
    destruct (put out p w) as [[[]|e] w1]; simpl in *; [|exact Hfr].
    eapply frame_trans; [exact Hfr | apply IH].
Qed.

Lemma skipn_two_more {A : Type} (n : nat) (l : list A) :
  skipn (2 * S n) l = skipn (2 * n) (tl (tl l)).
Proof.
  replace (2 * S n) with (S (S (2 * n))) by lia.
  destruct l as [|a [|b l]]; simpl; now rewrite ?skipn_nil.
Qed.

(** A successful run of [puts] appends exactly the entries, in order, and
    consumes two outcomes per entry. *)
Lemma puts_ok (out : string) (ps : list Put) (w : World) :
  fst (puts out ps w) = Ok tt ->
  entries_at (snd (puts out ps w)) out = (entries_at w out ++ map put_entry ps)%list /\
  w_faults (snd (puts out ps w)) = skipn (2 * List.length ps) (w_faults w).
Proof.
  revert w. induction ps as [|p ps IH]; intros w H.
  - simpl. now rewrite app_nil_r.
  - change (List.length (p :: ps)) with (S (List.length ps)).
    rewrite skipn_two_more.
    simpl in *. unfold bind in *. pose proof (put_ok out p w) as Hp.
    destruct (put out p w) as [[[]|e] w1]; simpl in *; [|discriminate].
    destruct (Hp eq_refl) as [He Hf]. destruct (IH w1 H) as [I1 I2].
    rewrite I1, I2, He, Hf, <- app_assoc. split; reflexivity.
Qed.

(** Without failures [puts] succeeds. *)
Lemma puts_no_fault (out : string) (ps : list Put) (w : World) :
  no_fault (w_faults w) ->
  fst (puts out ps w) = Ok tt /\ no_fault (w_faults (snd (puts out ps w))).
Proof.
  revert w. induction ps as [|p ps IH]; intros w H; simpl.
  - now split.
  - unfold bind. pose proof (put_no_fault out p w H) as Hr.
    pose proof (put_ok out p w Hr) as [_ Hf].
    destruct (put out p w) as [[[]|e] w1]; simpl in *; [|discriminate].
    apply IH. rewrite Hf. now apply no_fault_tl, no_fault_tl.
Qed.

Lemma puts_app (out : string) (a b : list Put) (w : World) :
  puts out (a ++ b)%list w = bind (puts out a) (fun _ => puts out b) w.
Proof.
  revert w. induction a as [|p a IH]; intros w; simpl.
  - reflexivity.
  - rewrite bind_assoc. apply bind_ext. intros _ w'. apply IH.
Qed.

(** ** Byte-wise order of strings *)

Lemma ascii_compare_refl (a : ascii) : (a ?= a)%char = Eq.
Proof. unfold Ascii.compare. apply BinNat.N.compare_refl. Qed.

Lemma ascii_compare_lt_trans (a b c : ascii) :
  (a ?= b)%char = Lt -> (b ?= c)%char = Lt -> (a ?= c)%char = Lt.
Proof.
  unfold Ascii.compare. rewrite !BinNat.N.compare_lt_iff. apply BinNat.N.lt_trans.
Qed.

Lemma string_compare_refl (s : string) : (s ?= s) = Eq.
Proof. induction s as [|a s IH]; simpl; [reflexivity|]. now rewrite ascii_compare_refl. Qed.

Lemma string_compare_lt_trans (a b c : string) :
  (a ?= b) = Lt -> (b ?= c) = Lt -> (a ?= c) = Lt.
Proof.
  revert b c. induction a as [|x a IH]; intros [|y b] [|z c]; simpl; try congruence.
  destruct (x ?= y)%char eqn:Exy; try discriminate;
    destruct (y ?= z)%char eqn:Eyz; try discriminate; intros H1 H2.
  - apply Ascii.compare_eq_iff in Exy. apply Ascii.compare_eq_iff in Eyz. subst.
    rewrite ascii_compare_refl. eapply IH; eassumption.
  - apply Ascii.compare_eq_iff in Exy. subst. now rewrite Eyz.
  - apply Ascii.compare_eq_iff in Eyz. subst. now rewrite Exy.
  - now rewrite (ascii_compare_lt_trans x y z Exy Eyz).
Qed.

Lemma string_ltb_irrefl (s : string) : String.ltb s s = false.
Proof. unfold String.ltb. now rewrite string_compare_refl. Qed.

Lemma string_ltb_trans (a b c : string) :
  String.ltb a b = true -> String.ltb b c = true -> String.ltb a c = true.
Proof.
  unfold String.ltb.
  destruct (a ?= b) eqn:E1; try discriminate.
  destruct (b ?= c) eqn:E2; try discriminate.
  now rewrite (string_compare_lt_trans a b c E1 E2).
Qed.

Lemma string_ltb_incomp (a b c : string) :
  String.ltb a b = false -> String.ltb b c = false -> String.ltb a c = false.
Proof.
  unfold String.ltb. intros H1 H2.
  destruct (a ?= c) eqn:E3; try reflexivity. exfalso.
  destruct (a ?= b) eqn:E1; try discriminate.
  - apply String.compare_eq_iff in E1. subst. now rewrite E3 in H2.
  - assert (E1' : (b ?= a) = Lt) by (rewrite String.compare_antisym, E1; reflexivity).
    now rewrite (string_compare_lt_trans b a c E1' E3) in H2.
Qed.

(** Neither below the other under the byte-wise order: the same string. *)
Lemma string_ltb_antisym (a b : string) :
  String.ltb a b = false -> String.ltb b a = false -> a = b.
Proof.
  unfold String.ltb. intros H1 H2.
  destruct (a ?= b) eqn:E1; try discriminate.
  - now apply String.compare_eq_iff.
  - rewrite String.compare_antisym, E1 in H2. discriminate.
Qed.

Lemma by_name_swo : StrictWeakOrder cbz.by_name.
Proof.
  unfold cbz.by_name. constructor.
  - intros a. apply string_ltb_irrefl.
  - intros a b c. apply string_ltb_trans.
  - intros a b c. apply string_ltb_incomp.
Qed.

(** ** Sorted lists *)

(** Two sorted arrangements of the same elements agree when no two distinct
    elements are tied. *)
Lemma sorted_unique {A : Type} (less : A -> A -> bool) (l1 l2 : list A) :
  sorted_by less l1 -> sorted_by less l2 -> Permutation l1 l2 ->
  (forall x y, In x l1 -> In y l1 -> less x y = false -> less y x = false -> x = y) ->
  l1 = l2.
Proof.
  revert l2. induction l1 as [|a l1 IH]; intros l2 S1 S2 P Hanti.
  - apply Permutation_nil in P. now subst.
  - destruct l2 as [|b l2].
    + symmetry in P. apply Permutation_nil in P. discriminate.
    + apply StronglySorted_inv in S1. destruct S1 as [S1 F1].
      apply StronglySorted_inv in S2. destruct S2 as [S2 F2].
      assert (Hab : a = b).
      { assert (Ia : In a (b :: l2)) by (eapply Permutation_in; [exact P | now left]).
        assert (Ib : In b (a :: l1)).
        { eapply Permutation_in; [symmetry; exact P | now left]. }
        destruct Ia as [->|Ia]; [reflexivity|].
        destruct Ib as [Ib|Ib]; [now symmetry|].
        rewrite Forall_forall in F1, F2.
        apply Hanti; [now left | now right | |].
        - apply (F2 a Ia).
        - apply (F1 b Ib). }
      subst b. f_equal. apply IH; auto.
      * eapply Permutation_cons_inv. exact P.
      * intros x y Hx Hy. apply Hanti; now right.
Qed.

(** ** Two sorters that meet the contract of sort.Slice *)

Lemma insert_by_perm {A : Type} (before : A -> A -> bool) (x : A) (l : list A) :
  Permutation (x :: l) (insert_by before x l).
Proof.
  induction l as [|y l IH]; simpl; [reflexivity|].
  destruct (before x y); [reflexivity|].
  rewrite perm_swap. now constructor.
Qed.

Lemma fold_insert_perm {A : Type} (before : A -> A -> bool) (l acc : list A) :
  Permutation (acc ++ l)%list (fold_left (fun acc x => insert_by before x acc) l acc).
Proof.
  revert acc. induction l as [|x l IH]; intros acc; simpl.
  - now rewrite app_nil_r.
  - rewrite <- IH. rewrite <- insert_by_perm.
    symmetry. apply Permutation_middle.
Qed.

Lemma insertion_sort_perm {A : Type} (before : A -> A -> bool) (l : list A) :
  Permutation l (insertion_sort before l).
Proof. apply (fold_insert_perm before l []). Qed.

Section InsertSorted.
Context {A : Type} (less before : A -> A -> bool).
Hypothesis less_swo : StrictWeakOrder less.
Hypothesis before_yes : forall x y, before x y = true -> less y x = false.
Hypothesis before_no : forall x y, before x y = false -> less x y = false.

Lemma insert_by_sorted (x : A) (l : list A) :
  sorted_by less l -> sorted_by less (insert_by before x l).
Proof.
  unfold sorted_by. induction l as [|y l IH]; intros S; simpl.
  - constructor; constructor.
  - apply StronglySorted_inv in S. destruct S as [S F].
    destruct (before x y) eqn:E.
    + constructor.
      * now constructor.
      * constructor; [now apply before_yes|].
        rewrite Forall_forall in *. intros z Hz.
        apply (swo_incomp less_swo z y x); [now apply F | now apply before_yes].
    + constructor; [now apply IH|].
      apply (Permutation_Forall (insert_by_perm before x l)).
      constructor; [now apply before_no | exact F].
Qed.

Lemma insertion_sort_sorted (l : list A) : sorted_by less (insertion_sort before l).
Proof.
  unfold insertion_sort.
  assert (H : forall acc, sorted_by less acc ->
              sorted_by less (fold_left (fun acc x => insert_by before x acc) l acc)).
  { induction l as [|x l IH]; intros acc S; simpl; [exact S|].
    apply IH. now apply insert_by_sorted. }
  apply H. constructor.
Qed.

End InsertSorted.

Lemma swo_asym {A : Type} (less : A -> A -> bool) :
  StrictWeakOrder less -> forall x y, less x y = true -> less y x = false.
Proof.
  intros H x y Hxy. destruct (less y x) eqn:E; [|reflexivity].
  pose proof (swo_trans H x y x Hxy E) as Hxx.
  now rewrite (swo_irrefl H x) in Hxx.
Qed.

Lemma stable_sort_sorted {A : Type} (less : A -> A -> bool) (l : list A) :
  StrictWeakOrder less -> sorted_by less (stable_sort less l).
Proof.
  intros H. apply insertion_sort_sorted; auto.
  apply swo_asym. exact H.
Qed.

(** A runtime whose sort.Slice keeps ties in their order. *)
Definition stable_runtime : GoRuntime :=
  {| unicode_ToLower := fun s => s;
     sort_Slice := @stable_sort;
     sort_Slice_perm := fun A less l => insertion_sort_perm less l;
     sort_Slice_sorted := @stable_sort_sorted |}.

(** ** The sort of the Go releases *)

Section GoSort.
Context {A : Type}.
Variable less : A -> A -> bool.

Lemma set_nth_perm (d : A) (data : list A) :
  forall (j : nat) (y : A),
    nth_error data j = Some y ->
    Permutation (d :: data) (y :: pdqsort.set_nth data j d).
Proof.
  induction data as [|e data IH]; intros [|j] y H; try discriminate H.
  - injection H as <-. apply perm_swap.
  - cbn [pdqsort.set_nth]. cbn [nth_error] in H.
    apply (perm_trans (perm_swap e d data)).
    apply (perm_trans (perm_skip e (IH j y H))). apply perm_swap.
Qed.

Lemma Swap_perm (data : list A) : forall i j, Permutation data (pdqsort.Swap data i j).
Proof.
  unfold pdqsort.Swap. induction data as [|d data IH]; intros i j.
  - now destruct i, j.
  - destruct (nth_error (d :: data) i) as [x|] eqn:Hx; [|reflexivity].
    destruct (nth_error (d :: data) j) as [y|] eqn:Hy; [|reflexivity].
    destruct i as [|i], j as [|j]; cbn [nth_error] in Hx, Hy; cbn [pdqsort.set_nth].
    + injection Hx as <-. injection Hy as <-. reflexivity.
    + injection Hx as <-. now apply set_nth_perm.
    + injection Hy as <-. now apply set_nth_perm.
    + apply perm_skip. specialize (IH i j). now rewrite Hx, Hy in IH.
Qed.

Lemma insertion_step_perm (a j : nat) :
  forall data, Permutation data (pdqsort.insertion_step less a data j).
Proof.
  induction j as [|j IH]; intros data; cbn [pdqsort.insertion_step]; [reflexivity|].
  destruct ((a <? S j)%nat && pdqsort.Less less data (S j) j); [|reflexivity].
  exact (perm_trans (Swap_perm data (S j) j) (IH _)).
Qed.

Lemma insertion_rounds_perm (a count : nat) :
  forall data i, Permutation data (pdqsort.insertion_rounds less a data i count).
Proof.
  induction count as [|count IH]; intros data i; cbn [pdqsort.insertion_rounds];
    [reflexivity|].
  exact (perm_trans (insertion_step_perm a i data) (IH _ _)).
Qed.

Lemma insertionSort_func_perm (data : list A) (a b : nat) :
  Permutation data (pdqsort.insertionSort_func less data a b).
Proof. apply insertion_rounds_perm. Qed.

Lemma partition_loop_perm (a fuel : nat) :
  forall data i j, Permutation data (fst (pdqsort.partition_loop less data a i j fuel)).
Proof.
  induction fuel as [|fuel IH]; intros data i j; cbn [pdqsort.partition_loop];
    [reflexivity|].
  match goal with |- context [if ?c then _ else _] => destruct c end; [reflexivity|].
  exact (perm_trans (Swap_perm data _ _) (IH _ _ _)).
Qed.

Lemma partition_func_perm (data : list A) (a b pivot : nat) :
  Permutation data (fst (fst (pdqsort.partition_func less data a b pivot))).
Proof.
  unfold pdqsort.partition_func. cbv zeta.
  match goal with |- context [if ?c then _ else _] => destruct c end; cbn [fst].
  - exact (perm_trans (Swap_perm data _ _) (Swap_perm _ _ _)).
  - match goal with
    | |- context [pdqsort.partition_loop less ?d ?x ?i ?j ?f] =>
        pose proof (partition_loop_perm x f d i j) as H;
        destruct (pdqsort.partition_loop less d x i j f) as [d' j']
    end.
    cbn [fst] in H |- *.
    eapply perm_trans; [apply (Swap_perm data a pivot)|].
    eapply perm_trans; [|apply Swap_perm].
    eapply perm_trans; [|exact H]. apply Swap_perm.
Qed.

Lemma pdqsort_func_perm (data : list A) :
  Permutation data (pdqsort.pdqsort_func less data).
Proof.
  unfold pdqsort.pdqsort_func. cbv zeta.
  destruct (List.length data <=? 12)%nat; [apply insertionSort_func_perm|].
  destruct (pdqsort.choosePivot_func less data 0 (List.length data)) as [pivot hint].
  match goal with |- context [if ?c then _ else _] => destruct c end; [reflexivity|].
  pose proof (partition_func_perm data 0 (List.length data) pivot) as H.
  destruct (pdqsort.partition_func less data 0 (List.length data) pivot) as [[d mid] already].
  cbn [fst] in H.
  destruct (mid - 0 <? List.length data - mid)%nat;
    exact (perm_trans H (perm_trans (insertionSort_func_perm _ _ _)
                                    (insertionSort_func_perm _ _ _))).
Qed.

Lemma in_order_sorted (l : list A) : in_order less l = true -> sorted_by less l.
Proof.
  induction l as [|x l IH]; intros H; [constructor|].
  cbn [in_order] in H. apply andb_true_iff in H. destruct H as [H1 H2].
  constructor; [now apply IH|].
  apply Forall_forall. intros y Hy.
  rewrite forallb_forall in H1. now apply negb_true_iff, H1.
Qed.

Lemma go_sort_perm (l : list A) : Permutation l (go_sort less l).
Proof.
  unfold go_sort. cbv zeta.
  assert (H : Permutation l (if (List.length l <=? 13)%nat
                             then pdqsort.pdqsort_func less l else l)).
  { destruct (List.length l <=? 13)%nat; [apply pdqsort_func_perm | reflexivity]. }
  destruct (in_order less _); [exact H|].
  exact (perm_trans H (insertion_sort_perm less _)).
Qed.

Lemma go_sort_sorted (l : list A) : StrictWeakOrder less -> sorted_by less (go_sort less l).
Proof.
  intros Hs. unfold go_sort. cbv zeta.
  destruct (in_order less _) eqn:E; [now apply in_order_sorted|].
  now apply stable_sort_sorted.
Qed.

End GoSort.

(** The runtime of the Go releases since 1.19, as far as [go_sort] follows
    their sort.Slice; the names of the examples are ASCII, so that
    [unicode.ToLower] is not reached. *)
Definition go_runtime : GoRuntime :=
  {| unicode_ToLower := fun s => s;
     sort_Slice := @go_sort;
     sort_Slice_perm := @go_sort_perm;
     sort_Slice_sorted := @go_sort_sorted |}.

(** * Facts about package cbz *)

Section ReadFacts.
Context {rt : GoRuntime}.

Lemma range_File_collect (files : list ZipFile) (images : slice cbz.Image) (w : World) :
  cbz.range_File files images w = (collect files images, w).
Proof.
  revert images. induction files as [|file rest IH]; intros images; simpl.
  - reflexivity.
  - unfold kept.
    destruct (zip.IsDir file || negb (cbz.isImageFile (zf_Name file))); simpl.
    + apply IH.
    + unfold bind, wrapf, zip.Open, io.ReadAll, image_of, body_data.
      destruct (zf_body file); simpl; try reflexivity. apply IH.
Qed.

Lemma collect_ok (files : list ZipFile) (l : list cbz.Image) (s : slice cbz.Image) :
  collect files (mk_slice l) = Ok s ->
  s = mk_slice (l ++ map image_of (retained files))%list /\
  Forall readable (retained files).
Proof.
  revert l. induction files as [|file rest IH]; intros l H; simpl in *.
  - injection H as <-. rewrite app_nil_r. split; [reflexivity | constructor].
  - unfold retained in *. simpl. destruct (kept file) eqn:Hk.
    + destruct (zf_body file) as [e|e|data] eqn:Hb; try discriminate.
      destruct (IH _ H) as [-> F]. simpl. rewrite <- app_assoc. split; [reflexivity|].
      constructor; [now exists data | exact F].
    + now apply IH.
Qed.

Lemma collect_readable (files : list ZipFile) (l : list cbz.Image) :
  Forall readable (retained files) ->
  collect files (mk_slice l) = Ok (mk_slice (l ++ map image_of (retained files))%list).
Proof.
  revert l. induction files as [|file rest IH]; intros l F; simpl in *.
  - now rewrite app_nil_r.
  - unfold retained in *. simpl in *. destruct (kept file) eqn:Hk.
    + inversion F as [|? ? [data Hd] F']; subst. rewrite Hd.
      unfold append. simpl. rewrite IH by assumption.
      simpl. now rewrite <- app_assoc.
    + now apply IH.
Qed.

Lemma ReadFile_run (filename : string) (w : World) :
  cbz.ReadFile filename w = (read_result (w_zips w) filename, logged filename w).
Proof.
  unfold cbz.ReadFile, read_result, bind, wrapf, zip.OpenReader, logged.
  destruct (w_zips w filename) as [e|files]; [reflexivity|].
  rewrite range_File_collect. destruct (collect files (mk_slice [])); reflexivity.
Qed.

(** A retained entry is no directory and passes isImageFile; its Image keeps
    the extension of the entry. *)
Lemma kept_image (file : ZipFile) :
  kept file = true ->
  cbz.isImageFile (zf_Name file) = true /\
  filepath.Ext (cbz.Name (image_of file)) = filepath.Ext (zf_Name file).
Proof.
  unfold kept. intros H. apply negb_true_iff, orb_false_iff in H.
  destruct H as [Hd Hi]. apply negb_false_iff in Hi. split; [exact Hi|].
  unfold zip.IsDir in Hd. apply orb_false_iff in Hd. destruct Hd as [_ Hs].
  simpl. apply Ext_Base; [|exact Hs].
  intros E. rewrite E in Hi. unfold cbz.isImageFile in Hi.
  change (filepath.Ext EmptyString) with EmptyString in Hi.
  unfold strings.ToLower in Hi. simpl in Hi. discriminate.
Qed.

End ReadFacts.

(** ** MergeFiles *)


Lemma range_Images_puts (out : string) (c : nat) (images : list cbz.Image) :
  forall (n : nat) (B : Type) (k : nat -> M B) (w : World),
    bind (cbz.range_Images out c images n) k w =
    bind (puts out (chapter_puts c n images)) (fun _ => k (n + List.length images)) w.
Proof.
  induction images as [|image rest IH]; intros n B k w; simpl.
  - unfold bind, ret. now rewrite Nat.add_0_r.
  - unfold put, zip.Create. rewrite !bind_assoc.
    apply bind_ext. intros _ w1. rewrite !bind_assoc.
    apply bind_ext. intros _ w2. rewrite IH.
    apply bind_ext. intros _ w3.
    replace (n + 1 + List.length rest) with (n + S (List.length rest)) by lia.
    reflexivity.
Qed.

Section MergeFacts.
Context {rt : GoRuntime}.

Lemma wrapf_ReadFile (msg filename : string) (w : World) :
  wrapf msg (cbz.ReadFile filename) w =
  (match read_result (w_zips w) filename with
   | Ok a => Ok a
   | Err e => Err (Errorf msg e)
   end, logged filename w).
Proof.
  unfold wrapf. rewrite ReadFile_run.
  destruct (read_result (w_zips w) filename); reflexivity.
Qed.

(** One step of the loop over the inputs, on an input that reads well. *)
Lemma range_inputFiles_step (out : string) (c n : nat) (p : string) (rest : list string)
    (a : cbz.File) (w : World) :
  read_result (w_zips w) p = Ok a ->
  cbz.range_inputFiles out c (p :: rest) n w =
  bind (puts out (chapter_puts c n (elems (cbz.Images a))))
       (fun _ => cbz.range_inputFiles out (c + 1) rest (n + len (cbz.Images a)))
       (logged p w).
Proof.
  intros Hr. simpl. unfold bind at 1. rewrite wrapf_ReadFile, Hr.
  apply range_Images_puts.
Qed.

Lemma off_read_all (out : string) (w w' : World) (inputFiles : list string)
    (archives : list cbz.File) :
  off out w w' -> apart w out inputFiles ->
  (read_all (w_zips w') inputFiles archives <-> read_all (w_zips w) inputFiles archives).
Proof.
  intros Hoff Hap. unfold read_all. revert archives.
  induction Hap as [|p ps Hp _ IH]; intros archives.
  - split; intros H; inversion H; constructor.
  - assert (E : read_result (w_zips w') p = read_result (w_zips w) p).
    { unfold read_result. now rewrite (off_zips out p w w' Hoff Hp). }
    split; intros H; inversion H as [|? a ? rest Hr Hrest]; subst;
      (constructor; [congruence | now apply IH]).
Qed.

(** The inputs are opened in order, whatever they hold. *)
Lemma range_inputFiles_opened (out : string) (inputFiles : list string) :
  forall (c n : nat) (w : World),
    fst (cbz.range_inputFiles out c inputFiles n w) = Ok tt ->
    w_opened (snd (cbz.range_inputFiles out c inputFiles n w)) =
    (w_opened w ++ inputFiles)%list.
Proof.
  induction inputFiles as [|p rest IH]; intros c n w H.
  - simpl. now rewrite app_nil_r.
  - destruct (read_result (w_zips w) p) as [a|e] eqn:Hr.
    + rewrite (range_inputFiles_step out c n p rest a w Hr) in H |- *.
      unfold bind in H |- *.
      pose proof (puts_frame out (chapter_puts c n (elems (cbz.Images a))) (logged p w)) as Hfr.
      destruct (puts out (chapter_puts c n (elems (cbz.Images a))) (logged p w))
        as [[[]|e] w2]; cbn [fst snd] in *; [|discriminate].
      destruct Hfr as (_ & _ & Ho & _).
      rewrite (IH _ _ _ H), Ho. cbn [logged w_opened]. now rewrite <- app_assoc.
    + exfalso. simpl in H. unfold bind in H. rewrite wrapf_ReadFile, Hr in H.
      discriminate.
Qed.

Lemma range_inputFiles_ok (out : string) (inputFiles : list string) :
  forall (c n : nat) (w : World),
    apart w out inputFiles ->
    fst (cbz.range_inputFiles out c inputFiles n w) = Ok tt ->
    let w' := snd (cbz.range_inputFiles out c inputFiles n w) in
    exists archives,
      read_all (w_zips w) inputFiles archives /\
      entries_at w' out = (entries_at w out ++ map put_entry (merge_puts c n archives))%list /\
      off out w w'.
Proof.
  induction inputFiles as [|p rest IH]; intros c n w Hap H; cbv zeta.
  - exists []. simpl. rewrite !app_nil_r. repeat split. constructor.
  - inversion Hap as [|? ? Hp Hap']; subst.
    destruct (read_result (w_zips w) p) as [a|e] eqn:Hr.
    + rewrite (range_inputFiles_step out c n p rest a w Hr) in H |- *.
      unfold bind in H |- *.
      pose proof (puts_ok out (chapter_puts c n (elems (cbz.Images a))) (logged p w)) as Hok.
      pose proof (puts_frame out (chapter_puts c n (elems (cbz.Images a))) (logged p w)) as Hfr.
      destruct (puts out (chapter_puts c n (elems (cbz.Images a))) (logged p w))
        as [[[]|e] w2]; cbn [fst snd] in *; [|discriminate].
      destruct (Hok eq_refl) as [He _]. apply frame_off in Hfr.
      assert (Hoff : off out w w2).
      { apply (off_trans out w (logged p w)); [apply off_logged | exact Hfr]. }
      destruct (IH (c + 1) (n + len (cbz.Images a)) w2 (off_apart out w w2 rest Hoff Hap') H)
        as (archives & Hall & He2 & Hoff2).
      exists (a :: archives). split; [|split].
      * constructor; [exact Hr|]. now apply (off_read_all out w w2 rest archives Hoff Hap').
      * rewrite He2, He. change (entries_at (logged p w) out) with (entries_at w out).
        cbn [merge_puts]. now rewrite map_app, app_assoc.
      * exact (off_trans out w w2 _ Hoff Hoff2).
    + exfalso. simpl in H. unfold bind in H. rewrite wrapf_ReadFile, Hr in H.
      discriminate.
Qed.

Lemma range_inputFiles_no_fault (out : string) (inputFiles : list string) :
  forall (c n : nat) (w : World) (archives : list cbz.File),
    no_fault (w_faults w) ->
    apart w out inputFiles ->
    read_all (w_zips w) inputFiles archives ->
    fst (cbz.range_inputFiles out c inputFiles n w) = Ok tt /\
    no_fault (w_faults (snd (cbz.range_inputFiles out c inputFiles n w))).
Proof.
  induction inputFiles as [|p rest IH]; intros c n w archives Hnf Hap Hall.
  - now split.
  - inversion Hall as [|? a ? archives' Hr Hall']; subst.
    inversion Hap as [|? ? Hp Hap']; subst.
    rewrite (range_inputFiles_step out c n p rest a w Hr).
    unfold bind.
    pose proof (puts_no_fault out (chapter_puts c n (elems (cbz.Images a))) (logged p w) Hnf)
      as [Hok Hnf2].
    pose proof (puts_frame out (chapter_puts c n (elems (cbz.Images a))) (logged p w)) as Hfr.
    destruct (puts out (chapter_puts c n (elems (cbz.Images a))) (logged p w))
      as [[[]|e] w2]; cbn [fst snd] in *; [|discriminate].
    apply frame_off in Hfr.
    assert (Hoff : off out w w2).
    { apply (off_trans out w (logged p w)); [apply off_logged | exact Hfr]. }
    apply (IH _ _ _ archives'); [exact Hnf2 | exact (off_apart out w w2 rest Hoff Hap') |].
    now apply (off_read_all out w w2 rest archives' Hoff Hap').
Qed.

(** The loop over a list of inputs that starts with a successful run. *)
Lemma range_inputFiles_app (out : string) (pre rest : list string) :
  forall (c n : nat) (w : World),
    fst (cbz.range_inputFiles out c pre n w) = Ok tt ->
    exists n',
      cbz.range_inputFiles out c (pre ++ rest)%list n w =
      cbz.range_inputFiles out (c + List.length pre) rest n'
        (snd (cbz.range_inputFiles out c pre n w)).
Proof.
  induction pre as [|p pre IH]; intros c n w H; simpl in *.
  - exists n. now rewrite Nat.add_0_r.
  - unfold bind in *.
    destruct (wrapf _ (cbz.ReadFile p) w) as [[a|e] w1]; [|discriminate].
    destruct (cbz.range_Images out c (elems (cbz.Images a)) n w1) as [[n1|e] w2];
      [|discriminate].
    destruct (IH (c + 1) n1 w2 H) as [n' Hn'].
    exists n'. rewrite Hn'. f_equal. lia.
Qed.

(** The loop stops at an input that cannot be read. *)
Lemma range_inputFiles_read_error (out : string) (c n : nat) (p : string)
    (rest : list string) (e : error) (w : World) :
  read_result (w_zips w) p = Err e ->
  cbz.range_inputFiles out c (p :: rest) n w =
  (Err (Errorf ("failed to read input file " ++ p) e), logged p w).
Proof.
  intros Hr. simpl. unfold bind. now rewrite wrapf_ReadFile, Hr.
Qed.

End MergeFacts.

(** ** os.Create *)

Lemma os_Create_run (msg name : string) (w : World) :
  wrapf msg (os.Create name) w =
  match w_faults w with
  | Some e :: _ => (Err (Errorf msg e), consumed w)
  | _ => (Ok tt, created name w)
  end.
Proof.
  unfold wrapf, os.Create, bind, next_outcome, created, set_file, holding, consumed.
  destruct (w_faults w) as [|[e|] fs]; reflexivity.
Qed.

Lemma entries_at_created (name : string) (w : World) : entries_at (created name w) name = [].
Proof. apply entries_at_holding. Qed.

Lemma off_created (name : string) (w : World) : off name w (created name w).
Proof.
  apply (off_trans name w (consumed w)); [unfold off; repeat split|].
  apply frame_off, (frame_holding name).
Qed.

(** The deferred calls: the writer is closed, then the file. *)
Lemma deferred_Close {A : Type} (out : string) (body : M A) (w : World) :
  defer (os.Close out) (defer (zip.Close out) body) w = closing out (body w).
Proof.
  unfold defer, closing, closed, os.Close, ret, zip.Close, bind, next_outcome, set_file,
    holding, consumed.
  destruct (body w) as [r w1]. cbn [fst snd].
  destruct (w_faults w1) as [|[e|] fs]; reflexivity.
Qed.

Lemma entries_at_closed (out p : string) (w : World) :
  entries_at (closed out w) p = entries_at w p.
Proof.
  unfold closed. destruct (w_faults w) as [|[e|] fs]; try reflexivity;
    unfold entries_at, w_written, holding; cbn;
    (destruct (String.eqb_spec (w_file w p) (w_file w out)) as [E|E]; [|reflexivity]);
    rewrite E; now destruct (w_containers w (w_file w out)).
Qed.

Lemma opened_closed (out : string) (w : World) : w_opened (closed out w) = w_opened w.
Proof. unfold closed. now destruct (w_faults w) as [|[e|] fs]. Qed.

Lemma off_closed (out : string) (w : World) : off out w (closed out w).
Proof.
  unfold closed. destruct (w_faults w) as [|[e|] fs];
    try (apply (off_trans out w (consumed w)); [unfold off; repeat split|];
         apply frame_off, (frame_holding out)).
  unfold off. repeat split.
Qed.

Lemma no_fault_closed (out : string) (w : World) :
  no_fault (w_faults w) -> no_fault (w_faults (closed out w)).
Proof.
  intros H. unfold closed. destruct (w_faults w) as [|[e|] fs] eqn:E.
  - cbn. rewrite E. constructor.
  - inversion H; discriminate.
  - cbn. rewrite E. now inversion H.
Qed.

Lemma no_fault_created (name : string) (w : World) :
  no_fault (w_faults w) -> no_fault (w_faults (created name w)).
Proof. apply no_fault_tl. Qed.

(** ** Numbering *)

Lemma numbered_from_cons {A : Type} (n : nat) (x : A) (l : list A) :
  numbered_from n (x :: l) = (n, x) :: numbered_from (S n) l.
Proof. reflexivity. Qed.

Lemma numbered_from_app {A : Type} (n : nat) (a b : list A) :
  numbered_from n (a ++ b)%list =
  (numbered_from n a ++ numbered_from (n + List.length a) b)%list.
Proof.
  revert n. induction a as [|x a IH]; intros n.
  - simpl. now rewrite Nat.add_0_r.
  - change ((x :: a) ++ b)%list with (x :: (a ++ b))%list.
    rewrite !numbered_from_cons, IH. simpl.
    now rewrite Nat.add_succ_r.
Qed.

Lemma numbered_from_fst {A : Type} (n : nat) (l : list A) :
  map fst (numbered_from n l) = seq n (List.length l).
Proof.
  revert n. induction l as [|x l IH]; intros n; [reflexivity|].
  rewrite numbered_from_cons. simpl. now rewrite IH.
Qed.

Lemma numbered_from_length {A : Type} (n : nat) (l : list A) :
  List.length (numbered_from n l) = List.length l.
Proof. rewrite <- (length_map fst), numbered_from_fst. apply length_seq. Qed.

(** A function that determines the first component is injective on a list
    whose first components are distinct. *)
Lemma NoDup_map_by_fst {A B C : Type} (f : A * B -> C) (l : list (A * B)) :
  NoDup (map fst l) ->
  (forall x y, In x l -> In y l -> f x = f y -> fst x = fst y) ->
  NoDup (map f l).
Proof.
  induction l as [|a l IH]; intros Hnd Hf; simpl; [constructor|].
  inversion Hnd as [|? ? Hnotin Hnd']; subst.
  constructor.
  - intros Hin. apply in_map_iff in Hin. destruct Hin as (b & Hfb & Hb).
    apply Hnotin. apply in_map_iff. exists b. split; [|exact Hb].
    apply Hf; [now right | now left | exact Hfb].
  - apply IH; [exact Hnd'|]. intros x y Hx Hy. apply Hf; now right.
Qed.

(** ** The output of a merge in closed form *)

Lemma chapters_from_cons (c : nat) (a : cbz.File) (rest : list cbz.File) :
  chapters_from c (a :: rest) =
  (map (pair c) (elems (cbz.Images a)) ++ chapters_from (S c) rest)%list.
Proof. reflexivity. Qed.

Lemma chapters_from_length (c : nat) (archives : list cbz.File) :
  List.length (chapters_from c archives) = total_images archives.
Proof.
  revert c. induction archives as [|a rest IH]; intros c; [reflexivity|].
  rewrite chapters_from_cons, length_app, length_map, IH. reflexivity.
Qed.

Lemma chapter_puts_closed (c n : nat) (images : list cbz.Image) :
  map put_entry (chapter_puts c n images) =
  map merged_entry (numbered_from n (map (pair (c + 1)) images)).
Proof.
  revert n. induction images as [|image rest IH]; intros n; [reflexivity|].
  simpl map at 3. rewrite numbered_from_cons. simpl.
  rewrite IH, !Nat.add_1_r. reflexivity.
Qed.

Lemma merge_puts_closed (c n : nat) (archives : list cbz.File) :
  map put_entry (merge_puts c n archives) =
  map merged_entry (numbered_from n (chapters_from (c + 1) archives)).
Proof.
  revert c n. induction archives as [|a rest IH]; intros c n; [reflexivity|].
  simpl merge_puts.
  rewrite chapters_from_cons, numbered_from_app, !map_app, length_map.
  rewrite chapter_puts_closed, IH. unfold len.
  now rewrite (Nat.add_1_r (c + 1)).
Qed.


Section MergeOutput.
Context {rt : GoRuntime}.

Lemma read_result_local (zips zips' : string -> error + list ZipFile) (p : string) :
  zips p = zips' p -> read_result zips p = read_result zips' p.
Proof. intros H. unfold read_result. now rewrite H. Qed.

Lemma MergeFiles_run (inputFiles : list string) (out : string) (w : World) :
  cbz.MergeFiles inputFiles out w =
  match w_faults w with
  | Some e :: _ => (Err (Errorf "failed to create output file" e), consumed w)
  | _ => closing out (cbz.range_inputFiles out 0 inputFiles 1 (created out w))
  end.
Proof.
  unfold cbz.MergeFiles, bind. rewrite os_Create_run.
  destruct (w_faults w) as [|[e|] fs]; try reflexivity; apply deferred_Close.
Qed.

(** A merge that returned nil got past os.Create and through its loop. *)
Lemma MergeFiles_Ok_inv (inputFiles : list string) (out : string) (w : World) :
  fst (cbz.MergeFiles inputFiles out w) = Ok tt ->
  fst (cbz.range_inputFiles out 0 inputFiles 1 (created out w)) = Ok tt /\
  cbz.MergeFiles inputFiles out w =
  closing out (cbz.range_inputFiles out 0 inputFiles 1 (created out w)).
Proof.
  rewrite MergeFiles_run. destruct (w_faults w) as [|[e|] fs]; cbn [fst closing];
    intros H; try discriminate; now split.
Qed.

(** A successful merge into a file that is none of its inputs: every input
    was read as it was, and the container holds the merged entries. *)
Lemma MergeFiles_ok (inputFiles : list string) (out : string) (w : World) :
  apart w out inputFiles ->
  fst (cbz.MergeFiles inputFiles out w) = Ok tt ->
  let w' := snd (cbz.MergeFiles inputFiles out w) in
  exists archives,
    read_all (w_zips w) inputFiles archives /\
    entries_at w' out = map merged_entry (merged archives).
Proof.
  intros Hap H. cbv zeta. destruct (MergeFiles_Ok_inv inputFiles out w H) as [H1 ->].
  destruct (range_inputFiles_ok out inputFiles 0 1 (created out w)
              (off_apart out w _ inputFiles (off_created out w) Hap) H1)
    as (archives & Hall & He & _).
  apply (off_read_all out w _ inputFiles archives (off_created out w) Hap) in Hall.
  exists archives. split; [exact Hall|].
  cbn [closing snd]. now rewrite entries_at_closed, He, entries_at_created, merge_puts_closed.
Qed.

(** The inputs of a successful merge were opened once each, in order. *)
Lemma MergeFiles_opened (inputFiles : list string) (out : string) (w : World) :
  fst (cbz.MergeFiles inputFiles out w) = Ok tt ->
  w_opened (snd (cbz.MergeFiles inputFiles out w)) = (w_opened w ++ inputFiles)%list.
Proof.
  intros H. destruct (MergeFiles_Ok_inv inputFiles out w H) as [H1 ->].
  cbn [closing snd]. rewrite opened_closed.
  exact (range_inputFiles_opened out inputFiles 0 1 (created out w) H1).
Qed.

(** Without failures a merge of readable inputs into a file that is none of
    them succeeds. *)
Lemma MergeFiles_no_fault (inputFiles : list string) (out : string) (w : World)
    (archives : list cbz.File) :
  no_fault (w_faults w) -> apart w out inputFiles ->
  read_all (w_zips w) inputFiles archives ->
  fst (cbz.MergeFiles inputFiles out w) = Ok tt.
Proof.
  intros Hnf Hap Hall. rewrite MergeFiles_run.
  assert (H : fst (cbz.range_inputFiles out 0 inputFiles 1 (created out w)) = Ok tt).
  { apply (range_inputFiles_no_fault out inputFiles 0 1 (created out w) archives).
    - now apply no_fault_created.
    - exact (off_apart out w _ inputFiles (off_created out w) Hap).
    - now apply (off_read_all out w _ inputFiles archives (off_created out w) Hap). }
  destruct (w_faults w) as [|[e|] fs] eqn:Hf; try exact H.
  inversion Hnf; discriminate.
Qed.

End MergeOutput.

(** * Facts about package epub *)

Lemma range_images_puts (out : string) (images : list cbz.Image) :
  forall (i : nat) (buf : string) (B : Type) (k : string -> M B) (w : World),
    bind (epub.range_images out i images buf) k w =
    bind (puts out (image_puts i images)) (fun _ => k (buf ++ image_lines i images)) w.
Proof.
  induction images as [|image rest IH]; intros i buf B k w.
  - simpl. unfold bind, ret. now rewrite string_app_nil_r.
  - cbn [epub.range_images image_puts image_lines puts].
    unfold put, zip.Create. rewrite !bind_assoc.
    apply bind_ext. intros _ w1. rewrite !bind_assoc.
    apply bind_ext. intros _ w2. rewrite IH.
    apply bind_ext. intros _ w3.
    now rewrite string_app_assoc.
Qed.

Lemma range_pages_puts (out : string) (images : list cbz.Image) :
  forall (i : nat) (buf : string) (B : Type) (k : string -> M B) (w : World),
    bind (epub.range_pages out i images buf) k w =
    bind (puts out (page_puts i images)) (fun _ => k (buf ++ page_lines i images)) w.
Proof.
  induction images as [|image rest IH]; intros i buf B k w.
  - simpl. unfold bind, ret. now rewrite string_app_nil_r.
  - cbn [epub.range_pages page_puts page_lines puts].
    unfold put, zip.Create. rewrite !bind_assoc.
    apply bind_ext. intros _ w1. rewrite !bind_assoc.
    apply bind_ext. intros _ w2. rewrite IH.
    apply bind_ext. intros _ w3.
    now rewrite string_app_assoc.
Qed.

Lemma range_spine_lines (images : list cbz.Image) (i : nat) (buf : string) :
  epub.range_spine i images buf = buf ++ spine_lines i images.
Proof.
  revert i buf. induction images as [|image rest IH]; intros i buf; simpl.
  - now rewrite string_app_nil_r.
  - now rewrite IH, string_app_assoc.
Qed.

Lemma range_navMap_lines (images : list cbz.Image) (i : nat) (buf : string) :
  epub.range_navMap i images buf = buf ++ nav_lines i images.
Proof.
  revert i buf. induction images as [|image rest IH]; intros i buf; simpl.
  - now rewrite string_app_nil_r.
  - now rewrite IH, string_app_assoc.
Qed.

Lemma bind_puts_ext {B : Type} (out : string) (ps : list Put) (k1 k2 : unit -> M B)
    (w : World) :
  (forall w', frame out w w' -> k1 tt w' = k2 tt w') ->
  bind (puts out ps) k1 w = bind (puts out ps) k2 w.
Proof.
  intros H. unfold bind. pose proof (puts_frame out ps w) as Hfr.
  destruct (puts out ps w) as [[[]|e] w']; [now apply H | reflexivity].
Qed.

Lemma bind_Now_Format {B : Type} (k : string -> M B) (w : World) :
  bind time.Now_Format k w = k (w_today w) w.
Proof. reflexivity. Qed.

Lemma bind_GenerateUUID {B : Type} (k : string -> M B) (w : World) :
  bind util.GenerateUUID k w = k (w_uuid w) w.
Proof. reflexivity. Qed.

Lemma puts_head_unfold {B : Type} (out : string) (k : unit -> M B) (w : World) :
  bind (puts out head_puts) k w =
  bind (wrapf "failed to create mimetype file" (zip.CreateHeader out "mimetype" Store))
    (fun _ =>
       bind (wrapf "failed to write mimetype file"
               (zip.Write out (bytes_of "application/epub+zip")))
         (fun _ =>
            bind (wrapf "failed to create container.xml"
                    (zip.Create out "META-INF/container.xml"))
              (fun _ =>
                 bind (wrapf "failed to write container.xml"
                         (zip.Write out (bytes_of epub.container_xml)))
                   k))) w.
Proof.
  unfold head_puts. cbn [puts]. unfold put, zip.Create.
  cbn [put_create_msg put_write_msg put_entry mimetype_entry container_entry
       e_Name e_Method e_Data].
  rewrite ?bind_assoc. apply bind_ext. intros _ w1.
  rewrite ?bind_assoc. apply bind_ext. intros _ w2.
  rewrite ?bind_assoc. apply bind_ext. intros _ w3.
  rewrite ?bind_assoc. apply bind_ext. intros [] w4.
  reflexivity.
Qed.

Lemma puts_tail_unfold (out : string) (cbzFile : cbz.File) (uuid date : string) (w : World) :
  puts out (tail_puts cbzFile uuid date) w =
  bind (wrapf "failed to create content.opf" (zip.Create out "OEBPS/content.opf"))
    (fun _ =>
       bind (wrapf "failed to write content.opf"
               (zip.Write out (bytes_of (opf_text cbzFile uuid date))))
         (fun _ =>
            bind (wrapf "failed to create toc.ncx" (zip.Create out "OEBPS/toc.ncx"))
              (fun _ =>
                 bind (wrapf "failed to write toc.ncx"
                         (zip.Write out (bytes_of (ncx_text cbzFile uuid))))
                   (fun _ => ret tt)))) w.
Proof.
  unfold tail_puts. cbn [puts]. unfold put, zip.Create.
  cbn [put_create_msg put_write_msg put_entry opf_entry ncx_entry
       e_Name e_Method e_Data].
  rewrite ?bind_assoc. apply bind_ext. intros _ w1.
  rewrite ?bind_assoc. apply bind_ext. intros _ w2.
  rewrite ?bind_assoc. apply bind_ext. intros _ w3.
  rewrite ?bind_assoc. apply bind_ext. intros [] w4.
  reflexivity.
Qed.

(** ConvertFromCBZ after [os.Create]: a sequence of puts. *)
Lemma ConvertFromCBZ_body (cbzFile : cbz.File) (out : string) (w : World) :
  epub.ConvertFromCBZ cbzFile out w =
  bind (wrapf "failed to create output file" (os.Create out))
       (fun _ w1 => closing out (puts out (epub_puts cbzFile (w_uuid w1) (w_today w1)) w1)) w.
Proof.
  unfold epub.ConvertFromCBZ.
  apply bind_ext. intros _ w1. rewrite deferred_Close. f_equal. cbv zeta.
  unfold epub_puts. rewrite puts_app.
  match goal with
  | |- bind _ (fun _ => bind _ (fun _ => bind _ (fun _ => bind _ ?k))) _ = _ =>
      transitivity (bind (puts out head_puts) k w1);
        [symmetry; apply puts_head_unfold|]
  end.
  apply bind_puts_ext. intros w2 (_ & _ & _ & Hd & Hu & _).
  rewrite bind_Now_Format, bind_GenerateUUID, Hd, Hu.
  rewrite range_images_puts, puts_app.
  apply bind_ext. intros _ w3.
  rewrite range_pages_puts, puts_app.
  apply bind_ext. intros _ w4.
  rewrite puts_tail_unfold.
  rewrite range_spine_lines, range_navMap_lines.
  unfold opf_text, ncx_text, title_of.
  rewrite !string_app_assoc.
  reflexivity.
Qed.

Lemma ConvertFromCBZ_run (cbzFile : cbz.File) (out : string) (w : World) :
  epub.ConvertFromCBZ cbzFile out w =
  match w_faults w with
  | Some e :: _ => (Err (Errorf "failed to create output file" e), consumed w)
  | _ => closing out (puts out (epub_puts cbzFile (w_uuid w) (w_today w)) (created out w))
  end.
Proof.
  rewrite ConvertFromCBZ_body. unfold bind. rewrite os_Create_run.
  destruct (w_faults w) as [|[e|] fs]; reflexivity.
Qed.

(** A conversion that returned nil got past os.Create and through its puts. *)
Lemma ConvertFromCBZ_Ok_inv (cbzFile : cbz.File) (out : string) (w : World) :
  fst (epub.ConvertFromCBZ cbzFile out w) = Ok tt ->
  fst (puts out (epub_puts cbzFile (w_uuid w) (w_today w)) (created out w)) = Ok tt /\
  epub.ConvertFromCBZ cbzFile out w =
  closing out (puts out (epub_puts cbzFile (w_uuid w) (w_today w)) (created out w)).
Proof.
  rewrite ConvertFromCBZ_run. destruct (w_faults w) as [|[e|] fs]; cbn [fst closing];
    intros H; try discriminate; now split.
Qed.

(** A successful conversion leaves exactly the entries of [epub_puts]. *)
Lemma ConvertFromCBZ_ok (cbzFile : cbz.File) (out : string) (w : World) :
  fst (epub.ConvertFromCBZ cbzFile out w) = Ok tt ->
  entries_at (snd (epub.ConvertFromCBZ cbzFile out w)) out =
  map put_entry (epub_puts cbzFile (w_uuid w) (w_today w)).
Proof.
  intros H. destruct (ConvertFromCBZ_Ok_inv cbzFile out w H) as [H1 ->].
  destruct (puts_ok out _ _ H1) as [He _].
  cbn [closing snd]. now rewrite entries_at_closed, He, entries_at_created.
Qed.

(** Without failures the conversion succeeds. *)
Lemma ConvertFromCBZ_no_fault (cbzFile : cbz.File) (out : string) (w : World) :
  no_fault (w_faults w) -> fst (epub.ConvertFromCBZ cbzFile out w) = Ok tt.
Proof.
  intros Hnf. rewrite ConvertFromCBZ_run.
  pose proof (puts_no_fault out (epub_puts cbzFile (w_uuid w) (w_today w)) (created out w)
                (no_fault_created out w Hnf)) as [H _].
  destruct (w_faults w) as [|[e|] fs]; try exact H.
  inversion Hnf; discriminate.
Qed.

(** ** The container in closed form *)

Lemma image_puts_closed (i : nat) (images : list cbz.Image) :
  map put_entry (image_puts i images) = map image_entry (numbered_from (i + 1) images).
Proof.
  revert i. induction images as [|image rest IH]; intros i; [reflexivity|].
  rewrite numbered_from_cons. simpl. rewrite IH, (Nat.add_1_r (i + 1)). reflexivity.
Qed.

Lemma page_puts_closed (i : nat) (images : list cbz.Image) :
  map put_entry (page_puts i images) = map page_entry (numbered_from (i + 1) images).
Proof.
  revert i. induction images as [|image rest IH]; intros i; [reflexivity|].
  rewrite numbered_from_cons. simpl. rewrite IH, (Nat.add_1_r (i + 1)). reflexivity.
Qed.

Lemma epub_puts_entries (cbzFile : cbz.File) (uuid date : string) :
  map put_entry (epub_puts cbzFile uuid date) = epub_entries cbzFile uuid date.
Proof.
  unfold epub_puts, epub_entries. rewrite !map_app.
  now rewrite image_puts_closed, page_puts_closed.
Qed.

Lemma image_file_inj (k k' : nat) (image image' : cbz.Image) :
  image_file k image = image_file k' image' -> k = k'.
Proof.
  unfold image_file. intros H.
  apply (string_app_inv_head "image") in H.
  apply digits_split in H; try apply d03_digits; try apply Ext_no_digit_head.
  destruct H as [H _]. now apply d03_inj.
Qed.

Lemma page_file_inj (k k' : nat) : page_file k = page_file k' -> k = k'.
Proof.
  unfold page_file. intros H.
  apply (string_app_inv_head "page") in H.
  apply digits_split in H; try apply d03_digits; try reflexivity.
  destruct H as [H _]. now apply d03_inj.
Qed.

Lemma image_names_NoDup (n : nat) (images : list cbz.Image) :
  NoDup (map e_Name (map image_entry (numbered_from n images))).
Proof.
  rewrite map_map. apply NoDup_map_by_fst.
  - rewrite numbered_from_fst. apply seq_NoDup.
  - intros x y _ _ H. simpl in H.
    apply (string_app_inv_head "OEBPS/images/") in H.
    now apply image_file_inj in H.
Qed.

Lemma page_names_NoDup (n : nat) (images : list cbz.Image) :
  NoDup (map e_Name (map page_entry (numbered_from n images))).
Proof.
  rewrite map_map. apply NoDup_map_by_fst.
  - rewrite numbered_from_fst. apply seq_NoDup.
  - intros x y _ _ H. simpl in H.
    apply (string_app_inv_head "OEBPS/pages/") in H.
    now apply page_file_inj in H.
Qed.

(** No two entries of the container share a name. *)
Lemma epub_names_NoDup (cbzFile : cbz.File) (uuid date : string) :
  NoDup (map e_Name (epub_entries cbzFile uuid date)).
Proof.
  unfold epub_entries. rewrite !map_app.
  set (images := elems (cbz.Images cbzFile)).
  assert (Himg : forall x, In x (map e_Name (map image_entry (numbered_from 1 images))) ->
                 exists s, x = "OEBPS/images/" ++ s).
  { intros x Hx. rewrite map_map in Hx. apply in_map_iff in Hx.
    destruct Hx as (y & <- & _). now eexists. }
  assert (Hpag : forall x, In x (map e_Name (map page_entry (numbered_from 1 images))) ->
                 exists s, x = "OEBPS/pages/" ++ s).
  { intros x Hx. rewrite map_map in Hx. apply in_map_iff in Hx.
    destruct Hx as (y & <- & _). now eexists. }
  apply NoDup_app.
  - simpl. constructor; [|constructor; [intros []|constructor]].
    intros [H|[]]. discriminate.
  - apply NoDup_app.
    + apply image_names_NoDup.
    + apply NoDup_app.
      * apply page_names_NoDup.
      * simpl. constructor; [|constructor; [intros []|constructor]].
        intros [H|[]]. discriminate.
      * intros x Hx Hin. destruct (Hpag x Hx) as [s ->].
        simpl in Hin. destruct Hin as [H|[H|[]]]; discriminate.
    + intros x Hx Hin. destruct (Himg x Hx) as [s ->].
      apply in_app_or in Hin. destruct Hin as [Hin|Hin].
      * destruct (Hpag _ Hin) as [s' H]. discriminate.
      * simpl in Hin. destruct Hin as [H|[H|[]]]; discriminate.
  - intros x Hx Hin. simpl in Hx.
    apply in_app_or in Hin. destruct Hin as [Hin|Hin].
    + destruct (Himg x Hin) as [s ->]. destruct Hx as [H|[H|[]]]; discriminate.
    + apply in_app_or in Hin. destruct Hin as [Hin|Hin].
      * destruct (Hpag x Hin) as [s ->]. destruct Hx as [H|[H|[]]]; discriminate.
      * simpl in Hin.
        destruct Hx as [<-|[<-|[]]]; destruct Hin as [H|[H|[]]]; discriminate.
Qed.

Lemma split_cons (sep : ascii) (s : string) : exists l ls, split sep s = l :: ls.
Proof.
  destruct s as [|c s]; simpl; [now eexists; eexists|].
  destruct (c =? sep)%char; [now eexists; eexists|].
  destruct (split sep s); now eexists; eexists.
Qed.

Lemma split_app (sep : ascii) (a b : string) :
  split sep (a ++ String sep b) = (split sep a ++ split sep b)%list.
Proof.
  induction a as [|c a IH]; simpl.
  - now rewrite Ascii.eqb_refl.
  - destruct (c =? sep)%char; rewrite IH; [reflexivity|].
    destruct (split_cons sep a) as (l & ls & E). rewrite E. reflexivity.
Qed.

Lemma split_free (sep : ascii) (s : string) : free_of sep s = true -> split sep s = [s].
Proof.
  unfold free_of. induction s as [|c s IH]; simpl; intros H; [reflexivity|].
  apply andb_true_iff in H. destruct H as [Hc Hs].
  apply negb_true_iff in Hc. rewrite Hc, (IH Hs). reflexivity.
Qed.

Lemma lines_app (a b : string) : lines (a ++ nl ++ b) = (lines a ++ lines b)%list.
Proof. apply split_app. Qed.

Lemma fields_app (a b : string) : fields (a ++ dq ++ b) = (fields a ++ fields b)%list.
Proof. apply split_app. Qed.

Lemma after_last_none (x : string) (ls : list string) : ~ In x ls -> after_last x ls = None.
Proof.
  induction ls as [|l ls IH]; simpl; intros H; [reflexivity|].
  rewrite IH by tauto.
  destruct (String.eqb_spec l x) as [->|_]; [|reflexivity].
  exfalso. apply H. now left.
Qed.

Lemma after_last_found (x : string) (pre post : list string) :
  ~ In x post -> after_last x (pre ++ x :: post)%list = Some post.
Proof.
  intros H. induction pre as [|l pre IH]; simpl.
  - now rewrite (after_last_none x post H), String.eqb_refl.
  - now rewrite IH.
Qed.

Lemma all_bytes_impl (p p' : ascii -> bool) (s : string) :
  (forall c, p c = true -> p' c = true) ->
  strings.all_bytes p s = true -> strings.all_bytes p' s = true.
Proof.
  intros Hp. induction s as [|c s IH]; simpl; intros H; [reflexivity|].
  apply andb_true_iff in H. destruct H as [Hc Hs].
  now rewrite (Hp c Hc), (IH Hs).
Qed.

Lemma free_of_app (sep : ascii) (a b : string) :
  free_of sep (a ++ b) = free_of sep a && free_of sep b.
Proof. apply all_bytes_app. Qed.

(** Digits are neither line feeds nor double quotes. *)
Lemma digits_free (sep : ascii) (s : string) :
  is_digit sep = false -> strings.all_bytes is_digit s = true -> free_of sep s = true.
Proof.
  intros Hs. apply all_bytes_impl. intros c Hc.
  destruct (Ascii.eqb_spec c sep) as [->|_]; [congruence | reflexivity].
Qed.

Lemma d03_free_nl (k : nat) : free_of (ascii_of_nat 10) (fmt.d03 k) = true.
Proof. apply digits_free; [reflexivity | apply d03_digits]. Qed.

Lemma d03_free_dq (k : nat) : free_of (ascii_of_nat 34) (fmt.d03 k) = true.
Proof. apply digits_free; [reflexivity | apply d03_digits]. Qed.

Lemma d_free_nl (k : nat) : free_of (ascii_of_nat 10) (fmt.d k) = true.
Proof. apply digits_free; [reflexivity | apply d_digits]. Qed.

Lemma d_free_dq (k : nat) : free_of (ascii_of_nat 34) (fmt.d k) = true.
Proof. apply digits_free; [reflexivity | apply d_digits]. Qed.

(** *** The spine *)

Lemma itemref_split (k : nat) : epub.itemref k = itemref_text k ++ nl.
Proof.
  unfold epub.itemref, itemref_text, page_id. now rewrite !string_app_assoc.
Qed.

Lemma itemref_text_free (k : nat) : free_of (ascii_of_nat 10) (itemref_text k) = true.
Proof.
  unfold itemref_text, q, page_id.
  rewrite !free_of_app, d03_free_nl. reflexivity.
Qed.

Lemma itemref_text_id (k : nat) : itemref_id (itemref_text k) = Some (page_id k).
Proof.
  unfold itemref_id, itemref_text, q.
  rewrite !string_app_assoc, !fields_app.
  unfold fields at 1 2 3.
  rewrite (split_free _ "    <itemref idref=") by reflexivity.
  rewrite (split_free _ (page_id k))
    by (unfold page_id; rewrite free_of_app, d03_free_dq; reflexivity).
  rewrite (split_free _ "/>") by reflexivity.
  reflexivity.
Qed.

Lemma itemref_text_not_close (k : nat) : (itemref_text k =? "  </spine>") = false.
Proof. reflexivity. Qed.

Lemma itemref_text_not_open (k : nat) : itemref_text k <> spine_line.
Proof. apply String.eqb_neq. reflexivity. Qed.

Lemma lines_spine_lines (images : list cbz.Image) (i : nat) (rest : string) :
  lines (spine_lines i images ++ rest) =
  (map itemref_text (seq (i + 1) (List.length images)) ++ lines rest)%list.
Proof.
  revert i. induction images as [|image images IH]; intros i; [reflexivity|].
  cbn [spine_lines List.length seq map].
  rewrite itemref_split, !string_app_assoc, lines_app.
  unfold lines at 1. rewrite (split_free _ _ (itemref_text_free (i + 1))).
  rewrite IH, (Nat.add_1_r (i + 1)). reflexivity.
Qed.

Lemma read_itemrefs_texts (ks : list nat) (rest : list string) :
  read_itemrefs (map itemref_text ks ++ "  </spine>" :: rest)%list = Some (map page_id ks).
Proof.
  induction ks as [|k ks IH]; [reflexivity|].
  cbn [map List.app read_itemrefs].
  now rewrite itemref_text_not_close, itemref_text_id, IH.
Qed.

Lemma opf_text_split (cbzFile : cbz.File) (uuid date : string) :
  opf_text cbzFile uuid date =
  opf_before_spine cbzFile uuid date ++ nl ++
  spine_line ++ nl ++
  spine_lines 0 (elems (cbz.Images cbzFile)) ++ ("  </spine>" ++ nl ++ "</package>").
Proof.
  unfold opf_text, opf_before_spine. now rewrite !string_app_assoc.
Qed.

(** The spine of the generated content.opf lists the pages 1..n in order. *)
Lemma spine_of_opf_text (cbzFile : cbz.File) (uuid date : string) :
  spine_of (opf_text cbzFile uuid date) =
  Some (map page_id (seq 1 (len (cbz.Images cbzFile)))).
Proof.
  unfold spine_of. rewrite opf_text_split, lines_app, lines_app.
  unfold lines at 2. rewrite (split_free _ spine_line) by reflexivity.
  rewrite lines_spine_lines.
  change (lines ("  </spine>" ++ nl ++ "</package>")) with ["  </spine>"; "</package>"].
  cbn [List.app].
  rewrite after_last_found.
  - apply read_itemrefs_texts.
  - intros Hin. apply in_app_or in Hin. destruct Hin as [Hin|Hin].
    + apply in_map_iff in Hin. destruct Hin as (k & Hk & _).
      now apply (itemref_text_not_open k).
    + simpl in Hin. destruct Hin as [H|[H|[]]]; discriminate.
Qed.

(** *** The navigation map *)





Lemma lines_free (s : string) : free_of (ascii_of_nat 10) s = true -> lines s = [s].
Proof. apply split_free. Qed.

Lemma fields_free (s : string) : free_of (ascii_of_nat 34) s = true -> fields s = [s].
Proof. apply split_free. Qed.









(** *** The manifest of an archive without images *)

Lemma opf_head_split (title uuid date : string) :
  epub.opf_head title uuid date =
  opf_before_manifest title uuid date ++ nl ++ "  <manifest>" ++ nl ++ ncx_item ++ nl.
Proof.
  unfold epub.opf_head, opf_before_manifest, ncx_item. now rewrite !string_app_assoc.
Qed.


(** * Properties of the archive reader *)

Section ReaderProperties.
Context {rt : GoRuntime}.

Lemma getMimeType_table (filename : string) :
  cbz.getMimeType filename = mime_for (strings.ToLower (filepath.Ext filename)).
Proof.
  unfold cbz.getMimeType, mime_for. simpl.
  destruct (strings.ToLower (filepath.Ext filename) =? ".jpg"); [reflexivity|].
  destruct (strings.ToLower (filepath.Ext filename) =? ".jpeg"); [reflexivity|].
  destruct (strings.ToLower (filepath.Ext filename) =? ".png"); [reflexivity|].
  destruct (strings.ToLower (filepath.Ext filename) =? ".gif"); [reflexivity|].
  destruct (strings.ToLower (filepath.Ext filename) =? ".webp"); reflexivity.
Qed.

Lemma isImageFile_table (filename : string) :
  cbz.isImageFile filename = true ->
  In (strings.ToLower (filepath.Ext filename)) (map fst mime_table).
Proof.
  unfold cbz.isImageFile. simpl. intros H.
  repeat (apply orb_true_iff in H; destruct H as [H|H]);
    apply String.eqb_eq in H; rewrite H; simpl; tauto.
Qed.

Lemma mime_for_recognized (ext : string) :
  In ext (map fst mime_table) ->
  In (mime_for ext) ["image/jpeg"; "image/png"; "image/gif"; "image/webp"].
Proof.
  simpl. intros [<-|[<-|[<-|[<-|[<-|[]]]]]]; simpl; tauto.
Qed.

(** What ReadFile returns on an archive that [zip.OpenReader] opens. *)
Lemma ReadFile_opened (filename : string) (w : World) (files : list ZipFile) (f : cbz.File) :
  w_zips w filename = inr files ->
  fst (cbz.ReadFile filename w) = Ok f ->
  Forall readable (retained files) /\
  f = {| cbz.File_Name := filename;
         cbz.Images := mk_slice (sort_Slice cbz.by_name (map image_of (retained files))) |}.
Proof.
  intros Hz. rewrite ReadFile_run. unfold read_result. rewrite Hz. simpl.
  destruct (collect files (mk_slice [])) as [s|e] eqn:Hc; [|discriminate].
  apply collect_ok in Hc. destruct Hc as [-> Hr]. simpl.
  intros H. injection H as <-. split; [exact Hr | reflexivity].
Qed.

Lemma ReadFile_readable (filename : string) (w : World) (files : list ZipFile) :
  w_zips w filename = inr files ->
  Forall readable (retained files) ->
  fst (cbz.ReadFile filename w) =
  Ok {| cbz.File_Name := filename;
        cbz.Images := mk_slice (sort_Slice cbz.by_name (map image_of (retained files))) |}.
Proof.
  intros Hz Hr. rewrite ReadFile_run. unfold read_result. rewrite Hz. simpl.
  now rewrite (collect_readable files [] Hr).
Qed.

End ReaderProperties.

Lemma NoDup_map_inj_in {A B : Type} (f : A -> B) (l : list A) (x y : A) :
  NoDup (map f l) -> In x l -> In y l -> f x = f y -> x = y.
Proof.
  induction l as [|a l IH]; simpl; intros Hnd Hx Hy E; [contradiction|].
  inversion Hnd as [|? ? Hnotin Hnd']; subst.
  destruct Hx as [->|Hx], Hy as [->|Hy]; auto.
  - exfalso. apply Hnotin. rewrite E. now apply in_map.
  - exfalso. apply Hnotin. rewrite <- E. now apply in_map.
Qed.

(** C6: every Image that ReadFile returns has an extension which, lowered,
    is one of .jpg, .jpeg, .png, .gif, .webp; its MimeType is the type the
    table gives for that extension, hence one of the four image types and
    never empty; and getMimeType follows the table on every file name,
    with application/octet-stream for any other extension. *)
Theorem ReadFile_images_recognized :
  forall (rt : GoRuntime) (filename : string) (w : World) (f : cbz.File),
    fst (cbz.ReadFile filename w) = Ok f ->
    (forall image, In image (elems (cbz.Images f)) ->
       let ext := strings.ToLower (filepath.Ext (cbz.Name image)) in
       In ext [".jpg"; ".jpeg"; ".png"; ".gif"; ".webp"] /\
       cbz.MimeType image = mime_for ext /\
       In (cbz.MimeType image) ["image/jpeg"; "image/png"; "image/gif"; "image/webp"] /\
       cbz.MimeType image <> EmptyString) /\
    (forall name, cbz.getMimeType name = mime_for (strings.ToLower (filepath.Ext name))) /\
    (forall ext, ~ In ext [".jpg"; ".jpeg"; ".png"; ".gif"; ".webp"] ->
       mime_for ext = "application/octet-stream").
Proof.
  intros rt filename w f H. split; [|split].
  - intros image Hin. cbv zeta.
    destruct (w_zips w filename) as [e|files] eqn:Hz.
    + rewrite ReadFile_run in H. unfold read_result in H. rewrite Hz in H. discriminate.
    + destruct (ReadFile_opened filename w files f Hz H) as [_ ->]. simpl in Hin.
      apply (Permutation_in _ (Permutation_sym (sort_Slice_perm cbz.by_name _))) in Hin.
      apply in_map_iff in Hin. destruct Hin as (file & <- & Hfile).
      apply filter_In in Hfile. destruct Hfile as [_ Hk].
      destruct (kept_image file Hk) as [Hi He].
      rewrite He. pose proof (isImageFile_table _ Hi) as Ht.
      assert (Hm : cbz.MimeType (image_of file) =
                   mime_for (strings.ToLower (filepath.Ext (zf_Name file))))
        by apply getMimeType_table.
      split; [exact Ht|]. split; [exact Hm|].
      pose proof (mime_for_recognized _ Ht) as Hr. rewrite <- Hm in Hr.
      split; [exact Hr|].
      intros E. rewrite E in Hr. simpl in Hr.
      destruct Hr as [Hr|[Hr|[Hr|[Hr|[]]]]]; discriminate.
  - intros name. apply getMimeType_table.
  - intros ext Hn. unfold mime_for. simpl.
    destruct (String.eqb_spec ext ".jpg") as [->|_]; [exfalso; apply Hn; simpl; tauto|].
    destruct (String.eqb_spec ext ".jpeg") as [->|_]; [exfalso; apply Hn; simpl; tauto|].
    destruct (String.eqb_spec ext ".png") as [->|_]; [exfalso; apply Hn; simpl; tauto|].
    destruct (String.eqb_spec ext ".gif") as [->|_]; [exfalso; apply Hn; simpl; tauto|].
    destruct (String.eqb_spec ext ".webp") as [->|_]; [exfalso; apply Hn; simpl; tauto|].
    reflexivity.
Qed.

Lemma ReadFile_images_recognized_witness :
  fst (cbz.ReadFile (rt := stable_runtime) "mixed.cbz" (quiet_world mixed_zips)) =
    Ok {| cbz.File_Name := "mixed.cbz"; cbz.Images := mk_slice [cover_png; a_jpeg] |} /\
  In (strings.ToLower (rt := stable_runtime) (filepath.Ext (cbz.Name cover_png)))
     [".jpg"; ".jpeg"; ".png"; ".gif"; ".webp"] /\
  cbz.MimeType cover_png =
  mime_for (strings.ToLower (rt := stable_runtime) (filepath.Ext (cbz.Name cover_png))).
Proof.
  split; [reflexivity|].
  destruct (ReadFile_images_recognized stable_runtime "mixed.cbz" (quiet_world mixed_zips) _
              eq_refl) as [H _].
  destruct (H cover_png (or_introl eq_refl)) as (H1 & H2 & _).
  exact (conj H1 H2).
Defined.

(** The slice that ReadFile sorts for the archive of thirteen images, and
    what sort.Slice makes of it: the pivot is page05.jpg, which changes
    place with the first title page; the second title page then goes to the
    left of it, and the insertion sort of the right side keeps them so. *)
Lemma go_sort_twins :
  map cbz.Data
    (go_sort cbz.by_name
       (map (image_of (rt := go_runtime)) (retained (rt := go_runtime) twins))) =
  map bytes_of ["1"; "2"; "3"; "4"; "5"; "6"; "7"; "8"; "9"; "10"; "11"; "second"; "first"].
Proof. vm_compute. reflexivity. Qed.

(** C3 as stated fails: sort.Slice is no stable sort.  On an archive of
    thirteen images whose first two entries, vol1/title.jpg and
    vol2/title.jpg, share the base name title.jpg, ReadFile with the
    sort.Slice of the Go releases since 1.19 returns the image of
    vol2/title.jpg before the image of vol1/title.jpg: not the stable
    arrangement, which keeps them in the order of the container. *)
Lemma ReadFile_not_stable :
  ~ (forall (filename : string) (w : World) (files : list ZipFile) (f : cbz.File),
       w_zips w filename = inr files ->
       fst (cbz.ReadFile (rt := go_runtime) filename w) = Ok f ->
       elems (cbz.Images f) =
       stable_sort cbz.by_name (map (image_of (rt := go_runtime))
                                    (retained (rt := go_runtime) files))).
Proof.
  intros H.
  specialize (H "twins.cbz" (quiet_world twins_zips) _ _ eq_refl eq_refl).
  apply (f_equal (map cbz.Data)) in H. vm_compute in H. discriminate H.
Qed.

(** C3, amended: on a valid archive whose retained entries all read well,
    ReadFile succeeds and returns the images of the retained entries (each
    once, none else), sorted by name ascending under byte-wise comparison;
    when no two retained images share a name the order is the one and only
    sorted order.  Nothing is said of the order of images that share a name. *)
Theorem ReadFile_sorted :
  forall (rt : GoRuntime) (filename : string) (w : World) (files : list ZipFile),
    w_zips w filename = inr files ->
    Forall readable (retained files) ->
    exists images,
      fst (cbz.ReadFile filename w) =
        Ok {| cbz.File_Name := filename; cbz.Images := mk_slice images |} /\
      Permutation (map image_of (retained files)) images /\
      sorted_by (fun a b => String.ltb (cbz.Name a) (cbz.Name b)) images /\
      (NoDup (map cbz.Name (map image_of (retained files))) ->
       images = stable_sort cbz.by_name (map image_of (retained files))).
Proof.
  intros rt filename w files Hz Hr.
  exists (sort_Slice cbz.by_name (map image_of (retained files))).
  split; [now apply ReadFile_readable|].
  split; [apply sort_Slice_perm|].
  split; [apply sort_Slice_sorted, by_name_swo|].
  intros Hnd. apply (sorted_unique cbz.by_name).
  - apply sort_Slice_sorted, by_name_swo.
  - apply stable_sort_sorted, by_name_swo.
  - rewrite <- (sort_Slice_perm cbz.by_name). apply insertion_sort_perm.
  - intros x y Hx Hy H1 H2.
    apply (Permutation_in _ (Permutation_sym (sort_Slice_perm cbz.by_name _))) in Hx, Hy.
    apply (NoDup_map_inj_in cbz.Name _ x y Hnd Hx Hy).
    now apply string_ltb_antisym.
Qed.

Lemma ReadFile_sorted_witness :
  exists images,
    fst (cbz.ReadFile (rt := stable_runtime) "mixed.cbz" (quiet_world mixed_zips)) =
      Ok {| cbz.File_Name := "mixed.cbz"; cbz.Images := mk_slice images |} /\
    Permutation (map (image_of (rt := stable_runtime))
                   (retained (rt := stable_runtime)
                      [file_entry "b/Cover.PNG" "P"; file_entry "readme.txt" "T";
                       file_entry "a.jpeg" "J"])) images /\
    sorted_by (fun a b => String.ltb (cbz.Name a) (cbz.Name b)) images.
Proof.
  destruct (ReadFile_sorted stable_runtime "mixed.cbz" (quiet_world mixed_zips)
              [file_entry "b/Cover.PNG" "P"; file_entry "readme.txt" "T";
               file_entry "a.jpeg" "J"] eq_refl) as (images & H1 & H2 & H3 & _).
  - repeat constructor; eexists; reflexivity.
  - exists images. exact (conj H1 (conj H2 H3)).
Defined.

(** * Properties of the merger *)

(** A finished container reads well: every entry has its bytes. *)
Lemma collect_as_zip {rt : GoRuntime} (es : list Entry) :
  forall images, exists images', collect (map zip.as_zip es) images = Ok images'.
Proof.
  induction es as [|e es IH]; intros images; [now exists images|].
  cbn [map collect]. destruct (kept (zip.as_zip e)); [|apply IH].
  cbn [zip.as_zip zf_body]. apply IH.
Qed.

(** What cannot be read after the deferred Close could not be read before. *)
Lemma read_result_closed {rt : GoRuntime} (out p : string) (w : World) (e : error) :
  read_result (w_zips (closed out w)) p = Err e -> read_result (w_zips w) p = Err e.
Proof.
  unfold closed. destruct (w_faults w) as [|[e0|] fs]; try (intros H; exact H);
    unfold read_result, w_zips, holding; cbn;
    (destruct (String.eqb_spec (w_file w p) (w_file w out)) as [E|E]; [|intros H; exact H]);
    destruct (collect_as_zip (entries_at w out) (mk_slice [])) as [images ->]; discriminate.
Qed.

(** C9: ReadFile on a path that [zip.OpenReader] cannot open returns no File
    but the error of the open, wrapped as "failed to open CBZ file"; and
    when, after the inputs [pre] were merged, reading the next input [p]
    fails with [e], MergeFiles returns exactly [e] wrapped as "failed to
    read input file p", having opened [pre] and then [p] once each and none
    of the later inputs, and having written nothing after the entries of
    [pre]. *)
Theorem read_failure_propagates :
  forall (rt : GoRuntime),
    (forall (filename : string) (w : World) (e : error),
       w_zips w filename = inl e ->
       cbz.ReadFile filename w =
       (Err (Errorf "failed to open CBZ file" e), logged filename w)) /\
    (forall (pre : list string) (p : string) (post : list string) (out : string)
            (w : World) (e : error),
       fst (cbz.MergeFiles pre out w) = Ok tt ->
       fst (cbz.ReadFile p (snd (cbz.MergeFiles pre out w))) = Err e ->
       let r := cbz.MergeFiles (pre ++ p :: post)%list out w in
       fst r = Err (Errorf ("failed to read input file " ++ p) e) /\
       w_opened (snd r) = (w_opened w ++ pre ++ [p])%list /\
       entries_at (snd r) out = entries_at (snd (cbz.MergeFiles pre out w)) out).
Proof.
  intros rt. split.
  - intros filename w e Hz. rewrite ReadFile_run. unfold read_result. now rewrite Hz.
  - intros pre p post out w e Hpre Hread. cbv zeta.
    destruct (MergeFiles_Ok_inv pre out w Hpre) as [H1 E].
    rewrite E in Hread |- *. cbn [closing snd] in Hread |- *.
    rewrite ReadFile_run in Hread. cbn [fst] in Hread.
    apply read_result_closed in Hread.
    rewrite (MergeFiles_run (pre ++ p :: post) out w).
    rewrite MergeFiles_run in Hpre.
    destruct (w_faults w) as [|[e0|] fs] eqn:Hf; try discriminate Hpre;
      destruct (range_inputFiles_app out pre (p :: post) 0 1 (created out w) H1)
        as [n' ->];
      rewrite (range_inputFiles_read_error out _ n' p post e _ Hread);
      cbn [closing fst snd];
      rewrite opened_closed, !entries_at_closed;
      cbn [logged w_opened];
      rewrite (range_inputFiles_opened out pre 0 1 (created out w) H1);
      rewrite <- app_assoc; repeat split.
Qed.

Lemma read_failure_propagates_witness :
  cbz.ReadFile (rt := stable_runtime) "lost.cbz" (quiet_world shelf_zips) =
    (Err (Errorf "failed to open CBZ file" no_such_file),
     logged "lost.cbz" (quiet_world shelf_zips)) /\
  fst (cbz.MergeFiles (rt := stable_runtime) ["a.cbz"; "lost.cbz"; "b.cbz"] "all.cbz"
         (quiet_world shelf_zips)) =
    Err (Errorf "failed to read input file lost.cbz"
           (Errorf "failed to open CBZ file" no_such_file)) /\
  w_opened (snd (cbz.MergeFiles (rt := stable_runtime) ["a.cbz"; "lost.cbz"; "b.cbz"]
                   "all.cbz" (quiet_world shelf_zips))) = ["a.cbz"; "lost.cbz"].
Proof.
  split.
  - exact (proj1 (read_failure_propagates stable_runtime) "lost.cbz"
             (quiet_world shelf_zips) no_such_file eq_refl).
  - destruct (proj2 (read_failure_propagates stable_runtime) ["a.cbz"] "lost.cbz" ["b.cbz"]
                "all.cbz" (quiet_world shelf_zips)
                (Errorf "failed to open CBZ file" no_such_file) eq_refl eq_refl)
      as (H1 & H2 & _).
    exact (conj H1 H2).
Defined.

Lemma read_all_ReadFile {rt : GoRuntime} (w : World) (inputFiles : list string)
    (archives : list cbz.File) :
  read_all (w_zips w) inputFiles archives <->
  Forall2 (fun p a => fst (cbz.ReadFile p w) = Ok a) inputFiles archives.
Proof.
  unfold read_all. split; intros H; induction H; constructor; auto.
  - now rewrite ReadFile_run.
  - now rewrite ReadFile_run in H.
Qed.







(** C5 as stated fails: the counter is not reset between archives, so the
    images of the second archive are numbered 003 and 004. *)
Lemma second_chapter_keeps_counting :
  map e_Name (entries_at (snd (cbz.MergeFiles (rt := stable_runtime) ["a.cbz"; "b.cbz"]
                                 "all.cbz" (quiet_world shelf_zips))) "all.cbz")
  = ["chapter001_001.jpg"; "chapter001_002.jpg"; "chapter002_003.png"; "chapter002_004.png"]
  /\
  ~ (exists e1 e2 e3 e4,
       map e_Name (entries_at (snd (cbz.MergeFiles (rt := stable_runtime) ["a.cbz"; "b.cbz"]
                                      "all.cbz" (quiet_world shelf_zips))) "all.cbz")
       = ["chapter001_001" ++ e1; "chapter001_002" ++ e2;
          "chapter002_001" ++ e3; "chapter002_002" ++ e4]).
Proof.
  assert (E : map e_Name (entries_at (snd (cbz.MergeFiles (rt := stable_runtime)
                                             ["a.cbz"; "b.cbz"] "all.cbz"
                                             (quiet_world shelf_zips))) "all.cbz")
              = ["chapter001_001.jpg"; "chapter001_002.jpg";
                 "chapter002_003.png"; "chapter002_004.png"]) by reflexivity.
  split; [exact E|].
  rewrite E. intros (e1 & e2 & e3 & e4 & H). simpl in H. discriminate H.
Qed.

(** C5, amended: merging an archive A that reads as two images with an
    archive B that reads as two images, A before B, without a failing write
    and into a file that is neither input, succeeds and yields exactly four
    entries named chapter001_001.*, chapter001_002.*, chapter002_003.*,
    chapter002_004.*, each with the extension and the bytes of its image. *)
Theorem merge_two_by_two :
  forall (rt : GoRuntime) (pathA pathB outputFile : string) (w : World)
         (fileA fileB : cbz.File) (a1 a2 b1 b2 : cbz.Image),
    no_fault (w_faults w) ->
    w_file w outputFile <> w_file w pathA -> w_file w outputFile <> w_file w pathB ->
    fst (cbz.ReadFile pathA w) = Ok fileA -> elems (cbz.Images fileA) = [a1; a2] ->
    fst (cbz.ReadFile pathB w) = Ok fileB -> elems (cbz.Images fileB) = [b1; b2] ->
    let r := cbz.MergeFiles [pathA; pathB] outputFile w in
    fst r = Ok tt /\
    entries_at (snd r) outputFile =
      [ {| e_Name := "chapter001_001" ++ filepath.Ext (cbz.Name a1);
           e_Method := Deflate; e_Data := cbz.Data a1 |};
        {| e_Name := "chapter001_002" ++ filepath.Ext (cbz.Name a2);
           e_Method := Deflate; e_Data := cbz.Data a2 |};
        {| e_Name := "chapter002_003" ++ filepath.Ext (cbz.Name b1);
           e_Method := Deflate; e_Data := cbz.Data b1 |};
        {| e_Name := "chapter002_004" ++ filepath.Ext (cbz.Name b2);
           e_Method := Deflate; e_Data := cbz.Data b2 |} ].
Proof.
  intros rt pathA pathB outputFile w fileA fileB a1 a2 b1 b2 Hnf HA HB RA EA RB EB.
  cbv zeta.
  assert (Hnot : apart w outputFile [pathA; pathB]).
  { constructor; [now apply not_eq_sym|]. constructor; [now apply not_eq_sym | constructor]. }
  assert (Hall : read_all (w_zips w) [pathA; pathB] [fileA; fileB]).
  { apply read_all_ReadFile. repeat constructor; assumption. }
  pose proof (MergeFiles_no_fault [pathA; pathB] outputFile w _ Hnf Hnot Hall) as Hok.
  split; [exact Hok|].
  destruct (MergeFiles_ok [pathA; pathB] outputFile w Hnot Hok) as (archives & Hall' & He).
  assert (archives = [fileA; fileB]).
  { unfold read_all in *.
    inversion Hall as [|? ? ? ? H1 Hall1]; subst. inversion Hall1 as [|? ? ? ? H2 Hall2]; subst.
    inversion Hall' as [|? ? ? ? H1' Hall1']; subst.
    inversion Hall1' as [|? ? ? ? H2' Hall2']; subst.
    inversion Hall2'; subst. congruence. }
  subst archives. rewrite He.
  unfold merged, chapters_from. simpl. rewrite EA, EB. reflexivity.
Qed.

Lemma merge_two_by_two_witness :
  fst (cbz.MergeFiles (rt := stable_runtime) ["a.cbz"; "b.cbz"] "all.cbz"
         (quiet_world shelf_zips)) = Ok tt /\
  map e_Name (entries_at (snd (cbz.MergeFiles (rt := stable_runtime) ["a.cbz"; "b.cbz"]
                                 "all.cbz" (quiet_world shelf_zips))) "all.cbz")
  = ["chapter001_001.jpg"; "chapter001_002.jpg"; "chapter002_003.png"; "chapter002_004.png"].
Proof.
  destruct (merge_two_by_two stable_runtime "a.cbz" "b.cbz" "all.cbz"
              (quiet_world shelf_zips) _ _
              {| cbz.Name := "a1.jpg"; cbz.Data := bytes_of "A1"; cbz.MimeType := "image/jpeg" |}
              {| cbz.Name := "a2.jpg"; cbz.Data := bytes_of "A2"; cbz.MimeType := "image/jpeg" |}
              {| cbz.Name := "b1.png"; cbz.Data := bytes_of "B1"; cbz.MimeType := "image/png" |}
              {| cbz.Name := "b2.png"; cbz.Data := bytes_of "B2"; cbz.MimeType := "image/png" |}
              (Forall_nil _)
              ltac:(discriminate) ltac:(discriminate)
              eq_refl eq_refl eq_refl eq_refl) as [H1 H2].
  split; [exact H1|]. rewrite H2. reflexivity.
Defined.

(** * Properties of the assembler *)

Lemma find_app_skip {A : Type} (p : A -> bool) (l1 l2 : list A) :
  (forall x, In x l1 -> p x = false) -> find p (l1 ++ l2)%list = find p l2.
Proof.
  induction l1 as [|a l1 IH]; simpl; intros H; [reflexivity|].
  rewrite (H a) by now left. apply IH. intros x Hx. apply H. now right.
Qed.

Lemma entry_named_opf (cbzFile : cbz.File) (uuid date : string) :
  entry_named "OEBPS/content.opf" (epub_entries cbzFile uuid date) =
  Some (opf_entry cbzFile uuid date).
Proof.
  unfold entry_named, epub_entries. cbn [List.app find e_Name mimetype_entry container_entry].
  change ("mimetype" =? "OEBPS/content.opf") with false.
  change ("META-INF/container.xml" =? "OEBPS/content.opf") with false. cbv iota.
  rewrite find_app_skip, find_app_skip; [reflexivity| |];
    intros x Hx; apply in_map_iff in Hx; destruct Hx as (y & <- & _); reflexivity.
Qed.

Lemma entry_named_ncx (cbzFile : cbz.File) (uuid date : string) :
  entry_named "OEBPS/toc.ncx" (epub_entries cbzFile uuid date) =
  Some (ncx_entry cbzFile uuid).
Proof.
  unfold entry_named, epub_entries. cbn [List.app find e_Name mimetype_entry container_entry].
  change ("mimetype" =? "OEBPS/toc.ncx") with false.
  change ("META-INF/container.xml" =? "OEBPS/toc.ncx") with false. cbv iota.
  rewrite find_app_skip, find_app_skip; [reflexivity| |];
    intros x Hx; apply in_map_iff in Hx; destruct Hx as (y & <- & _); reflexivity.
Qed.

Lemma text_of_bytes (name : string) (method : Method) (s : string) :
  text_of {| e_Name := name; e_Method := method; e_Data := bytes_of s |} = s.
Proof. apply string_of_list_byte_of_string. Qed.



(** C4 as stated fails: the content of the mimetype entry is 20 bytes long,
    not 21. *)
Lemma mimetype_not_21_bytes :
  ~ (forall (cbzFile : cbz.File) (outputFile : string) (w : World),
       fst (epub.ConvertFromCBZ cbzFile outputFile w) = Ok tt ->
       exists e rest,
         entries_at (snd (epub.ConvertFromCBZ cbzFile outputFile w)) outputFile = e :: rest /\
         e_Name e = "mimetype" /\ e_Method e = Store /\
         e_Data e = bytes_of "application/epub+zip" /\
         List.length (e_Data e) = 21).
Proof.
  intros H.
  destruct (H three_pages "one.epub" (quiet_world shelf_zips) eq_refl)
    as (e & rest & _ & _ & _ & Hd & Hl).
  rewrite Hd in Hl. discriminate Hl.
Qed.

(** C4, amended: when ConvertFromCBZ succeeds, the first entry of the
    container is named mimetype, is stored without compression, and its
    content is exactly the bytes application/epub+zip: 20 bytes, none of them
    a line feed. *)
Theorem mimetype_first :
  forall (cbzFile : cbz.File) (outputFile : string) (w : World),
    fst (epub.ConvertFromCBZ cbzFile outputFile w) = Ok tt ->
    exists rest,
      entries_at (snd (epub.ConvertFromCBZ cbzFile outputFile w)) outputFile =
        {| e_Name := "mimetype"; e_Method := Store;
           e_Data := bytes_of "application/epub+zip" |} :: rest /\
      List.length (bytes_of "application/epub+zip") = 20 /\
      ~ In Byte.x0a (bytes_of "application/epub+zip").
Proof.
  intros cbzFile outputFile w H.
  rewrite (ConvertFromCBZ_ok cbzFile outputFile w H), epub_puts_entries.
  unfold epub_entries. eexists. split; [reflexivity|]. split; [reflexivity|].
  intros Hin. simpl in Hin.
  repeat (destruct Hin as [Hin|Hin]; [discriminate Hin|]). exact Hin.
Qed.

Lemma mimetype_first_witness :
  fst (epub.ConvertFromCBZ three_pages "one.epub" (quiet_world shelf_zips)) = Ok tt /\
  exists rest,
    entries_at (snd (epub.ConvertFromCBZ three_pages "one.epub" (quiet_world shelf_zips)))
      "one.epub"
    = {| e_Name := "mimetype"; e_Method := Store;
         e_Data := bytes_of "application/epub+zip" |} :: rest.
Proof.
  split; [reflexivity|].
  destruct (mimetype_first three_pages "one.epub" (quiet_world shelf_zips) eq_refl)
    as (rest & H & _).
  exists rest. exact H.
Defined.

(** C8 as stated fails: the title is not the file name with its extension
    stripped when the extension is not the lower-case .cbz.  The archive
    shelf/Vol1.CBZ, whose name without its extension is Vol1, gets the title
    Vol1.CBZ in content.opf. *)
Lemma title_keeps_other_extension :
  without_extension (cbz.File_Name upper_case_archive) = "Vol1" /\
  ~ (forall (cbzFile : cbz.File) (outputFile : string) (w : World),
       fst (epub.ConvertFromCBZ cbzFile outputFile w) = Ok tt ->
       let written :=
         entries_at (snd (epub.ConvertFromCBZ cbzFile outputFile w)) outputFile in
       exists opf_rest,
         option_map text_of (entry_named "OEBPS/content.opf" written) =
         Some (opf_up_to_title ++ without_extension (cbz.File_Name cbzFile) ++
               "</dc:title>" ++ nl ++ opf_rest)).
Proof.
  split; [reflexivity|]. intros H.
  destruct (H upper_case_archive "Vol1.epub" (quiet_world shelf_zips) eq_refl)
    as [opf_rest E].
  vm_compute in E. discriminate E.
Qed.

(** C8, amended: when ConvertFromCBZ succeeds, the title is the base name of
    the archive's file name with a trailing lower-case .cbz removed, and the
    base name itself when it does not end in .cbz, whatever other extension
    it has; this very text, byte for byte, stands between the dc:title tags
    of content.opf and between the text tags of the docTitle of toc.ncx,
    each preceded by fixed text only. *)
Theorem title_is_file_name :
  forall (cbzFile : cbz.File) (outputFile : string) (w : World),
    fst (epub.ConvertFromCBZ cbzFile outputFile w) = Ok tt ->
    let base := filepath.Base (cbz.File_Name cbzFile) in
    let written := entries_at (snd (epub.ConvertFromCBZ cbzFile outputFile w)) outputFile in
    exists title opf ncx opf_rest ncx_rest,
      (forall stem, base = stem ++ ".cbz" -> title = stem) /\
      (strings.HasSuffix base ".cbz" = false -> title = base) /\
      (strings.HasSuffix base ".cbz" = true -> base = title ++ ".cbz") /\
      option_map text_of (entry_named "OEBPS/content.opf" written) = Some opf /\
      option_map text_of (entry_named "OEBPS/toc.ncx" written) = Some ncx /\
      opf = opf_up_to_title ++ title ++ "</dc:title>" ++ nl ++ opf_rest /\
      ncx = ncx_up_to_title (w_uuid w) ++ title ++ "</text>" ++ nl ++ ncx_rest.
Proof.
  intros cbzFile outputFile w H. cbv zeta.
  rewrite (ConvertFromCBZ_ok cbzFile outputFile w H), epub_puts_entries.
  rewrite entry_named_opf, entry_named_ncx. simpl option_map.
  unfold opf_entry, ncx_entry. rewrite !text_of_bytes.
  exists (title_of cbzFile), (opf_text cbzFile (w_uuid w) (w_today w)),
    (ncx_text cbzFile (w_uuid w)).
  eexists. eexists.
  split; [|split; [|split; [|split; [reflexivity|split; [reflexivity|split]]]]].
  - intros stem E. unfold title_of. rewrite E. apply TrimSuffix_app.
  - apply TrimSuffix_none.
  - apply HasSuffix_split.
  - unfold opf_text, epub.opf_head, opf_up_to_title.
    rewrite !string_app_assoc. reflexivity.
  - unfold ncx_text, epub.ncx_head, ncx_up_to_title.
    rewrite !string_app_assoc. reflexivity.
Qed.

Lemma title_is_file_name_witness :
  fst (epub.ConvertFromCBZ three_pages "one.epub" (quiet_world shelf_zips)) = Ok tt /\
  exists opf_rest,
    option_map text_of
      (entry_named "OEBPS/content.opf"
         (entries_at (snd (epub.ConvertFromCBZ three_pages "one.epub"
                             (quiet_world shelf_zips))) "one.epub"))
    = Some (opf_up_to_title ++ "One & Two" ++ "</dc:title>" ++ nl ++ opf_rest).
Proof.
  split; [reflexivity|].
  destruct (title_is_file_name three_pages "one.epub" (quiet_world shelf_zips) eq_refl)
    as (title & opf & ncx & opf_rest & ncx_rest & H1 & _ & _ & H4 & _ & H6 & _).
  exists opf_rest. rewrite H4, H6, (H1 "One & Two" eq_refl). reflexivity.
Defined.

(** * Reading and assembling together *)


(** ConvertFile is ReadFile followed by ConvertFromCBZ on what was read. *)
Lemma ConvertFile_ok {rt : GoRuntime} (inputFile outputFile : string) (w : World)
                     (cbzFile : cbz.File) :
  fst (cbz.ReadFile inputFile w) = Ok cbzFile ->
  fst (epub.ConvertFromCBZ cbzFile outputFile (snd (cbz.ReadFile inputFile w))) = Ok tt ->
  epub.ConvertFile inputFile outputFile w =
  (Ok tt, snd (epub.ConvertFromCBZ cbzFile outputFile (snd (cbz.ReadFile inputFile w)))).
Proof.
  unfold epub.ConvertFile, bind, wrapf, ret.
  destruct (cbz.ReadFile inputFile w) as [[f|e] w1]; simpl; [|discriminate].
  intros [= ->].
  destruct (epub.ConvertFromCBZ cbzFile outputFile w1) as [[[]|e] w2]; simpl; [|discriminate].
  reflexivity.
Qed.

Section Scenario.
Context {rt : GoRuntime}.



End Scenario.





(** * Further properties of the archive reader *)

Section ReadErrors.
Context {rt : GoRuntime}.

Lemma collect_app (pre rest : list ZipFile) :
  forall l : list cbz.Image,
    Forall readable (retained pre) ->
    collect (pre ++ rest)%list (mk_slice l) =
    collect rest (mk_slice (l ++ map image_of (retained pre))%list).
Proof.
  induction pre as [|f pre IH]; intros l H.
  - simpl. now rewrite app_nil_r.
  - unfold retained in H |- *. rewrite <- app_comm_cons.
    cbn [filter collect] in H |- *.
    destruct (kept f) eqn:K.
    + inversion H as [|? ? [data Hd] Hr]; subst. rewrite Hd.
      unfold append. cbn [elems]. fold (retained pre).
      rewrite IH by exact Hr. cbn [map]. now rewrite <- app_assoc.
    + apply IH, H.
Qed.

Lemma kept_iff (file : ZipFile) :
  kept file = true <->
  zip.IsDir file = false /\ cbz.isImageFile (zf_Name file) = true.
Proof.
  unfold kept. rewrite negb_true_iff, orb_false_iff, negb_false_iff. reflexivity.
Qed.

Lemma retained_readable (files : list ZipFile) :
  (forall file, In file files -> zip.IsDir file = false ->
     cbz.isImageFile (zf_Name file) = true -> exists data, zf_body file = Content data) ->
  Forall readable (retained files).
Proof.
  intros H. apply Forall_forall. intros file Hin.
  apply filter_In in Hin. destruct Hin as [Hin K]. apply kept_iff in K.
  destruct K as [Hd Hi]. exact (H file Hin Hd Hi).
Qed.

Lemma read_result_ReadFile (filename : string) (w : World) :
  fst (cbz.ReadFile filename w) = read_result (w_zips w) filename.
Proof. now rewrite ReadFile_run. Qed.

End ReadErrors.

(** X1: ReadFile fails at the first entry, in the container's order, that is
    no directory, has an image extension and cannot be read: with the error
    of [file.Open] wrapped as "failed to open file in CBZ", or with the error
    of [io.ReadAll] wrapped as "failed to read file data".  Entries before it
    that are directories or no images are not even opened. *)
Theorem ReadFile_first_unreadable :
  forall (rt : GoRuntime) (filename : string) (w : World)
         (pre : list ZipFile) (bad : ZipFile) (post : list ZipFile),
    w_zips w filename = inr (pre ++ bad :: post)%list ->
    (forall file, In file pre -> zip.IsDir file = false ->
       cbz.isImageFile (zf_Name file) = true -> exists data, zf_body file = Content data) ->
    zip.IsDir bad = false ->
    cbz.isImageFile (zf_Name bad) = true ->
    (forall e, zf_body bad = OpenFails e ->
       fst (cbz.ReadFile filename w) = Err (Errorf "failed to open file in CBZ" e)) /\
    (forall e, zf_body bad = ReadFails e ->
       fst (cbz.ReadFile filename w) = Err (Errorf "failed to read file data" e)).
Proof.
  intros rt filename w pre bad post Hz Hpre Hd Hi.
  assert (K : kept bad = true) by (apply kept_iff; now split).
  assert (E : read_result (w_zips w) filename =
              match zf_body bad with
              | OpenFails e => Err (Errorf "failed to open file in CBZ" e)
              | ReadFails e => Err (Errorf "failed to read file data" e)
              | Content _ => read_result (w_zips w) filename
              end).
  { unfold read_result at 1. rewrite Hz.
    change (mk_slice (@nil cbz.Image)) with (mk_slice ([] : list cbz.Image)).
    rewrite (collect_app pre (bad :: post) []) by (apply retained_readable, Hpre).
    cbn [collect]. rewrite K.
    destruct (zf_body bad) eqn:B; try reflexivity.
    unfold read_result. rewrite Hz.
    rewrite (collect_app pre (bad :: post) []) by (apply retained_readable, Hpre).
    cbn [collect]. rewrite K, B. reflexivity. }
  split; intros e B; rewrite read_result_ReadFile, E, B; reflexivity.
Qed.

Lemma ReadFile_first_unreadable_witness :
  fst (cbz.ReadFile (rt := stable_runtime) "damaged.cbz" (quiet_world damaged_zips)) =
  Err (Errorf "failed to read file data" (LibError "unexpected EOF")).
Proof.
  refine (proj2 (ReadFile_first_unreadable stable_runtime "damaged.cbz"
                   (quiet_world damaged_zips)
                   [file_entry "p1.jpg" "one";
                    {| zf_Name := "notes.txt"; zf_dir_attr := false;
                       zf_body := OpenFails (LibError "zip: unsupported compression algorithm") |}]
                   {| zf_Name := "p2.png"; zf_dir_attr := false;
                      zf_body := ReadFails (LibError "unexpected EOF") |}
                   [{| zf_Name := "p3.gif"; zf_dir_attr := false;
                       zf_body := OpenFails (LibError "zip: checksum error") |}]
                   eq_refl _ eq_refl eq_refl) _ eq_refl).
  intros file [<-|[<-|[]]] Hd Hi.
  - eexists; reflexivity.
  - discriminate Hi.
Defined.

(** ** The names of the images *)

Lemma last_element_split (l : list ascii) :
  exists rest,
    l = (filepath.last_element l ++ rest)%list /\
    forallb (fun c => negb (filepath.IsPathSeparator c)) (filepath.last_element l) = true /\
    (rest = [] \/ exists r, rest = "/"%char :: r).
Proof.
  induction l as [|c l (rest & E & Hf & Hr)].
  - exists []. repeat split. now left.
  - simpl. destruct (filepath.IsPathSeparator c) eqn:Hc.
    + exists (c :: l). repeat split. right. exists l.
      unfold filepath.IsPathSeparator in Hc. apply Ascii.eqb_eq in Hc. now subst.
    + exists rest. simpl. rewrite Hc, Hf. repeat split; [|exact Hr].
      now rewrite <- E.
Qed.

Lemma all_bytes_of_list (p : ascii -> bool) (l : list ascii) :
  strings.all_bytes p (string_of_list_ascii l) = forallb p l.
Proof. induction l as [|c l IH]; simpl; [reflexivity | now rewrite IH]. Qed.

Lemma forallb_rev {A : Type} (p : A -> bool) (l : list A) :
  forallb p l = true -> forallb p (List.rev l) = true.
Proof.
  rewrite !forallb_forall. intros H x Hx. apply H. now apply in_rev.
Qed.

(** The base name of a path that is not empty and does not end in a slash:
    the path is a directory part, empty or ending in a slash, followed by
    the base name, which is not empty and holds no slash. *)
Lemma Base_split (path : string) :
  path <> EmptyString -> strings.HasSuffix path "/" = false ->
  exists dir,
    path = dir ++ filepath.Base path /\
    (dir = EmptyString \/ strings.HasSuffix dir "/" = true) /\
    free_of "/"%char (filepath.Base path) = true /\
    filepath.Base path <> EmptyString.
Proof.
  intros Hne Hs.
  destruct (no_trailing_slash path Hne Hs) as (c & r & E & Hc).
  assert (HB : filepath.Base path =
               string_of_list_ascii (List.rev (filepath.last_element (c :: r))) /\
               filepath.Base path <> EmptyString).
  { unfold filepath.Base.
    destruct (String.eqb_spec path EmptyString) as [->|_]; [congruence|].
    rewrite E. simpl. rewrite Hc. simpl. rewrite Hc.
    set (le := filepath.last_element r).
    change (List.rev (c :: le)) with (List.rev le ++ [c])%list.
    assert (Hle : string_of_list_ascii (List.rev le ++ [c]) <> EmptyString).
    { rewrite string_of_list_ascii_app. simpl.
      destruct (string_of_list_ascii (List.rev le)); simpl; discriminate. }
    destruct (String.eqb_spec (string_of_list_ascii (List.rev le ++ [c])) EmptyString)
      as [E0|_]; [congruence|].
    split; [reflexivity | exact Hle]. }
  destruct HB as [HB Hnb].
  destruct (last_element_split (c :: r)) as (rest & El & Hf & Hr).
  exists (string_of_list_ascii (List.rev rest)). repeat split.
  - rewrite HB, <- string_of_list_ascii_app, <- rev_app_distr, <- El, <- E.
    now rewrite rev_involutive, string_of_list_ascii_of_string.
  - destruct Hr as [->|[r' ->]]; [now left | right].
    simpl. rewrite string_of_list_ascii_app. apply HasSuffix_app.
  - rewrite HB. unfold free_of. rewrite all_bytes_of_list. apply forallb_rev, Hf.
  - exact Hnb.
Qed.

(** X2: every Image that ReadFile returns stands for an entry of the
    container that is no directory: it carries the entry's bytes, and its
    Name is the entry's name without its directory part, so it is not empty
    and holds no slash. *)
Theorem ReadFile_names_flat :
  forall (rt : GoRuntime) (filename : string) (w : World) (f : cbz.File),
    fst (cbz.ReadFile filename w) = Ok f ->
    exists files,
      w_zips w filename = inr files /\
      forall image, In image (elems (cbz.Images f)) ->
        cbz.Name image <> EmptyString /\
        free_of "/"%char (cbz.Name image) = true /\
        exists file dir,
          In file files /\
          zip.IsDir file = false /\
          zf_Name file = dir ++ cbz.Name image /\
          (dir = EmptyString \/ strings.HasSuffix dir "/" = true) /\
          zf_body file = Content (cbz.Data image).
Proof.
  intros rt filename w f H.
  destruct (w_zips w filename) as [e|files] eqn:Hz.
  { rewrite read_result_ReadFile in H. unfold read_result in H. rewrite Hz in H.
    discriminate. }
  exists files. split; [reflexivity|].
  destruct (ReadFile_opened filename w files f Hz H) as [Hr ->].
  intros image Hin. cbn [cbz.Images elems] in Hin.
  apply (Permutation_in _ (Permutation_sym (sort_Slice_perm cbz.by_name _))) in Hin.
  apply in_map_iff in Hin. destruct Hin as (file & <- & Hin).
  pose proof (proj1 (Forall_forall _ _) Hr file Hin) as [data Hd].
  apply filter_In in Hin. destruct Hin as [Hin K].
  pose proof (proj1 (kept_iff file) K) as [Hdir Himg].
  assert (Hne : zf_Name file <> EmptyString).
  { intros E. rewrite E in Himg. unfold cbz.isImageFile in Himg.
    change (filepath.Ext EmptyString) with EmptyString in Himg.
    unfold strings.ToLower in Himg. simpl in Himg. discriminate. }
  assert (Hs : strings.HasSuffix (zf_Name file) "/" = false).
  { unfold zip.IsDir in Hdir. now apply orb_false_iff in Hdir. }
  destruct (Base_split (zf_Name file) Hne Hs) as (dir & Ed & Hdir' & Hfree & Hnb).
  cbn [image_of cbz.Name cbz.Data].
  split; [exact Hnb|]. split; [exact Hfree|].
  exists file, dir. repeat split; try assumption.
  unfold body_data. now rewrite Hd.
Qed.

Lemma ReadFile_names_flat_witness :
  free_of "/"%char (cbz.Name cover_png) = true /\
  exists file dir,
    In file [file_entry "b/Cover.PNG" "P"; file_entry "readme.txt" "T";
             file_entry "a.jpeg" "J"] /\
    zf_Name file = dir ++ "Cover.PNG" /\
    (dir = EmptyString \/ strings.HasSuffix dir "/" = true) /\
    zf_body file = Content (bytes_of "P").
Proof.
  destruct (ReadFile_names_flat stable_runtime "mixed.cbz" (quiet_world mixed_zips)
              {| cbz.File_Name := "mixed.cbz"; cbz.Images := mk_slice [cover_png; a_jpeg] |}
              eq_refl) as (files & Hz & H).
  injection Hz as <-.
  destruct (H cover_png (or_introl eq_refl))
    as (_ & Hfree & file & dir & Hin & _ & Hn & Hdir & Hb).
  split; [exact Hfree|]. exists file, dir. repeat split; assumption.
Defined.

(** * Further properties of the merger *)

Section MergeMore.
Context {rt : GoRuntime}.

Lemma read_all_ReadFile_iff (w : World) (inputFiles : list string) (archives : list cbz.File) :
  read_all (w_zips w) inputFiles archives <->
  Forall2 (fun p a => fst (cbz.ReadFile p w) = Ok a) inputFiles archives.
Proof.
  unfold read_all. split; intros H; induction H; constructor; try assumption.
  - now rewrite read_result_ReadFile.
  - now rewrite <- read_result_ReadFile.
Qed.

Lemma Forall_exists_Forall2 {A B : Type} (R : A -> B -> Prop) (l : list A) :
  Forall (fun a => exists b, R a b) l <-> exists l', Forall2 R l l'.
Proof.
  split.
  - induction 1 as [|a l [b Hb] _ [l' IH]]; [exists []; constructor|].
    exists (b :: l'). now constructor.
  - intros [l' H]. induction H; constructor; [eexists; eassumption | assumption].
Qed.

Lemma unit_result (r : result unit) : r <> Ok tt -> exists e, r = Err e.
Proof. destruct r as [[]|e]; [congruence | now exists e]. Qed.

End MergeMore.

(** X3: when no write fails and no input names the file of the output,
    MergeFiles succeeds exactly when every input, read on its own, is a
    readable archive. *)
Theorem MergeFiles_succeeds_iff :
  forall (rt : GoRuntime) (inputFiles : list string) (outputFile : string) (w : World),
    no_fault (w_faults w) ->
    Forall (fun p => w_file w p <> w_file w outputFile) inputFiles ->
    (fst (cbz.MergeFiles inputFiles outputFile w) = Ok tt <->
     Forall (fun p => exists a, fst (cbz.ReadFile p w) = Ok a) inputFiles).
Proof.
  intros rt inputFiles out w Hnf Hap. split.
  - intros H. destruct (MergeFiles_ok inputFiles out w Hap H) as (archives & Hr & _).
    apply Forall_exists_Forall2. exists archives.
    now apply read_all_ReadFile_iff.
  - intros Hr. apply Forall_exists_Forall2 in Hr. destruct Hr as [archives Hr].
    apply (MergeFiles_no_fault inputFiles out w archives Hnf Hap).
    now apply read_all_ReadFile_iff.
Qed.

Lemma MergeFiles_succeeds_iff_witness :
  fst (cbz.MergeFiles (rt := stable_runtime) ["b.cbz"; "a.cbz"] "all.cbz"
         (quiet_world shelf_zips)) = Ok tt /\
  fst (cbz.MergeFiles (rt := stable_runtime) ["b.cbz"; "lost.cbz"] "all.cbz"
         (quiet_world shelf_zips)) <> Ok tt.
Proof.
  split.
  - apply (proj2 (MergeFiles_succeeds_iff stable_runtime ["b.cbz"; "a.cbz"] "all.cbz"
                    (quiet_world shelf_zips) (Forall_nil _)
                    ltac:(repeat constructor; intros E; discriminate E))).
    repeat constructor; eexists; reflexivity.
  - intros H.
    apply (proj1 (MergeFiles_succeeds_iff stable_runtime ["b.cbz"; "lost.cbz"] "all.cbz"
                    (quiet_world shelf_zips) (Forall_nil _)
                    ltac:(repeat constructor; intros E; discriminate E))) in H.
    inversion H as [|? ? _ H2]. inversion H2 as [|? ? [a Ha] _].
    discriminate Ha.
Defined.

(** X4: MergeFiles creates the output before it reads any input.  So a merge
    whose first input names the file of the output never succeeds, whatever
    that input held: when os.Create has succeeded the file is empty, the
    read of the first input fails with "zip: not a valid zip file", no
    other input is opened and no entry is written.  When no write fails the
    file is afterwards an empty container: the images it held are lost. *)
Theorem MergeFiles_onto_first_input :
  forall (rt : GoRuntime) (p : string) (rest : list string) (outputFile : string) (w : World),
    w_file w p = w_file w outputFile ->
    let r := cbz.MergeFiles (p :: rest) outputFile w in
    match hd None (w_faults w) with
    | Some e => fst r = Err (Errorf "failed to create output file" e)
    | None =>
        fst r = Err (Errorf ("failed to read input file " ++ p)
                       (Errorf "failed to open CBZ file"
                          (LibError "zip: not a valid zip file"))) /\
        w_opened (snd r) = (w_opened w ++ [p])%list /\
        entries_at (snd r) outputFile = [] /\
        (no_fault (w_faults w) -> w_zips (snd r) p = inr [])
    end.
Proof.
  intros rt p rest out w Hp. cbv zeta. rewrite MergeFiles_run.
  assert (Hread : read_result (w_zips (created out w)) p =
                  Err (Errorf "failed to open CBZ file" os.truncated)).
  { unfold read_result, w_zips, created, holding, consumed. cbn.
    now rewrite Hp, String.eqb_refl. }
  destruct (w_faults w) as [|[e|] fs] eqn:Hf; cbn [hd]; try reflexivity;
    rewrite (range_inputFiles_read_error out 0 1 p rest _ _ Hread);
    cbn [closing fst snd]; rewrite opened_closed, entries_at_closed;
    (split; [reflexivity|]); (split; [reflexivity|]);
    (split; [apply entries_at_created|]); intros Hnf;
    unfold closed; cbn [logged w_faults created holding consumed]; rewrite Hf; cbn [tl].
  - unfold w_zips, holding, entries_at, w_written. cbn. now rewrite Hp, !String.eqb_refl.
  - inversion Hnf as [|? ? _ Hnf']; subst.
    destruct fs as [|[e|] fs']; [| inversion Hnf'; discriminate |];
      unfold w_zips, holding, entries_at, w_written; cbn; now rewrite Hp, !String.eqb_refl.
Qed.

Lemma MergeFiles_onto_first_input_witness :
  fst (cbz.MergeFiles (rt := stable_runtime) ["b.cbz"; "a.cbz"] "b.cbz"
         (quiet_world shelf_zips)) =
    Err (Errorf "failed to read input file b.cbz"
           (Errorf "failed to open CBZ file" (LibError "zip: not a valid zip file"))) /\
  w_zips (snd (cbz.MergeFiles (rt := stable_runtime) ["b.cbz"; "a.cbz"] "b.cbz"
                 (quiet_world shelf_zips))) "b.cbz" = inr [].
Proof.
  destruct (MergeFiles_onto_first_input stable_runtime "b.cbz" ["a.cbz"] "b.cbz"
              (quiet_world shelf_zips) eq_refl)
    as (H1 & _ & _ & H4).
  split; [exact H1 | exact (H4 (Forall_nil _))].
Defined.

(** * Further properties of the assembler *)

Lemma firstn_two_more {A : Type} (n : nat) (l : list A) :
  firstn (2 * S n) l = (firstn 2 l ++ firstn (2 * n) (skipn 2 l))%list.
Proof.
  replace (2 * S n) with (S (S (2 * n))) by lia.
  destruct l as [|a [|b l]]; simpl; try reflexivity.
  all: destruct (n + (n + 0)); reflexivity.
Qed.

Lemma first_fault_app (a b : list (option error)) :
  first_fault (a ++ b)%list =
  match first_fault a with
  | Some e => Some e
  | None => first_fault b
  end.
Proof. induction a as [|[e|] a IH]; simpl; [reflexivity | reflexivity | exact IH]. Qed.

Lemma first_fault_none (faults : list (option error)) :
  first_fault faults = None <-> no_fault faults.
Proof.
  unfold no_fault. induction faults as [|[e|] fs IH]; simpl.
  - split; [constructor | reflexivity].
  - split; [discriminate | intros H; inversion H; discriminate].
  - rewrite IH. split; [now constructor | intros H; now inversion H].
Qed.

(** A sequence of puts succeeds exactly when none of its two calls per entry
    fails; otherwise it returns the first failure, wrapped with the message
    of the call that failed. *)
Lemma puts_result (out : string) (ps : list Put) :
  forall w : World,
    match first_fault (firstn (2 * List.length ps) (w_faults w)) with
    | None => fst (puts out ps w) = Ok tt
    | Some cause =>
        exists prefix, In prefix (put_messages ps) /\
                       fst (puts out ps w) = Err (Errorf prefix cause)
    end.
Proof.
  induction ps as [|p ps IH]; intros w; [reflexivity|].
  cbn [List.length]. rewrite firstn_two_more, first_fault_app.
  cbn [puts]. unfold bind.
  pose proof (put_run out p w) as (_ & Hp).
  pose proof (IH (snd (put out p w))) as IH'.
  destruct (put out p w) as [r w1]. cbn [fst snd] in Hp, IH'.
  destruct (w_faults w) as [|[e|] [|[e'|] fs]] eqn:Hf; cbn [tl] in Hp;
    destruct Hp as (-> & Hw1 & _); cbn [firstn first_fault skipn app];
    try (exists (put_create_msg p); split; [now left | reflexivity]);
    try (exists (put_write_msg p); split; [right; now left | reflexivity]);
    rewrite Hw1 in IH'; cbn [tl] in IH'; rewrite ?firstn_nil in IH' |- *;
    cbn [fst];
    match goal with
    | |- match ?x with _ => _ end =>
        destruct x as [cause|];
        [ destruct IH' as (prefix & Hin & E); exists prefix;
          split; [right; right; exact Hin | exact E]
        | exact IH' ]
    end.
Qed.

Lemma image_puts_length (i : nat) (images : list cbz.Image) :
  List.length (image_puts i images) = List.length images.
Proof. revert i. induction images as [|x l IH]; intros i; simpl; [reflexivity | now rewrite IH]. Qed.

Lemma page_puts_length (i : nat) (images : list cbz.Image) :
  List.length (page_puts i images) = List.length images.
Proof. revert i. induction images as [|x l IH]; intros i; simpl; [reflexivity | now rewrite IH]. Qed.

Lemma epub_puts_length (cbzFile : cbz.File) (uuid date : string) :
  2 * List.length (epub_puts cbzFile uuid date) = 4 * len (cbz.Images cbzFile) + 8.
Proof.
  unfold epub_puts, len. rewrite !length_app, image_puts_length, page_puts_length.
  simpl. lia.
Qed.

Lemma put_messages_app (a b : list Put) :
  put_messages (a ++ b)%list = (put_messages a ++ put_messages b)%list.
Proof. apply flat_map_app. Qed.

Lemma image_puts_messages (i : nat) (images : list cbz.Image) (m : string) :
  In m (put_messages (image_puts i images)) ->
  m = "failed to create image file" \/ m = "failed to write image data".
Proof.
  revert i. induction images as [|x l IH]; intros i; simpl; [intros []|].
  intros [<-|[<-|H]]; [now left | now right | exact (IH _ H)].
Qed.

Lemma page_puts_messages (i : nat) (images : list cbz.Image) (m : string) :
  In m (put_messages (page_puts i images)) ->
  m = "failed to create page file" \/ m = "failed to write page content".
Proof.
  revert i. induction images as [|x l IH]; intros i; simpl; [intros []|].
  intros [<-|[<-|H]]; [now left | now right | exact (IH _ H)].
Qed.

Lemma epub_puts_messages (cbzFile : cbz.File) (uuid date m : string) :
  In m (put_messages (epub_puts cbzFile uuid date)) -> In m epub_messages.
Proof.
  unfold epub_puts. rewrite !put_messages_app, !in_app_iff.
  intros [H|[H|[H|H]]].
  - unfold head_puts, put_messages in H. simpl in H. unfold epub_messages. simpl. tauto.
  - apply image_puts_messages in H. destruct H as [-> | ->];
      unfold epub_messages; simpl; auto 20.
  - apply page_puts_messages in H. destruct H as [-> | ->];
      unfold epub_messages; simpl; auto 20.
  - unfold tail_puts, put_messages in H. simpl in H. unfold epub_messages. simpl. tauto.
Qed.

(** X5: ConvertFromCBZ on an archive of n images makes 4n+9 writing calls
    and can fail in no other way: it succeeds exactly when none of the first
    4n+9 outcomes is a failure, and otherwise returns the first of these
    failures, wrapped once with one of its thirteen messages. *)
Theorem ConvertFromCBZ_fails_only_on_writes :
  forall (cbzFile : cbz.File) (outputFile : string) (w : World),
    match first_fault (firstn (4 * len (cbz.Images cbzFile) + 9) (w_faults w)) with
    | None => fst (epub.ConvertFromCBZ cbzFile outputFile w) = Ok tt
    | Some cause =>
        exists prefix,
          In prefix epub_messages /\
          fst (epub.ConvertFromCBZ cbzFile outputFile w) = Err (Errorf prefix cause)
    end.
Proof.
  intros cbzFile out w. rewrite ConvertFromCBZ_run.
  replace (4 * len (cbz.Images cbzFile) + 9) with (S (4 * len (cbz.Images cbzFile) + 8)) by lia.
  pose proof (puts_result out (epub_puts cbzFile (w_uuid w) (w_today w)) (created out w)) as H.
  rewrite epub_puts_length in H.
  change (w_faults (created out w)) with (tl (w_faults w)) in H.
  destruct (w_faults w) as [|[e|] fs]; cbn [firstn first_fault tl closing fst] in H |- *.
  - rewrite firstn_nil in H. exact H.
  - exists "failed to create output file". split; [now left | reflexivity].
  - destruct (first_fault (firstn (4 * len (cbz.Images cbzFile) + 8) fs)) as [cause|];
      [|exact H].
    destruct H as (prefix & Hin & E). exists prefix. split; [|exact E].
    apply (epub_puts_messages cbzFile (w_uuid w) (w_today w)), Hin.
Qed.

Lemma ConvertFile_run {rt : GoRuntime} (i o : string) (w : World) :
  epub.ConvertFile i o w =
  match read_result (w_zips w) i with
  | Ok f =>
      (match fst (epub.ConvertFromCBZ f o (logged i w)) with
       | Ok _ => Ok tt
       | Err e => Err (Errorf "failed to convert to EPUB" e)
       end, snd (epub.ConvertFromCBZ f o (logged i w)))
  | Err e => (Err (Errorf "failed to read CBZ file" e), logged i w)
  end.
Proof.
  unfold epub.ConvertFile, bind, wrapf, ret. rewrite ReadFile_run.
  destruct (read_result (w_zips w) i) as [f|e]; [|reflexivity].
  destruct (epub.ConvertFromCBZ f o (logged i w)) as [[[]|e] w2]; reflexivity.
Qed.

(** X6: ConvertFile reads the archive to the end before it creates the
    output.  When the read fails it returns the error wrapped as "failed to
    read CBZ file" and has done nothing but the open: no container is created
    or changed and no write outcome is consumed.  When it succeeds the output
    holds the container of the archive read.  When no write fails it succeeds
    exactly when the read does, even onto the input's own path. *)
Theorem ConvertFile_reads_first :
  forall (rt : GoRuntime) (inputFile outputFile : string) (w : World),
    (forall e, fst (cbz.ReadFile inputFile w) = Err e ->
       epub.ConvertFile inputFile outputFile w =
       (Err (Errorf "failed to read CBZ file" e), logged inputFile w)) /\
    (fst (epub.ConvertFile inputFile outputFile w) = Ok tt ->
       exists cbzFile,
         fst (cbz.ReadFile inputFile w) = Ok cbzFile /\
         entries_at (snd (epub.ConvertFile inputFile outputFile w)) outputFile =
         epub_entries cbzFile (w_uuid w) (w_today w)) /\
    (no_fault (w_faults w) ->
       (fst (epub.ConvertFile inputFile outputFile w) = Ok tt <->
        exists cbzFile, fst (cbz.ReadFile inputFile w) = Ok cbzFile)).
Proof.
  intros rt i o w.
  rewrite ConvertFile_run, read_result_ReadFile. repeat split.
  - intros e ->. reflexivity.
  - destruct (read_result (w_zips w) i) as [f|e]; [|discriminate].
    cbn [fst snd].
    destruct (fst (epub.ConvertFromCBZ f o (logged i w))) as [[]|e] eqn:C; [|discriminate].
    intros _. exists f. split; [reflexivity|].
    rewrite (ConvertFromCBZ_ok f o (logged i w) C). apply epub_puts_entries.
  - destruct (read_result (w_zips w) i) as [f|e]; [|discriminate].
    intros _. now exists f.
  - intros [f Hf]. rewrite Hf. cbn [fst].
    now rewrite (ConvertFromCBZ_no_fault f o (logged i w) H).
Qed.

Lemma ConvertFile_reads_first_witness :
  epub.ConvertFile (rt := stable_runtime) "lost.cbz" "lost.epub" (quiet_world shelf_zips) =
    (Err (Errorf "failed to read CBZ file" (Errorf "failed to open CBZ file" no_such_file)),
     logged "lost.cbz" (quiet_world shelf_zips)) /\
  fst (epub.ConvertFile (rt := stable_runtime) "a.cbz" "a.cbz" (quiet_world shelf_zips)) = Ok tt.
Proof.
  destruct (ConvertFile_reads_first stable_runtime "lost.cbz" "lost.epub"
              (quiet_world shelf_zips)) as (H1 & _ & _).
  destruct (ConvertFile_reads_first stable_runtime "a.cbz" "a.cbz"
              (quiet_world shelf_zips)) as (_ & _ & H3).
  split.
  - exact (H1 _ eq_refl).
  - apply (proj2 (H3 (Forall_nil _))). eexists. reflexivity.
Defined.

(** ** Order of the merged names *)

Lemma string_compare_app_l (p a b : string) : (p ++ a ?= p ++ b) = (a ?= b).
Proof.
  induction p as [|c p IH]; [reflexivity|].
  simpl. now rewrite ascii_compare_refl.
Qed.

Lemma string_compare_app_lt (a b x y : string) :
  (a ?= b) = Lt -> String.length a = String.length b -> (a ++ x ?= b ++ y) = Lt.
Proof.
  revert b. induction a as [|c a IH]; intros [|d b] H L; simpl in *; try discriminate.
  destruct (c ?= d)%char; [|reflexivity|discriminate].
  apply IH; [exact H | now injection L].
Qed.

Lemma string_ltb_app_l (p a b : string) : String.ltb (p ++ a) (p ++ b) = String.ltb a b.
Proof. unfold String.ltb. now rewrite string_compare_app_l. Qed.

Lemma string_ltb_app_lt (a b x y : string) :
  String.ltb a b = true -> String.length a = String.length b ->
  String.ltb (a ++ x) (b ++ y) = true.
Proof.
  unfold String.ltb. intros H L.
  destruct (a ?= b) eqn:C; try discriminate.
  now rewrite (string_compare_app_lt a b x y C L).
Qed.

(** Below 1000 the three digits of [%03d] grow with the number. *)
Lemma d03_step :
  forallb (fun k => (String.length (fmt.d03 k) =? 3)%nat &&
                    String.ltb (fmt.d03 k) (fmt.d03 (S k))) (seq 0 999) = true.
Proof. vm_compute. reflexivity. Qed.

Lemma d03_length (k : nat) : k < 1000 -> String.length (fmt.d03 k) = 3.
Proof.
  intros H. destruct (Nat.eq_dec k 999) as [->|N]; [reflexivity|].
  pose proof (proj1 (forallb_forall _ _) d03_step k) as S.
  assert (Hin : In k (seq 0 999)) by (apply in_seq; lia).
  apply S in Hin. apply andb_true_iff in Hin. now apply Nat.eqb_eq.
Qed.

Lemma d03_lt (a b : nat) : a < b -> b < 1000 -> String.ltb (fmt.d03 a) (fmt.d03 b) = true.
Proof.
  intros Hab Hb. induction Hab as [|b Hab IH].
  - pose proof (proj1 (forallb_forall _ _) d03_step a) as S.
    assert (Hin : In a (seq 0 999)) by (apply in_seq; lia).
    apply S in Hin. now apply andb_true_iff in Hin.
  - apply (string_ltb_trans _ (fmt.d03 b)); [apply IH; lia|].
    pose proof (proj1 (forallb_forall _ _) d03_step b) as S.
    assert (Hin : In b (seq 0 999)) by (apply in_seq; lia).
    apply S in Hin. now apply andb_true_iff in Hin.
Qed.

Lemma chapter_name_lt (c n c' n' : nat) (e e' : string) :
  c <= c' -> c' < 1000 -> n < n' -> n' < 1000 ->
  String.ltb (chapter_name c n e) (chapter_name c' n' e') = true.
Proof.
  intros Hc Hc' Hn Hn'. unfold chapter_name.
  rewrite string_ltb_app_l.
  destruct (Nat.eq_dec c c') as [<-|N].
  - rewrite string_ltb_app_l.
    change ("_" ++ fmt.d03 n ++ e) with (String "_" (fmt.d03 n ++ e)).
    change ("_" ++ fmt.d03 n' ++ e') with (String "_" (fmt.d03 n' ++ e')).
    unfold String.ltb. simpl. fold (String.ltb (fmt.d03 n ++ e) (fmt.d03 n' ++ e')).
    apply string_ltb_app_lt; [apply d03_lt; lia|].
    rewrite !d03_length; lia.
  - apply string_ltb_app_lt; [apply d03_lt; lia|].
    rewrite !d03_length; lia.
Qed.

(** ** The merged images in order *)

Lemma numbered_from_sorted {A : Type} (Q : A -> A -> Prop) (l : list A) :
  forall n : nat,
    StronglySorted Q l ->
    StronglySorted (fun x y => fst x < fst y /\ Q (snd x) (snd y)) (numbered_from n l) /\
    Forall (fun x => n <= fst x < n + List.length l) (numbered_from n l).
Proof.
  induction l as [|a l IH]; intros n H.
  - split; constructor.
  - rewrite numbered_from_cons. inversion H as [|? ? Hs Hf]; subst.
    destruct (IH (S n) Hs) as [IH1 IH2]. split.
    + constructor; [exact IH1|].
      apply Forall_forall. intros x Hx.
      pose proof (proj1 (Forall_forall _ _) IH2 x Hx) as Hb. cbv beta in Hb. simpl.
      split; [lia|].
      apply (proj1 (Forall_forall _ _) Hf).
      unfold numbered_from in Hx. destruct x as [k b]. now apply in_combine_r in Hx.
    + constructor; [simpl; lia|].
      apply (Forall_impl _ (P := fun x => S n <= fst x < S n + List.length l));
        [|exact IH2].
      intros x Hx. simpl. lia.
Qed.

Lemma chapters_from_sorted (archives : list cbz.File) :
  forall c : nat,
    StronglySorted (fun a b => fst a <= fst b) (chapters_from c archives) /\
    Forall (fun a => c <= fst a < c + List.length archives) (chapters_from c archives).
Proof.
  induction archives as [|a rest IH]; intros c.
  - split; constructor.
  - rewrite chapters_from_cons. destruct (IH (S c)) as [IH1 IH2].
    assert (Hb : Forall (fun x : nat * cbz.Image => c <= fst x < c + List.length (a :: rest))
                   (chapters_from (S c) rest)).
    { apply (Forall_impl _ (P := fun x : nat * cbz.Image =>
                                    S c <= fst x < S c + List.length rest)); [|exact IH2].
      intros x Hx. simpl. lia. }
    induction (elems (cbz.Images a)) as [|image images IHi]; simpl.
    + split; [exact IH1 | exact Hb].
    + destruct IHi as [I1 I2]. split.
      * constructor; [exact I1|].
        apply (Forall_impl _ (P := fun x : nat * cbz.Image =>
                                      c <= fst x < c + List.length (a :: rest)));
          [|exact I2].
        intros x Hx. simpl. lia.
      * constructor; [simpl; lia | exact I2].
Qed.

(** The names of the merged images grow strictly as long as chapters and
    counter stay below 1000. *)
Lemma merged_names_sorted (archives : list cbz.File) :
  List.length archives < 1000 -> total_images archives < 1000 ->
  StronglySorted (fun a b => String.ltb (cbz.Name a) (cbz.Name b) = true)
    (map merged_image (merged archives)).
Proof.
  intros Ha Ht. unfold merged.
  destruct (chapters_from_sorted archives 1) as [C1 C2].
  destruct (numbered_from_sorted _ (chapters_from 1 archives) 1 C1) as [N1 N2].
  rewrite chapters_from_length in N2.
  assert (C3 : Forall (fun x : nat * (nat * cbz.Image) => fst (snd x) < 1000)
                 (numbered_from 1 (chapters_from 1 archives))).
  { apply Forall_forall. intros [k b] Hx. simpl.
    unfold numbered_from in Hx. apply in_combine_r in Hx.
    pose proof (proj1 (Forall_forall _ _) C2 b Hx) as Hb. cbv beta in Hb. lia. }
  induction N1 as [|x l _ IH Hx]; [constructor|].
  inversion N2 as [|? ? Bx Bl]; inversion C3 as [|? ? Cx Cl]; subst.
  cbn [map]. constructor; [now apply IH|].
  apply Forall_forall. intros y Hy. apply in_map_iff in Hy. destruct Hy as (z & <- & Hz).
  pose proof (proj1 (Forall_forall _ _) Hx z Hz) as [L1 L2].
  pose proof (proj1 (Forall_forall _ _) Bl z Hz) as B.
  pose proof (proj1 (Forall_forall _ _) Cl z Hz) as C.
  cbv beta in Bx, B, C, Cx.
  simpl. apply chapter_name_lt; lia.
Qed.

(** A list whose names grow strictly is the one sorted arrangement of its
    elements. *)
Lemma sort_Slice_sorted_names {rt : GoRuntime} (l : list cbz.Image) :
  StronglySorted (fun a b => String.ltb (cbz.Name a) (cbz.Name b) = true) l ->
  sort_Slice cbz.by_name l = l.
Proof.
  intros H. symmetry. apply (sorted_unique cbz.by_name).
  - unfold sorted_by. induction H as [|a l _ IH Ha]; constructor; [exact IH|].
    apply (Forall_impl _ (P := fun b => String.ltb (cbz.Name a) (cbz.Name b) = true));
      [|exact Ha].
    intros b Hb. apply (swo_asym cbz.by_name by_name_swo). exact Hb.
  - apply sort_Slice_sorted, by_name_swo.
  - apply sort_Slice_perm.
  - intros x y Hx Hy H1 H2.
    induction H as [|a l Hs IH Ha]; [destruct Hx|].
    pose proof (proj1 (Forall_forall _ _) Ha) as Ha'.
    destruct Hx as [->|Hx], Hy as [->|Hy].
    + reflexivity.
    + unfold cbz.by_name in H1. rewrite (Ha' y Hy) in H1. discriminate.
    + unfold cbz.by_name in H2. rewrite (Ha' x Hx) in H2. discriminate.
    + now apply IH.
Qed.

(** ** Extensions *)

Lemma Ext_loop_plain (l rest : list ascii) (acc : string) :
  forallb plain l = true ->
  filepath.Ext_loop (l ++ rest)%list acc =
  filepath.Ext_loop rest (string_of_list_ascii (List.rev l) ++ acc).
Proof.
  revert acc. induction l as [|c l IH]; intros acc H; [reflexivity|].
  simpl in H. apply andb_true_iff in H. destruct H as [Hc Hl].
  unfold plain in Hc. apply andb_true_iff in Hc. destruct Hc as [Hs Hd].
  apply negb_true_iff in Hs, Hd.
  simpl. rewrite Hs, Hd, (IH _ Hl), string_of_list_ascii_app, string_app_assoc.
  reflexivity.
Qed.

Lemma plain_free (r : string) :
  free_of "."%char r = true -> free_of "/"%char r = true ->
  forallb plain (list_ascii_of_string r) = true.
Proof.
  unfold free_of. induction r as [|c r IH]; simpl; [reflexivity|].
  intros H1 H2. apply andb_true_iff in H1, H2. destruct H1 as [D1 R1], H2 as [D2 R2].
  rewrite IH by assumption. unfold plain, filepath.IsPathSeparator. now rewrite D1, D2.
Qed.

(** The extension of a name that ends in a dot followed by bytes that are
    neither dots nor slashes. *)
Lemma Ext_app (s r : string) :
  free_of "."%char r = true -> free_of "/"%char r = true ->
  filepath.Ext (s ++ String "." r) = String "." r.
Proof.
  intros H1 H2. unfold filepath.Ext.
  assert (E : list_ascii_of_string (s ++ String "." r) =
              (list_ascii_of_string s ++ "."%char :: list_ascii_of_string r)%list).
  { induction s as [|c s IH]; simpl; [reflexivity | now rewrite IH]. }
  rewrite E, rev_app_distr. simpl. rewrite <- app_assoc.
  rewrite Ext_loop_plain by (apply forallb_rev, plain_free; assumption).
  rewrite rev_involutive, string_of_list_ascii_of_string, string_app_nil_r.
  reflexivity.
Qed.

Lemma Ext_loop_tail (rest : list ascii) :
  forall acc : string,
    free_of "."%char acc = true -> free_of "/"%char acc = true ->
    filepath.Ext_loop rest acc = EmptyString \/
    exists r, filepath.Ext_loop rest acc = String "." r /\
              free_of "."%char r = true /\ free_of "/"%char r = true.
Proof.
  induction rest as [|c rest IH]; intros acc H1 H2; simpl; [now left|].
  destruct (filepath.IsPathSeparator c) eqn:Hs; [now left|].
  destruct (Ascii.eqb_spec c "."%char) as [->|Hd].
  - right. exists acc. now repeat split.
  - apply IH; unfold free_of in *; simpl.
    + rewrite H1. apply Ascii.eqb_neq in Hd. now rewrite Hd.
    + rewrite H2. unfold filepath.IsPathSeparator in Hs. now rewrite Hs.
Qed.

Lemma Ext_tail (path : string) :
  filepath.Ext path = EmptyString \/
  exists r, filepath.Ext path = String "." r /\
            free_of "."%char r = true /\ free_of "/"%char r = true.
Proof. apply Ext_loop_tail; reflexivity. Qed.

(** A name keeps its extension under any prefix. *)
Lemma Ext_prefixed (s path : string) :
  filepath.Ext path <> EmptyString ->
  filepath.Ext (s ++ filepath.Ext path) = filepath.Ext path.
Proof.
  intros H. destruct (Ext_tail path) as [E|(r & E & H1 & H2)]; [congruence|].
  rewrite E. now apply Ext_app.
Qed.

Lemma free_no_suffix (sep : ascii) (s : string) :
  free_of sep s = true -> strings.HasSuffix s (String sep EmptyString) = false.
Proof.
  intros H. destruct (strings.HasSuffix s (String sep EmptyString)) eqn:E; [|reflexivity].
  apply HasSuffix_split in E. rewrite E, free_of_app in H.
  apply andb_true_iff in H. destruct H as [_ H].
  unfold free_of in H. simpl in H. now rewrite Ascii.eqb_refl in H.
Qed.

Lemma Base_free (s : string) :
  s <> EmptyString -> free_of "/"%char s = true -> filepath.Base s = s.
Proof.
  intros Hne Hf.
  destruct (Base_split s Hne (free_no_suffix _ _ Hf)) as (dir & E & [->|Hd] & _).
  - now rewrite E at 2.
  - exfalso. apply HasSuffix_split in Hd. rewrite E, Hd, !free_of_app in Hf.
    apply andb_true_iff in Hf. destruct Hf as [Hf _].
    apply andb_true_iff in Hf. destruct Hf as [_ Hf].
    unfold free_of in Hf. simpl in Hf. discriminate.
Qed.

Section RoundTrip.
Context {rt : GoRuntime}.

Lemma isImageFile_Ext (a b : string) :
  filepath.Ext a = filepath.Ext b ->
  cbz.isImageFile a = cbz.isImageFile b /\ cbz.getMimeType a = cbz.getMimeType b.
Proof. unfold cbz.isImageFile, cbz.getMimeType. now intros ->. Qed.

Lemma isImageFile_has_Ext (name : string) :
  cbz.isImageFile name = true -> filepath.Ext name <> EmptyString.
Proof.
  unfold cbz.isImageFile. intros H E. rewrite E in H.
  unfold strings.ToLower in H. simpl in H. discriminate.
Qed.

(** What ReadFile returns holds only images whose own name has an image
    extension and gives their MIME type. *)
Lemma read_result_images (zips : string -> error + list ZipFile) (p : string) (a : cbz.File) :
  read_result zips p = Ok a ->
  forall image, In image (elems (cbz.Images a)) ->
    cbz.isImageFile (cbz.Name image) = true /\
    cbz.getMimeType (cbz.Name image) = cbz.MimeType image.
Proof.
  unfold read_result. destruct (zips p) as [e|files]; [discriminate|].
  destruct (collect files (mk_slice [])) as [s|e] eqn:C; [|discriminate].
  intros [= <-] image Hin.
  apply collect_ok in C. destruct C as [-> _].
  cbn [cbz.Images sort.Slice elems app] in Hin.
  apply (Permutation_in _ (Permutation_sym (sort_Slice_perm cbz.by_name _))) in Hin.
  apply in_map_iff in Hin. destruct Hin as (file & <- & Hin).
  apply filter_In in Hin. destruct Hin as [_ K].
  destruct (kept_image file K) as [Hi He].
  destruct (isImageFile_Ext _ _ He) as [E1 E2].
  split; [now rewrite E1 | exact E2].
Qed.

Lemma read_all_images (zips : string -> error + list ZipFile) (inputFiles : list string)
    (archives : list cbz.File) :
  read_all zips inputFiles archives ->
  forall c x, In x (chapters_from c archives) ->
    cbz.isImageFile (cbz.Name (snd x)) = true /\
    cbz.getMimeType (cbz.Name (snd x)) = cbz.MimeType (snd x).
Proof.
  unfold read_all. induction 1 as [|p a ps archives Hr _ IH]; intros c x Hx.
  - destruct Hx.
  - rewrite chapters_from_cons in Hx. apply in_app_iff in Hx. destruct Hx as [Hx|Hx].
    + apply in_map_iff in Hx. destruct Hx as (image & <- & Hin).
      exact (read_result_images zips p a Hr image Hin).
    + exact (IH (S c) x Hx).
Qed.

Lemma chapter_name_free (c n : nat) (path : string) :
  free_of "/"%char (chapter_name c n (filepath.Ext path)) = true.
Proof.
  unfold chapter_name. rewrite !free_of_app.
  rewrite (digits_free "/"%char (fmt.d03 c) eq_refl (d03_digits c)).
  rewrite (digits_free "/"%char (fmt.d03 n) eq_refl (d03_digits n)).
  destruct (Ext_tail path) as [->|(r & -> & _ & H)]; [reflexivity|].
  unfold free_of in H |- *. simpl. now rewrite H.
Qed.

(** Read back, the entry of a merged image is kept and gives the image
    under its new name. *)
Lemma merged_entry_back (x : nat * (nat * cbz.Image)) :
  cbz.isImageFile (cbz.Name (snd (snd x))) = true ->
  cbz.getMimeType (cbz.Name (snd (snd x))) = cbz.MimeType (snd (snd x)) ->
  kept (zip.as_zip (merged_entry x)) = true /\
  image_of (zip.as_zip (merged_entry x)) = merged_image x.
Proof.
  intros Hi Hm. destruct x as [n [c image]]. cbn [fst snd] in *.
  pose proof (isImageFile_has_Ext _ Hi) as Hne.
  pose proof (chapter_name_free c n (cbz.Name image)) as Hf.
  assert (He : filepath.Ext (chapter_name c n (filepath.Ext (cbz.Name image))) =
               filepath.Ext (cbz.Name image)).
  { unfold chapter_name. rewrite <- !string_app_assoc. now apply Ext_prefixed. }
  destruct (isImageFile_Ext _ _ He) as [E1 E2].
  assert (Hn : chapter_name c n (filepath.Ext (cbz.Name image)) <> EmptyString)
    by (unfold chapter_name; discriminate).
  split.
  - apply kept_iff. split.
    + unfold zip.IsDir. cbn [zip.as_zip zf_dir_attr zf_Name merged_entry chapter_entry e_Name fst snd].
      now rewrite (free_no_suffix "/"%char _ Hf).
    + cbn [zip.as_zip zf_Name merged_entry chapter_entry e_Name fst snd]. now rewrite E1.
  - unfold image_of, merged_image, body_data.
    cbn [zip.as_zip zf_Name zf_body merged_entry chapter_entry e_Name e_Data fst snd].
    rewrite (Base_free _ Hn Hf), E2, Hm. reflexivity.
Qed.

End RoundTrip.

(** X7: a merge read back.  When MergeFiles has succeeded on fewer than 1000
    inputs, none of which names the file of the output, with fewer than 1000
    images in all, and the container it wrote is read back as it was
    written, ReadFile returns every image of every input, in the order of
    the merge, under its new name and with its bytes and its MIME type. *)
Theorem merge_then_read :
  forall (rt : GoRuntime) (inputFiles : list string) (outputFile : string) (w : World),
    Forall (fun p => w_file w p <> w_file w outputFile) inputFiles ->
    fst (cbz.MergeFiles inputFiles outputFile w) = Ok tt ->
    List.length inputFiles < 1000 ->
    List.length (entries_at (snd (cbz.MergeFiles inputFiles outputFile w)) outputFile) < 1000 ->
    exists archives,
      Forall2 (fun p a => fst (cbz.ReadFile p w) = Ok a) inputFiles archives /\
      fst (cbz.ReadFile outputFile
             (reread outputFile (snd (cbz.MergeFiles inputFiles outputFile w)))) =
      Ok {| cbz.File_Name := outputFile;
            cbz.Images :=
              mk_slice
                (map (fun x =>
                        {| cbz.Name := "chapter" ++ fmt.d03 (fst (snd x)) ++ "_" ++
                                       fmt.d03 (fst x) ++
                                       filepath.Ext (cbz.Name (snd (snd x)));
                           cbz.Data := cbz.Data (snd (snd x));
                           cbz.MimeType := cbz.MimeType (snd (snd x)) |})
                     (merged archives)) |}.
Proof.
  intros rt inputFiles out w Hap Hok Hlen Htot.
  destruct (MergeFiles_ok inputFiles out w Hap Hok) as (archives & Hr & Hw).
  exists archives. split; [now apply read_all_ReadFile_iff|].
  rewrite Hw in Htot. unfold merged in Htot.
  rewrite length_map, numbered_from_length, chapters_from_length in Htot.
  assert (Ha : List.length archives < 1000).
  { unfold read_all in Hr. now rewrite <- (Forall2_length Hr). }
  set (w' := snd (cbz.MergeFiles inputFiles out w)) in *.
  assert (Hz : w_zips (reread out w') out = inr (map zip.as_zip (map merged_entry (merged archives)))).
  { unfold reread, w_zips. cbn. now rewrite String.eqb_refl, Hw. }
  assert (Hback : forall x, In x (merged archives) ->
                    kept (zip.as_zip (merged_entry x)) = true /\
                    image_of (zip.as_zip (merged_entry x)) = merged_image x).
  { intros [n b] Hx. unfold merged, numbered_from in Hx. apply in_combine_r in Hx.
    destruct (read_all_images _ _ _ Hr 1 b Hx) as [Hi Hm].
    now apply merged_entry_back. }
  assert (Hret : retained (map zip.as_zip (map merged_entry (merged archives))) =
                 map zip.as_zip (map merged_entry (merged archives))).
  { unfold retained. rewrite map_map.
    assert (G : forall l : list (nat * (nat * cbz.Image)),
                (forall x, In x l -> kept (zip.as_zip (merged_entry x)) = true) ->
                filter kept (map (fun x => zip.as_zip (merged_entry x)) l) =
                map (fun x => zip.as_zip (merged_entry x)) l).
    { induction l as [|x l IH]; intros Hl; [reflexivity|].
      cbn [map filter]. rewrite (Hl x (or_introl eq_refl)).
      f_equal. apply IH. intros y Hy. apply Hl. now right. }
    apply G. intros x Hx. exact (proj1 (Hback x Hx)). }
  rewrite (ReadFile_readable out (reread out w') _ Hz).
  2:{ rewrite Hret. apply Forall_forall. intros f Hf.
      apply in_map_iff in Hf. destruct Hf as (e & <- & _). now exists (e_Data e). }
  rewrite Hret. do 3 f_equal.
  assert (Him : map image_of (map zip.as_zip (map merged_entry (merged archives))) =
                map merged_image (merged archives)).
  { rewrite !map_map. apply map_ext_in. intros x Hx. exact (proj2 (Hback x Hx)). }
  rewrite Him.
  apply (sort_Slice_sorted_names (map merged_image (merged archives))).
  now apply merged_names_sorted.
Qed.

Lemma merge_then_read_witness :
  exists archives,
    Forall2 (fun p a => fst (cbz.ReadFile (rt := stable_runtime) p
                               (quiet_world shelf_zips)) = Ok a)
            ["b.cbz"; "a.cbz"] archives /\
    fst (cbz.ReadFile (rt := stable_runtime) "all.cbz"
           (reread "all.cbz"
              (snd (cbz.MergeFiles (rt := stable_runtime) ["b.cbz"; "a.cbz"] "all.cbz"
                      (quiet_world shelf_zips))))) =
    Ok {| cbz.File_Name := "all.cbz";
          cbz.Images :=
            mk_slice
              (map (fun x =>
                      {| cbz.Name := "chapter" ++ fmt.d03 (fst (snd x)) ++ "_" ++
                                     fmt.d03 (fst x) ++
                                     filepath.Ext (cbz.Name (snd (snd x)));
                         cbz.Data := cbz.Data (snd (snd x));
                         cbz.MimeType := cbz.MimeType (snd (snd x)) |})
                   (merged archives)) |}.
Proof.
  refine (merge_then_read stable_runtime ["b.cbz"; "a.cbz"] "all.cbz"
            (quiet_world shelf_zips) _ _ _ _).
  - repeat constructor; intros E; discriminate E.
  - vm_compute. reflexivity.
  - apply Nat.ltb_lt. vm_compute. reflexivity.
  - apply Nat.ltb_lt. vm_compute. reflexivity.
Defined.

(** *** The manifest *)

Lemma quotable_dq (s : string) : quotable s = true -> free_of (ascii_of_nat 34) s = true.
Proof. unfold quotable. intros H. now apply andb_true_iff in H. Qed.

Lemma quotable_nl (s : string) : quotable s = true -> free_of (ascii_of_nat 10) s = true.
Proof. unfold quotable. intros H. now apply andb_true_iff in H. Qed.

Lemma image_line_split (x : nat * cbz.Image) : image_line x = image_item_text x ++ nl.
Proof.
  unfold image_line, epub.image_item, image_item_text, image_id, image_href.
  now rewrite !string_app_assoc.
Qed.

Lemma page_line_split (x : nat * cbz.Image) : page_line x = page_item_text (fst x) ++ nl.
Proof.
  unfold page_line, epub.page_item, page_item_text, page_id, page_href.
  now rewrite !string_app_assoc.
Qed.

Lemma image_id_free (sep : ascii) (k : nat) :
  is_digit sep = false -> free_of sep "image" = true -> free_of sep (image_id k) = true.
Proof.
  intros Hd Hs. unfold image_id. rewrite free_of_app, Hs.
  apply digits_free; [exact Hd | apply d03_digits].
Qed.

Lemma image_href_free (sep : ascii) (x : nat * cbz.Image) :
  is_digit sep = false -> free_of sep "images/image" = true ->
  free_of sep (filepath.Ext (cbz.Name (snd x))) = true ->
  free_of sep (image_href x) = true.
Proof.
  intros Hd Hs He. unfold image_href, image_file.
  change ("images/" ++ "image" ++ fmt.d03 (fst x) ++ filepath.Ext (cbz.Name (snd x)))
    with ("images/image" ++ fmt.d03 (fst x) ++ filepath.Ext (cbz.Name (snd x))).
  rewrite !free_of_app, Hs, He, (digits_free sep _ Hd (d03_digits _)). reflexivity.
Qed.

Lemma page_id_free (sep : ascii) (k : nat) :
  is_digit sep = false -> free_of sep "page" = true -> free_of sep (page_id k) = true.
Proof.
  intros Hd Hs. unfold page_id. rewrite free_of_app, Hs.
  apply digits_free; [exact Hd | apply d03_digits].
Qed.

Lemma page_href_free (sep : ascii) (k : nat) :
  is_digit sep = false -> free_of sep "pages/page.xhtml" = true ->
  free_of sep (page_href k) = true.
Proof.
  intros Hd Hs. unfold page_href, page_file.
  change ("pages/" ++ "page" ++ fmt.d03 k ++ ".xhtml")
    with ("pages/page" ++ fmt.d03 k ++ ".xhtml").
  rewrite !free_of_app, (digits_free sep _ Hd (d03_digits _)).
  unfold free_of in Hs |- *. simpl in Hs |- *.
  repeat (apply andb_true_iff in Hs; destruct Hs as [? Hs]).
  repeat (apply andb_true_iff; split); assumption.
Qed.

Section ManifestLines.
Variable x : nat * cbz.Image.
Hypothesis ext_ok : quotable (filepath.Ext (cbz.Name (snd x))) = true.
Hypothesis mime_ok : quotable (cbz.MimeType (snd x)) = true.

Lemma image_item_text_free : free_of (ascii_of_nat 10) (image_item_text x) = true.
Proof.
  unfold image_item_text, q. rewrite !free_of_app.
  rewrite (image_id_free (ascii_of_nat 10) (fst x) eq_refl eq_refl).
  rewrite (image_href_free (ascii_of_nat 10) x eq_refl eq_refl (quotable_nl _ ext_ok)).
  rewrite (quotable_nl _ mime_ok). reflexivity.
Qed.

Lemma image_item_text_item : item_of (image_item_text x) = Some (image_item_of x).
Proof.
  unfold item_of, image_item_text, q.
  rewrite !string_app_assoc, !fields_app.
  rewrite (fields_free "    <item id=") by reflexivity.
  rewrite (fields_free (image_id (fst x))) by (now apply image_id_free).
  rewrite (fields_free " href=") by reflexivity.
  rewrite (fields_free (image_href x))
    by (apply image_href_free; [reflexivity | reflexivity | apply quotable_dq, ext_ok]).
  rewrite (fields_free " media-type=") by reflexivity.
  rewrite (fields_free (cbz.MimeType (snd x))) by (apply quotable_dq, mime_ok).
  rewrite (fields_free "/>") by reflexivity.
  reflexivity.
Qed.

End ManifestLines.

Lemma page_item_text_free (k : nat) : free_of (ascii_of_nat 10) (page_item_text k) = true.
Proof.
  unfold page_item_text, q. rewrite !free_of_app.
  rewrite (page_id_free (ascii_of_nat 10) k eq_refl eq_refl),
    (page_href_free (ascii_of_nat 10) k eq_refl eq_refl).
  reflexivity.
Qed.

Lemma page_item_text_item (k : nat) : item_of (page_item_text k) = Some (page_item_of k).
Proof.
  unfold item_of, page_item_text, q.
  rewrite !string_app_assoc, !fields_app.
  rewrite (fields_free "    <item id=") by reflexivity.
  rewrite (fields_free (page_id k)) by (now apply page_id_free).
  rewrite (fields_free " href=") by reflexivity.
  rewrite (fields_free (page_href k)) by (now apply page_href_free).
  rewrite (fields_free " media-type=") by reflexivity.
  rewrite (fields_free "application/xhtml+xml") by reflexivity.
  rewrite (fields_free "/>") by reflexivity.
  reflexivity.
Qed.

Lemma lines_image_lines (images : list cbz.Image) (rest : string) :
  images_quotable images ->
  forall i : nat,
    lines (image_lines i images ++ rest) =
    (map image_item_text (numbered_from (i + 1) images) ++ lines rest)%list.
Proof.
  induction 1 as [|image images [He Hm] _ IH]; intros i; [reflexivity|].
  cbn [image_lines]. rewrite numbered_from_cons. cbn [map].
  rewrite image_line_split, !string_app_assoc, lines_app.
  rewrite (lines_free _ (image_item_text_free (i + 1, image) He Hm)).
  rewrite IH, (Nat.add_1_r (i + 1)). reflexivity.
Qed.

Lemma lines_page_lines (images : list cbz.Image) (rest : string) :
  forall i : nat,
    lines (page_lines i images ++ rest) =
    (map page_item_text (seq (i + 1) (List.length images)) ++ lines rest)%list.
Proof.
  induction images as [|image images IH]; intros i; [reflexivity|].
  cbn [page_lines List.length seq map].
  rewrite page_line_split, !string_app_assoc, lines_app.
  cbn [fst]. rewrite (lines_free _ (page_item_text_free (i + 1))).
  rewrite IH, (Nat.add_1_r (i + 1)). reflexivity.
Qed.

Lemma read_items_texts (xs : list (nat * cbz.Image)) (ks : list nat) (rest : list string) :
  images_quotable (map snd xs) ->
  read_items (map image_item_text xs ++ map page_item_text ks ++ "  </manifest>" :: rest)%list =
  Some (map image_item_of xs ++ map page_item_of ks)%list.
Proof.
  intros H. induction xs as [|x xs IH].
  - cbn [map List.app]. induction ks as [|k ks IHk]; [reflexivity|].
    cbn [map List.app read_items].
    change (page_item_text k =? "  </manifest>") with false. cbv iota.
    now rewrite page_item_text_item, IHk.
  - cbn [map] in H. inversion H as [|? ? [He Hm] Hr]; subst.
    cbn [map List.app read_items].
    change (image_item_text x =? "  </manifest>") with false. cbv iota.
    now rewrite (image_item_text_item x He Hm), (IH Hr).
Qed.

Lemma numbered_from_snd {A : Type} (n : nat) (l : list A) :
  map snd (numbered_from n l) = l.
Proof.
  unfold numbered_from. revert n. induction l as [|a l IH]; intros n; [reflexivity|].
  simpl. now rewrite IH.
Qed.

(** The manifest of the generated content.opf: the navigation document, then
    the images, then the pages. *)
Lemma manifest_of_opf_text (cbzFile : cbz.File) (uuid date : string) :
  images_quotable (elems (cbz.Images cbzFile)) ->
  manifest_of (opf_text cbzFile uuid date) =
  Some (manifest_items (elems (cbz.Images cbzFile))).
Proof.
  intros H. unfold manifest_of, opf_text, manifest_items.
  change ("  <spine toc=" ++ q "ncx" ++ ">" ++ nl) with (spine_line ++ nl).
  rewrite opf_head_split, !string_app_assoc. rewrite lines_app.
  rewrite lines_app. rewrite (lines_free "  <manifest>") by reflexivity.
  rewrite lines_app. rewrite (lines_free ncx_item) by reflexivity.
  rewrite (lines_image_lines _ _ H 0), lines_page_lines, lines_app.
  rewrite (lines_free "  </manifest>") by reflexivity.
  rewrite lines_app. rewrite (lines_free spine_line) by reflexivity.
  rewrite lines_spine_lines.
  change (lines ("  </spine>" ++ nl ++ "</package>")) with ["  </spine>"; "</package>"].
  cbn [List.app].
  rewrite after_last_found.
  - cbn [read_items]. change (ncx_item =? "  </manifest>") with false. cbv iota.
    change (item_of ncx_item) with (Some ("ncx", "toc.ncx", "application/x-dtbncx+xml")).
    rewrite read_items_texts by (now rewrite numbered_from_snd).
    reflexivity.
  - intros Hin. destruct Hin as [E|Hin]; [discriminate E|].
    apply in_app_or in Hin. destruct Hin as [Hin|Hin].
    { apply in_map_iff in Hin. destruct Hin as (x & E & _).
      apply String.eqb_eq in E. discriminate E. }
    apply in_app_or in Hin. destruct Hin as [Hin|Hin].
    { apply in_map_iff in Hin. destruct Hin as (k & E & _).
      apply String.eqb_eq in E. discriminate E. }
    destruct Hin as [E|[E|Hin]]; try discriminate E.
    apply in_app_or in Hin. destruct Hin as [Hin|Hin].
    { apply in_map_iff in Hin. destruct Hin as (k & E & _).
      apply String.eqb_eq in E. discriminate E. }
    simpl in Hin. destruct Hin as [E|[E|[]]]; discriminate E.
Qed.

Lemma epub_entries_names (cbzFile : cbz.File) (uuid date : string) :
  map e_Name (epub_entries cbzFile uuid date) =
  ("mimetype" :: "META-INF/container.xml" ::
   map (fun it : string * string * string => ("OEBPS/" ++ snd (fst it))%string)
       (tl (manifest_items (elems (cbz.Images cbzFile)))) ++
   ["OEBPS/content.opf"; "OEBPS/toc.ncx"])%list.
Proof.
  unfold epub_entries, manifest_items. cbn [tl List.app map].
  rewrite !map_app, !map_map, <- !app_assoc. cbn [map List.app]. do 2 f_equal.
  apply f_equal2; [apply map_ext; intros x; reflexivity|].
  apply f_equal2; [|reflexivity].
  rewrite <- (numbered_from_fst 1 (elems (cbz.Images cbzFile))), map_map.
  apply map_ext. intros x. reflexivity.
Qed.

Lemma NoDup_map_injective {A B : Type} (f : A -> B) (l : list A) :
  (forall a b, f a = f b -> a = b) -> NoDup l -> NoDup (map f l).
Proof.
  intros Hf. induction 1 as [|a l Ha _ IH]; simpl; constructor; [|exact IH].
  intros Hin. apply in_map_iff in Hin. destruct Hin as (b & E & Hb).
  apply Hf in E. now subst.
Qed.

Lemma manifest_ids_NoDup (images : list cbz.Image) :
  NoDup (map (fun it : string * string * string => fst (fst it)) (manifest_items images)).
Proof.
  unfold manifest_items. cbn [map]. rewrite map_app, !map_map. cbn [fst].
  constructor.
  - intros Hin. apply in_app_or in Hin. destruct Hin as [Hin|Hin];
      apply in_map_iff in Hin; destruct Hin as (x & E & _); discriminate E.
  - apply NoDup_app.
    + apply (NoDup_map_by_fst (fun x : nat * cbz.Image => image_id (fst x))).
      * rewrite numbered_from_fst. apply seq_NoDup.
      * intros x y _ _ E. unfold image_id in E.
        apply string_app_inv_head in E. now apply d03_inj.
    + apply NoDup_map_injective; [|apply seq_NoDup].
      intros a b E. unfold page_id in E. apply string_app_inv_head in E.
      now apply d03_inj.
    + intros id H1 H2. apply in_map_iff in H1, H2.
      destruct H1 as (x & <- & _), H2 as (k & E & _). discriminate E.
Qed.

(** X8: the manifest of a successful conversion.  When the extensions and
    MIME types of the images hold no double quote and no line feed, the
    manifest of content.opf lists the navigation document, then every image
    under its type, then every page; its ids are distinct; its hrefs, taken
    relative to OEBPS/, are exactly the entries of the container other than
    mimetype, META-INF/container.xml and content.opf itself; and every idref
    of the spine is the id of a page item of the manifest. *)
Theorem manifest_lists_container :
  forall (cbzFile : cbz.File) (outputFile : string) (w : World),
    fst (epub.ConvertFromCBZ cbzFile outputFile w) = Ok tt ->
    Forall (fun image => quotable (filepath.Ext (cbz.Name image)) = true /\
                         quotable (cbz.MimeType image) = true)
           (elems (cbz.Images cbzFile)) ->
    let images := elems (cbz.Images cbzFile) in
    let written := entries_at (snd (epub.ConvertFromCBZ cbzFile outputFile w)) outputFile in
    exists opf items spine,
      option_map text_of (entry_named "OEBPS/content.opf" written) = Some opf /\
      manifest_of opf = Some items /\
      spine_of opf = Some spine /\
      items =
        (("ncx", "toc.ncx", "application/x-dtbncx+xml") ::
         map (fun x => (("image" ++ fmt.d03 (fst x))%string,
                        ("images/image" ++ fmt.d03 (fst x) ++
                         filepath.Ext (cbz.Name (snd x)))%string,
                        cbz.MimeType (snd x)))
             (numbered_from 1 images) ++
         map (fun k => (("page" ++ fmt.d03 k)%string,
                        ("pages/page" ++ fmt.d03 k ++ ".xhtml")%string,
                        "application/xhtml+xml"))
             (seq 1 (List.length images)))%list /\
      NoDup (map (fun it : string * string * string => fst (fst it)) items) /\
      Permutation
        (map e_Name written)
        ("mimetype" :: "META-INF/container.xml" :: "OEBPS/content.opf" ::
         map (fun it : string * string * string => "OEBPS/" ++ snd (fst it)) items) /\
      (forall id, In id spine ->
         In (id, "pages/" ++ id ++ ".xhtml", "application/xhtml+xml") items).
Proof.
  intros cbzFile out w Hok Hq. cbv zeta.
  rewrite (ConvertFromCBZ_ok _ _ _ Hok), epub_puts_entries.
  exists (opf_text cbzFile (w_uuid w) (w_today w)),
         (manifest_items (elems (cbz.Images cbzFile))),
         (map page_id (seq 1 (len (cbz.Images cbzFile)))).
  rewrite entry_named_opf. simpl option_map. unfold opf_entry. rewrite text_of_bytes.
  split; [reflexivity|].
  split; [now apply manifest_of_opf_text|].
  split; [apply (spine_of_opf_text cbzFile)|].
  split; [reflexivity|].
  split; [apply manifest_ids_NoDup|].
  split.
  - rewrite epub_entries_names. unfold manifest_items. cbn [tl map snd fst].
    do 2 apply perm_skip.
    set (hrefs := map (fun it : string * string * string => "OEBPS/" ++ snd (fst it)) _).
    change ("OEBPS/" ++ "toc.ncx") with "OEBPS/toc.ncx".
    apply (Permutation_app_comm hrefs ["OEBPS/content.opf"; "OEBPS/toc.ncx"]).
  - intros id Hin. apply in_map_iff in Hin. destruct Hin as (k & <- & Hk).
    unfold manifest_items. right. apply in_or_app. right.
    apply in_map_iff. exists k. split; [reflexivity | exact Hk].
Qed.

Lemma manifest_lists_container_witness :
  exists opf items spine,
    option_map text_of
      (entry_named "OEBPS/content.opf"
         (entries_at (snd (epub.ConvertFromCBZ three_pages "one.epub"
                             (quiet_world shelf_zips))) "one.epub")) = Some opf /\
    manifest_of opf = Some items /\
    spine_of opf = Some spine /\
    items =
      [("ncx", "toc.ncx", "application/x-dtbncx+xml");
       ("image001", "images/image001.jpg", "image/jpeg");
       ("image002", "images/image002", "image/png");
       ("image003", "images/image003.GIF", "image/gif");
       ("page001", "pages/page001.xhtml", "application/xhtml+xml");
       ("page002", "pages/page002.xhtml", "application/xhtml+xml");
       ("page003", "pages/page003.xhtml", "application/xhtml+xml")].
Proof.
  destruct (manifest_lists_container three_pages "one.epub" (quiet_world shelf_zips) eq_refl)
    as (opf & items & spine & H1 & H2 & H3 & H4 & _).
  - repeat constructor.
  - exists opf, items, spine. repeat split; assumption.
Defined.

(** * Properties of the commands *)

Lemma Dir_induction (P : Dir -> Prop) :
  (forall e, P (mkDir (inl e))) ->
  (forall entries,
     (forall name subdir, In (name, Some subdir) entries -> P subdir) ->
     P (mkDir (inr entries))) ->
  forall dir, P dir.
Proof.
  intros Herr Hlist. fix IH 1. intros [[e|entries]]; [apply Herr|]. apply Hlist.
  induction entries as [|[n [s|]] rest IHl]; intros name subdir Hin.
  - destruct Hin.
  - destruct Hin as [E|Hin]; [injection E as _ <-; apply IH | exact (IHl name subdir Hin)].
  - destruct Hin as [E|Hin]; [discriminate E | exact (IHl name subdir Hin)].
Qed.

Lemma said_said (a b : list Output) (h : Host) : said b (said a h) = said (a ++ b) h.
Proof. unfold said. simpl. now rewrite app_assoc. Qed.

Lemma say_run (o : Output) (h : Host) : say o h = (tt, said [o] h).
Proof. reflexivity. Qed.

Section CommandFacts.
Context {rt : GoRuntime}.

Lemma printUsage_run (h : Host) : cbz2epub.printUsage h = (tt, said usage h).
Proof.
  unfold cbz2epub.printUsage, bindH, fmt_Println, flag_PrintDefaults.
  rewrite !say_run, !said_said. reflexivity.
Qed.

Lemma reject_empty (h : Host) :
  (log_Println "No input files specified" ;;;
   cbz2epub.printUsage ;;;
   retH (Some (LibError "no input files specified"))) h =
  (Some (LibError "no input files specified"),
   said (Logged ("No input files specified" ++ nl) :: usage) h).
Proof.
  unfold bindH, log_Println. rewrite say_run, printUsage_run, said_said. reflexivity.
Qed.

End CommandFacts.

(** X9: both commands refuse an empty list of input files before they touch
    anything: they log "No input files specified", print the usage and
    return the error "no input files specified"; no archive is opened and no
    file is created. *)
Theorem commands_reject_empty_input :
  forall (rt : GoRuntime) (config : cbz2epub.Config) (h : Host),
    elems (cbz2epub.InputFiles config) = [] ->
    cbz2epub.handleMergeCommand config h =
      (Some (LibError "no input files specified"),
       said (Logged ("No input files specified" ++ nl) :: usage) h) /\
    cbz2epub.handleConvertCommand config h =
      (Some (LibError "no input files specified"),
       said (Logged ("No input files specified" ++ nl) :: usage) h) /\
    h_world (said (Logged ("No input files specified" ++ nl) :: usage) h) = h_world h.
Proof.
  intros rt config h He.
  unfold cbz2epub.handleMergeCommand, cbz2epub.handleConvertCommand, len.
  rewrite He. cbn [List.length Nat.eqb]. rewrite reject_empty. repeat split.
Qed.

Lemma commands_reject_empty_input_witness :
  fst (cbz2epub.handleMergeCommand (rt := stable_runtime) (plain_config []) shelf_host) =
    Some (LibError "no input files specified") /\
  fst (cbz2epub.handleConvertCommand (rt := stable_runtime) (plain_config []) shelf_host) =
    Some (LibError "no input files specified").
Proof.
  destruct (commands_reject_empty_input stable_runtime (plain_config []) shelf_host eq_refl)
    as (H1 & H2 & _).
  rewrite H1, H2. split; reflexivity.
Defined.

(** ** handleMergeCommand *)

Lemma string_ltb_swo : StrictWeakOrder String.ltb.
Proof.
  constructor; [exact string_ltb_irrefl | exact string_ltb_trans | exact string_ltb_incomp].
Qed.

(** Sorting strings does not depend on the order they come in. *)
Lemma sort_Slice_strings {rt : GoRuntime} (l l' : list string) :
  Permutation l l' -> sort_Slice String.ltb l = sort_Slice String.ltb l'.
Proof.
  intros HP. apply (sorted_unique String.ltb).
  - apply sort_Slice_sorted, string_ltb_swo.
  - apply sort_Slice_sorted, string_ltb_swo.
  - rewrite <- (sort_Slice_perm String.ltb l), <- (sort_Slice_perm String.ltb l'). exact HP.
  - intros x y _ _. apply string_ltb_antisym.
Qed.

Lemma length_zero_false {A : Type} (l : list A) : l <> [] -> (List.length l =? 0)%nat = false.
Proof. destruct l; [congruence | reflexivity]. Qed.

(** X10: handleMergeCommand merges its inputs in the increasing byte-wise
    order of their paths, whatever the order on the command line: it returns
    the error of MergeFiles on the sorted paths and the output path (the
    path merged.cbz when none is given) and leaves the world MergeFiles
    leaves; and a configuration that differs only in the order of the inputs
    gives the same result, the same files and the same messages. *)
Theorem handleMergeCommand_sorts_inputs :
  forall (rt : GoRuntime) (config : cbz2epub.Config) (h : Host)
         (inputFiles inputFiles' : list string),
    cbz2epub.InputFiles config = mk_slice inputFiles ->
    inputFiles <> [] ->
    Permutation inputFiles inputFiles' ->
    let outputFile :=
      if cbz2epub.OutputFile config =? EmptyString
      then "merged.cbz" else cbz2epub.OutputFile config in
    exists sorted,
      Permutation inputFiles sorted /\
      sorted_by String.ltb sorted /\
      fst (cbz2epub.handleMergeCommand config h) =
        error_of (fst (cbz.MergeFiles sorted outputFile (h_world h))) /\
      h_world (snd (cbz2epub.handleMergeCommand config h)) =
        snd (cbz.MergeFiles sorted outputFile (h_world h)) /\
      cbz2epub.handleMergeCommand (with_inputs config inputFiles') h =
        cbz2epub.handleMergeCommand config h.
Proof.
  intros rt config h inputs inputs' Hc Hne HP. cbv zeta.
  exists (sort_Slice String.ltb inputs).
  split; [apply sort_Slice_perm|].
  split; [apply sort_Slice_sorted, string_ltb_swo|].
  assert (Hne' : inputs' <> []).
  { intros ->. apply Permutation_sym, Permutation_nil in HP. contradiction. }
  unfold cbz2epub.handleMergeCommand.
  cbn [with_inputs cbz2epub.InputFiles cbz2epub.OutputFile cbz2epub.Verbose].
  rewrite Hc. unfold len. cbn [elems].
  rewrite (length_zero_false inputs Hne), (length_zero_false inputs' Hne').
  unfold cbz2epub.sort_Strings, sort.Slice. cbn [elems].
  rewrite <- (sort_Slice_strings inputs inputs' HP).
  set (out := if cbz2epub.OutputFile config =? EmptyString
              then "merged.cbz" else cbz2epub.OutputFile config).
  set (sorted := sort_Slice String.ltb inputs).
  split; [|split; [|reflexivity]].
  - unfold bindH, cbz2epub.cbz_MergeFiles, log_Printf, retH.
    destruct (cbz2epub.Verbose config); cbn [say fst snd h_world];
      destruct (cbz.MergeFiles sorted out (h_world h)) as [[[]|e] w]; reflexivity.
  - unfold bindH, cbz2epub.cbz_MergeFiles, log_Printf, retH.
    destruct (cbz2epub.Verbose config); cbn [say fst snd h_world];
      destruct (cbz.MergeFiles sorted out (h_world h)) as [[[]|e] w]; reflexivity.
Qed.

Lemma handleMergeCommand_sorts_inputs_witness :
  exists sorted,
    Permutation ["b.cbz"; "a.cbz"] sorted /\
    sorted_by String.ltb sorted /\
    fst (cbz2epub.handleMergeCommand (rt := stable_runtime)
           (plain_config ["b.cbz"; "a.cbz"]) shelf_host) =
      error_of (fst (cbz.MergeFiles (rt := stable_runtime) sorted "merged.cbz"
                       (h_world shelf_host))) /\
    h_world (snd (cbz2epub.handleMergeCommand (rt := stable_runtime)
                    (plain_config ["b.cbz"; "a.cbz"]) shelf_host)) =
      snd (cbz.MergeFiles (rt := stable_runtime) sorted "merged.cbz"
             (h_world shelf_host)) /\
    cbz2epub.handleMergeCommand (rt := stable_runtime)
      (with_inputs (plain_config ["b.cbz"; "a.cbz"]) ["a.cbz"; "b.cbz"]) shelf_host =
    cbz2epub.handleMergeCommand (rt := stable_runtime)
      (plain_config ["b.cbz"; "a.cbz"]) shelf_host.
Proof.
  refine (handleMergeCommand_sorts_inputs stable_runtime (plain_config ["b.cbz"; "a.cbz"])
            shelf_host ["b.cbz"; "a.cbz"] ["a.cbz"; "b.cbz"] eq_refl _ _).
  - discriminate.
  - apply perm_swap.
Defined.

(** ** handleConvertCommand *)

Section ConvertFacts.
Context {rt : GoRuntime}.

Lemma range_InputFiles_app (config : cbz2epub.Config) (a b : list string) :
  forall (acc : option error) (h : Host),
    cbz2epub.range_InputFiles config (a ++ b)%list acc h =
    let (o, h') := cbz2epub.range_InputFiles config a acc h in
    cbz2epub.range_InputFiles config b o h'.
Proof.
  induction a as [|x a IH]; intros acc h; [reflexivity|].
  rewrite <- app_comm_cons. cbn [cbz2epub.range_InputFiles].
  unfold bindH, os_Stat, log_Printf, retH.
  destruct (match w_written (h_world h) x with
            | Some _ => inr RegularFile
            | None => h_stat h x
            end) as [err|[|dir]].
  - rewrite say_run. apply IH.
  - destruct (negb (strings.HasSuffix (strings.ToLower x) ".cbz")).
    + rewrite say_run. apply IH.
    + destruct (cbz2epub.Verbose config).
      * rewrite say_run.
        destruct (cbz2epub.epub_ConvertFile x _ _) as [[e|] h1]; rewrite say_run; apply IH.
      * destruct (cbz2epub.epub_ConvertFile x _ _) as [[e|] h1]; rewrite say_run; apply IH.
  - destruct (cbz2epub.Recursive config).
    + destruct (cbz2epub.processDirectory dir x config h) as [o h1]. apply IH.
    + rewrite say_run. apply IH.
Qed.

Lemma range_InputFiles_acc (config : cbz2epub.Config) (inputFiles : list string) :
  forall (acc : option error) (h : Host),
    cbz2epub.range_InputFiles config inputFiles acc h =
    let (o, h') := cbz2epub.range_InputFiles config inputFiles None h in
    (match o with Some e => Some e | None => acc end, h').
Proof.
  induction inputFiles as [|x rest IH]; intros acc h; [reflexivity|].
  cbn [cbz2epub.range_InputFiles].
  unfold bindH, os_Stat, log_Printf, retH.
  destruct (match w_written (h_world h) x with
            | Some _ => inr RegularFile
            | None => h_stat h x
            end) as [err|[|dir]].
  - rewrite say_run, (IH (Some err)).
    destruct (cbz2epub.range_InputFiles config rest None _) as [[e|] h']; reflexivity.
  - destruct (negb (strings.HasSuffix (strings.ToLower x) ".cbz")).
    + rewrite say_run. apply IH.
    + destruct (cbz2epub.Verbose config).
      * rewrite say_run.
        destruct (cbz2epub.epub_ConvertFile x _ _) as [[e|] h1]; rewrite say_run.
        -- rewrite (IH (Some e)).
           destruct (cbz2epub.range_InputFiles config rest None _) as [[e'|] h']; reflexivity.
        -- apply IH.
      * destruct (cbz2epub.epub_ConvertFile x _ _) as [[e|] h1]; rewrite say_run.
        -- rewrite (IH (Some e)).
           destruct (cbz2epub.range_InputFiles config rest None _) as [[e'|] h']; reflexivity.
        -- apply IH.
  - destruct (cbz2epub.Recursive config).
    + destruct (cbz2epub.processDirectory dir x config h) as [[e|] h1].
      * rewrite (IH (Some e)).
        destruct (cbz2epub.range_InputFiles config rest None _) as [[e'|] h']; reflexivity.
      * apply IH.
    + rewrite say_run. apply IH.
Qed.

Lemma range_InputFiles_each (config : cbz2epub.Config) (inputFiles : list string) :
  forall (acc : option error) (h : Host),
    cbz2epub.range_InputFiles config inputFiles acc h =
    let (outcomes, h') :=
      each (fun inputFile => cbz2epub.range_InputFiles config [inputFile] None) inputFiles h in
    (last_error acc outcomes, h').
Proof.
  induction inputFiles as [|x rest IH]; intros acc h; [reflexivity|].
  change (x :: rest) with ([x] ++ rest)%list at 1.
  rewrite range_InputFiles_app, (range_InputFiles_acc config [x] acc).
  cbn [each]. unfold bindH, retH.
  destruct (cbz2epub.range_InputFiles config [x] None h) as [o h1].
  rewrite IH.
  destruct (each _ rest h1) as [outcomes h']. reflexivity.
Qed.

Lemma each_length {A B : Type} (step : A -> Cmd B) (l : list A) :
  forall h, List.length (fst (each step l h)) = List.length l.
Proof.
  induction l as [|x l IH]; intros h; [reflexivity|].
  cbn [each]. unfold bindH, retH.
  destruct (step x h) as [b h1]. specialize (IH h1).
  destruct (each step l h1) as [bs h2]. simpl in *. now rewrite IH.
Qed.

Lemma last_error_none (outcomes : list (option error)) :
  forall acc, last_error acc outcomes = None <-> acc = None /\ Forall (fun o => o = None) outcomes.
Proof.
  unfold last_error. induction outcomes as [|o os IH]; intros acc; cbn [fold_left].
  - split; [intros ->; split; [reflexivity | constructor] | now intros [-> _]].
  - rewrite IH. destruct o as [e|].
    + split; [intros [E _]; discriminate E | intros [_ F]; inversion F; discriminate].
    + split; [intros [-> F]; split; [reflexivity | now constructor]
             | intros [-> F]; split; [reflexivity | now inversion F]].
Qed.

End ConvertFacts.

(** X11: handleConvertCommand goes through all its inputs, whatever happens
    to the earlier ones, and returns the error of the last input that
    failed; so it returns nil exactly when no input failed.  The inputs are
    handled one after the other on the host the one before has left. *)
Theorem handleConvertCommand_last_error :
  forall (rt : GoRuntime) (config : cbz2epub.Config) (h : Host),
    elems (cbz2epub.InputFiles config) <> [] ->
    let run :=
      each (fun inputFile => cbz2epub.range_InputFiles config [inputFile] None)
           (elems (cbz2epub.InputFiles config)) h in
    cbz2epub.handleConvertCommand config h = (last_error None (fst run), snd run) /\
    List.length (fst run) = List.length (elems (cbz2epub.InputFiles config)) /\
    (fst (cbz2epub.handleConvertCommand config h) = None <->
     Forall (fun o => o = None) (fst run)).
Proof.
  intros rt config h Hne. cbv zeta.
  assert (E : cbz2epub.handleConvertCommand config h =
              (last_error None
                 (fst (each (fun inputFile => cbz2epub.range_InputFiles config [inputFile] None)
                         (elems (cbz2epub.InputFiles config)) h)),
               snd (each (fun inputFile => cbz2epub.range_InputFiles config [inputFile] None)
                      (elems (cbz2epub.InputFiles config)) h))).
  { unfold cbz2epub.handleConvertCommand, len.
    rewrite (length_zero_false _ Hne), range_InputFiles_each.
    destruct (each _ _ h) as [outcomes h']. reflexivity. }
  split; [exact E|]. split; [apply each_length|].
  rewrite E. cbn [fst]. rewrite last_error_none. tauto.
Qed.

Lemma handleConvertCommand_last_error_witness :
  fst (cbz2epub.handleConvertCommand (rt := stable_runtime)
         (plain_config ["lost.cbz"; "a.cbz"; "notes.txt"]) shelf_host) =
    Some no_such_file /\
  List.length
    (fst (each (fun inputFile =>
                  cbz2epub.range_InputFiles (rt := stable_runtime)
                    (plain_config ["lost.cbz"; "a.cbz"; "notes.txt"]) [inputFile] None)
               ["lost.cbz"; "a.cbz"; "notes.txt"] shelf_host)) = 3.
Proof.
  destruct (handleConvertCommand_last_error stable_runtime
              (plain_config ["lost.cbz"; "a.cbz"; "notes.txt"]) shelf_host)
    as (H1 & H2 & _).
  - discriminate.
  - split; [rewrite H1; vm_compute; reflexivity | exact H2].
Defined.

(** ** The files a conversion touches *)

Lemma same_file_refl (p : string) (w : World) : same_file p w w.
Proof. repeat split. Qed.

Lemma same_file_trans (p : string) (w1 w2 w3 : World) :
  same_file p w1 w2 -> same_file p w2 w3 -> same_file p w1 w3.
Proof. intros (A0 & A1 & A2) (B0 & B1 & B2). repeat split; congruence. Qed.

Lemma off_same_file (out p : string) (w w' : World) :
  off out w w' -> w_file w p <> w_file w out -> same_file p w w'.
Proof.
  intros Hoff Hp. split; [exact (proj1 Hoff)|].
  split; [exact (off_zips out p w w' Hoff Hp) | exact (off_written out p w w' Hoff Hp)].
Qed.

Lemma puts_off (out : string) (ps : list Put) (w : World) : off out w (snd (puts out ps w)).
Proof. apply frame_off, puts_frame. Qed.

Lemma off_closing {A : Type} (out : string) (w : World) (r : result A * World) :
  off out w (snd r) -> off out w (snd (closing out r)).
Proof.
  intros H. cbn [closing snd].
  exact (off_trans out w (snd r) _ H (off_closed out (snd r))).
Qed.

Lemma ConvertFromCBZ_off (cbzFile : cbz.File) (o : string) (w : World) :
  off o w (snd (epub.ConvertFromCBZ cbzFile o w)).
Proof.
  rewrite ConvertFromCBZ_run.
  assert (H : off o w (snd (closing o (puts o (epub_puts cbzFile (w_uuid w) (w_today w))
                                         (created o w))))).
  { apply off_closing. apply (off_trans o w (created o w)); [apply off_created|].
    apply puts_off. }
  destruct (w_faults w) as [|[e|] fs]; [exact H | unfold off; repeat split | exact H].
Qed.

Lemma ConvertFile_off {rt : GoRuntime} (i o : string) (w : World) :
  off o w (snd (epub.ConvertFile i o w)).
Proof.
  unfold epub.ConvertFile, bind, wrapf, ret. rewrite ReadFile_run.
  destruct (read_result (w_zips w) i) as [f|e]; [|apply off_logged].
  pose proof (ConvertFromCBZ_off f o (logged i w)) as Hs.
  destruct (epub.ConvertFromCBZ f o (logged i w)) as [[[]|e] w2];
    exact (off_trans o w (logged i w) _ (off_logged o i w) Hs).
Qed.

Section TouchedFiles.
Context {rt : GoRuntime}.
Variable resolve : string -> string.
Variable p : string.
Hypothesis not_epub :
  forall q, strings.HasSuffix q ".epub" = true -> resolve q <> resolve p.

Local Notation "'keeps'" := (keeps_file resolve p).

Lemma keeps_bindH {A B : Type} (m : Cmd A) (k : A -> Cmd B) :
  keeps m -> (forall a, keeps (k a)) -> keeps (bindH m k).
Proof.
  intros Hm Hk h Hr. unfold bindH. specialize (Hm h Hr).
  destruct (m h) as [a h1]. cbn [snd] in Hm.
  apply (same_file_trans p _ _ _ Hm). apply Hk.
  destruct Hm as (Hf & _). now rewrite Hf.
Qed.

Lemma keeps_retH {A : Type} (a : A) : keeps (retH a).
Proof. intros h _. apply same_file_refl. Qed.

Lemma keeps_say (o : Output) : keeps (say o).
Proof. intros h _. apply same_file_refl. Qed.

Lemma keeps_verbose (b : bool) (msg : string) :
  keeps (if b then log_Printf msg else retH tt).
Proof. destruct b; [apply keeps_say | apply keeps_retH]. Qed.

Lemma keeps_Glob (pattern : string) : keeps (filepath_Glob pattern).
Proof. intros h _. apply same_file_refl. Qed.

Lemma keeps_Stat (name : string) : keeps (os_Stat name).
Proof. intros h _. apply same_file_refl. Qed.

Lemma renewed_same_file (h : Host) : same_file p (h_world h) (renewed h).
Proof. unfold renewed. destruct (h_ids h) as [|[date uuid] ids]; repeat split. Qed.

Lemma keeps_ConvertFile (i o : string) :
  resolve o <> resolve p -> keeps (cbz2epub.epub_ConvertFile i o).
Proof.
  intros Hp h Hr. unfold cbz2epub.epub_ConvertFile.
  pose proof (ConvertFile_off i o (renewed h)) as Hs.
  destruct (epub.ConvertFile i o (renewed h)) as [r w]. cbn [snd h_world] in *.
  apply (same_file_trans p _ _ _ (renewed_same_file h)).
  apply (off_same_file o p _ _ Hs).
  destruct (renewed_same_file h) as (Hf & _). rewrite Hf, Hr. now apply not_eq_sym.
Qed.

Lemma derived_not_p (file : string) :
  resolve (strings.TrimSuffix file ".cbz" ++ ".epub") <> resolve p.
Proof. apply not_epub, HasSuffix_app. Qed.

Lemma keeps_range_files (config : cbz2epub.Config) (files : list string) :
  forall acc : option error, keeps (cbz2epub.range_files config files acc).
Proof.
  induction files as [|file rest IH]; intros acc; [apply keeps_retH|].
  cbn [cbz2epub.range_files].
  apply keeps_bindH; [apply keeps_verbose | intros _].
  apply keeps_bindH; [apply keeps_ConvertFile, derived_not_p | intros [e|]];
    (apply keeps_bindH; [apply keeps_say | intros _; apply IH]).
Qed.

Lemma keeps_processDirectory (config : cbz2epub.Config) (dir : Dir) :
  forall dirPath : string, keeps (cbz2epub.processDirectory dir dirPath config).
Proof.
  induction dir as [e|entries IH] using Dir_induction; intros dirPath;
    cbn [cbz2epub.processDirectory];
    (apply keeps_bindH; [apply keeps_verbose | intros _]);
    (apply keeps_bindH; [apply keeps_Glob | intros [err|files]]);
    try (apply keeps_bindH; [apply keeps_say | intros _; apply keeps_retH]);
    (destruct (List.length files =? 0)%nat;
     [apply keeps_bindH; [apply keeps_say | intros _; apply keeps_retH]|]);
    (apply keeps_bindH; [apply keeps_range_files | intros acc]);
    (destruct (cbz2epub.Recursive config); [|apply keeps_retH]).
  - apply keeps_bindH; [apply keeps_say | intros _; apply keeps_retH].
  - revert acc. induction entries as [|[name [subdir|]] rest IHl]; intros acc.
    + apply keeps_retH.
    + apply keeps_bindH; [apply (IH name subdir); now left | intros a].
      apply IHl. intros n s Hin. apply (IH n s). now right.
    + apply IHl. intros n s Hin. apply (IH n s). now right.
Qed.

Lemma keeps_range_InputFiles (config : cbz2epub.Config) :
  (resolve (cbz2epub.OutputFile config) <> resolve p \/
   cbz2epub.OutputFile config = EmptyString \/
   1 < len (cbz2epub.InputFiles config)) ->
  forall (rest : list string) (acc : option error),
    keeps (cbz2epub.range_InputFiles config rest acc).
Proof.
  intros Hout rest. induction rest as [|x rest IH]; intros acc; [apply keeps_retH|].
  cbn [cbz2epub.range_InputFiles].
  apply keeps_bindH; [apply keeps_Stat | intros [err|[|dir]]].
  - apply keeps_bindH; [apply keeps_say | intros _; apply IH].
  - destruct (negb (strings.HasSuffix (strings.ToLower x) ".cbz")).
    + apply keeps_bindH; [apply keeps_say | intros _; apply IH].
    + apply keeps_bindH; [apply keeps_verbose | intros _].
      apply keeps_bindH.
      * apply keeps_ConvertFile.
        destruct ((cbz2epub.OutputFile config =? EmptyString) ||
                  (1 <? len (cbz2epub.InputFiles config))%nat) eqn:C;
          [apply derived_not_p|].
        apply orb_false_iff in C. destruct C as [C1 C2].
        apply String.eqb_neq in C1. apply Nat.ltb_ge in C2.
        destruct Hout as [Hp|[Hn|Hl]]; [exact Hp | contradiction | lia].
      * intros [e|]; (apply keeps_bindH; [apply keeps_say | intros _; apply IH]).
  - destruct (cbz2epub.Recursive config).
    + apply keeps_bindH; [apply keeps_processDirectory | intros a; apply IH].
    + apply keeps_bindH; [apply keeps_say | intros _; apply IH].
Qed.

End TouchedFiles.

(** X12: the files the convert command writes.  Whatever its inputs, the
    directories below them and the failures on the way, handleConvertCommand
    creates or overwrites no file other than those that a path ending in
    .epub names and, when it is given exactly one input, the file that
    -output names: a path whose file none of these paths names holds
    afterwards the archive and the container it held before. *)
Theorem conversions_write_epub_only :
  forall (rt : GoRuntime) (config : cbz2epub.Config) (h : Host) (p : string),
    (forall q, strings.HasSuffix q ".epub" = true ->
               w_file (h_world h) q <> w_file (h_world h) p) ->
    (w_file (h_world h) (cbz2epub.OutputFile config) <> w_file (h_world h) p \/
     cbz2epub.OutputFile config = EmptyString \/
     1 < len (cbz2epub.InputFiles config)) ->
    let h' := snd (cbz2epub.handleConvertCommand config h) in
    w_zips (h_world h') p = w_zips (h_world h) p /\
    w_written (h_world h') p = w_written (h_world h) p.
Proof.
  intros rt config h p Hp Hout. cbv zeta.
  unfold cbz2epub.handleConvertCommand.
  destruct (len (cbz2epub.InputFiles config) =? 0)%nat.
  - rewrite reject_empty. split; reflexivity.
  - exact (proj2 (keeps_range_InputFiles (w_file (h_world h)) p Hp config Hout
                    (elems (cbz2epub.InputFiles config)) None h eq_refl)).
Qed.

Lemma conversions_write_epub_only_witness :
  w_zips (h_world (snd (cbz2epub.handleConvertCommand (rt := stable_runtime)
                          (plain_config ["a.cbz"; "b.cbz"]) shelf_host))) "a.cbz" =
    w_zips (h_world shelf_host) "a.cbz" /\
  w_written (h_world (snd (cbz2epub.handleConvertCommand (rt := stable_runtime)
                             (plain_config ["a.cbz"; "b.cbz"]) shelf_host))) "a.cbz" =
    w_written (h_world shelf_host) "a.cbz".
Proof.
  apply (conversions_write_epub_only stable_runtime (plain_config ["a.cbz"; "b.cbz"])
           shelf_host "a.cbz").
  - intros q Hq E. cbn in E. subst q. discriminate Hq.
  - right. now left.
Defined.

(** ** Directories *)

(** X13: a directory is searched for archives at its top level first, and
    when [filepath.Glob] finds no *.cbz file there processDirectory logs
    "No CBZ files found" and returns nil at once: it does not list the
    directory, so the archives in its subdirectories are not converted, with
    -recursive or without.  The convert command run on such a directory
    alone converts nothing and reports no error. *)
Theorem processDirectory_needs_cbz_at_top :
  forall (rt : GoRuntime) (dir : Dir) (dirPath : string) (config : cbz2epub.Config) (h : Host),
    h_glob h (filepath_Join dirPath "*.cbz") = inr [] ->
    let printed :=
      ((if cbz2epub.Verbose config
        then [Logged ("Processing directory: " ++ dirPath ++ nl)] else []) ++
       [Logged ("No CBZ files found in " ++ dirPath ++ nl)])%list in
    cbz2epub.processDirectory dir dirPath config h = (None, said printed h) /\
    (cbz2epub.InputFiles config = mk_slice [dirPath] ->
     cbz2epub.Recursive config = true ->
     fst (os_Stat dirPath h) = inr (Directory dir) ->
     cbz2epub.handleConvertCommand config h = (None, said printed h)).
Proof.
  intros rt dir dirPath config h Hg. cbv zeta.
  assert (E : cbz2epub.processDirectory dir dirPath config h =
              (None,
               said ((if cbz2epub.Verbose config
                      then [Logged ("Processing directory: " ++ dirPath ++ nl)] else []) ++
                     [Logged ("No CBZ files found in " ++ dirPath ++ nl)]) h)).
  { destruct dir as [[e|entries]]; cbn [cbz2epub.processDirectory];
      unfold bindH, filepath_Glob, log_Printf, retH;
      destruct (cbz2epub.Verbose config); rewrite ?say_run; cbn [said h_glob];
      rewrite Hg; cbn [List.length Nat.eqb]; rewrite say_run, ?said_said; reflexivity. }
  split; [exact E|].
  intros Hi Hr Hs. unfold cbz2epub.handleConvertCommand. rewrite Hi.
  cbn [len elems List.length Nat.eqb cbz2epub.range_InputFiles].
  unfold bindH. unfold os_Stat in Hs |- *. cbn [fst] in Hs. rewrite Hs, Hr, E.
  reflexivity.
Qed.

Lemma processDirectory_needs_cbz_at_top_witness :
  cbz2epub.handleConvertCommand (rt := stable_runtime) (plain_config ["comics"]) shelf_host =
    (None, said [Logged ("No CBZ files found in comics" ++ nl)] shelf_host) /\
  h_glob shelf_host "comics/old/*.cbz" = inr ["comics/old/a.cbz"].
Proof.
  split; [|reflexivity].
  refine (proj2 (processDirectory_needs_cbz_at_top stable_runtime
                   (mkDir (inr [("old", Some (mkDir (inr [("a.cbz", None)])));
                                ("readme.txt", None)]))
                   "comics" (plain_config ["comics"]) shelf_host eq_refl)
            eq_refl eq_refl eq_refl).
Defined.

(** ** One archive *)

(** X14: the convert command on one archive.  Given one input that is a
    regular file whose path, lowered, ends in .cbz, no -output, a readable
    archive and no failing write, handleConvertCommand returns nil and the
    file named after the input, with a final .cbz replaced by .epub, holds
    the container of the archive.  Only the lower-case suffix is replaced:
    for an input such as X.CBZ the output is X.CBZ.epub. *)
Theorem convert_one_archive :
  forall (rt : GoRuntime) (config : cbz2epub.Config) (h : Host) (inputFile : string)
         (cbzFile : cbz.File),
    cbz2epub.InputFiles config = mk_slice [inputFile] ->
    cbz2epub.OutputFile config = EmptyString ->
    fst (os_Stat inputFile h) = inr RegularFile ->
    strings.HasSuffix (strings.ToLower inputFile) ".cbz" = true ->
    fst (cbz.ReadFile inputFile (h_world h)) = Ok cbzFile ->
    no_fault (w_faults (h_world h)) ->
    let outputFile := strings.TrimSuffix inputFile ".cbz" ++ ".epub" in
    let h' := snd (cbz2epub.handleConvertCommand config h) in
    fst (cbz2epub.handleConvertCommand config h) = None /\
    entries_at (h_world h') outputFile =
      epub_entries cbzFile (w_uuid (renewed h)) (w_today (renewed h)) /\
    (forall stem, inputFile = stem ++ ".cbz" -> outputFile = stem ++ ".epub") /\
    (strings.HasSuffix inputFile ".cbz" = false -> outputFile = inputFile ++ ".epub").
Proof.
  intros rt config h inputFile cbzFile Hi Ho Hs Hl Hr Hnf. cbv zeta.
  set (out := strings.TrimSuffix inputFile ".cbz" ++ ".epub").
  assert (Hr' : fst (cbz.ReadFile inputFile (renewed h)) = Ok cbzFile).
  { rewrite read_result_ReadFile in Hr |- *.
    replace (w_zips (renewed h)) with (w_zips (h_world h)); [exact Hr|].
    unfold renewed. now destruct (h_ids h) as [|[date uuid] ids]. }
  assert (Hnf' : no_fault (w_faults (renewed h))).
  { unfold renewed. now destruct (h_ids h) as [|[date uuid] ids]. }
  assert (Hc : fst (epub.ConvertFromCBZ cbzFile out (logged inputFile (renewed h))) = Ok tt)
    by (apply ConvertFromCBZ_no_fault; exact Hnf').
  assert (Hrun : epub.ConvertFile inputFile out (renewed h) =
                 (Ok tt, snd (epub.ConvertFromCBZ cbzFile out (logged inputFile (renewed h))))).
  { rewrite ConvertFile_run. rewrite read_result_ReadFile in Hr'. now rewrite Hr', Hc. }
  assert (Hok : fst (epub.ConvertFile inputFile out (renewed h)) = Ok tt)
    by now rewrite Hrun.
  assert (He : entries_at (snd (epub.ConvertFile inputFile out (renewed h))) out =
               epub_entries cbzFile (w_uuid (renewed h)) (w_today (renewed h))).
  { rewrite Hrun. cbn [snd]. rewrite (ConvertFromCBZ_ok _ _ _ Hc). apply epub_puts_entries. }
  assert (E : cbz2epub.handleConvertCommand config h =
              let h1 := if cbz2epub.Verbose config
                        then said [Logged ("Converting " ++ inputFile ++ " to " ++ out ++ nl)] h
                        else h in
              (None,
               said [Logged ("Successfully converted " ++ inputFile ++ " to " ++ out ++ nl)]
                 (snd (cbz2epub.epub_ConvertFile inputFile out h1)))).
  { unfold cbz2epub.handleConvertCommand. rewrite Hi.
    cbn [len elems List.length Nat.eqb cbz2epub.range_InputFiles].
    unfold bindH. unfold os_Stat in Hs |- *. cbn [fst] in Hs. rewrite Hs, Hl, Ho.
    cbn [negb String.eqb orb]. fold out. unfold log_Printf, retH.
    destruct (cbz2epub.Verbose config); rewrite ?say_run;
      unfold cbz2epub.epub_ConvertFile;
      change (renewed (said _ h)) with (renewed h);
      destruct (epub.ConvertFile inputFile out (renewed h)) as [[[]|e] w] eqn:C;
      try discriminate Hok; repeat rewrite say_run; reflexivity. }
  rewrite E. cbv zeta. cbn [fst snd]. split; [reflexivity|]. split; [|split].
  - unfold cbz2epub.epub_ConvertFile.
    destruct (cbz2epub.Verbose config);
      change (renewed (said _ h)) with (renewed h);
      destruct (epub.ConvertFile inputFile out (renewed h)) as [r w];
      cbn [snd said h_world] in *; exact He.
  - intros stem ->. unfold out. now rewrite TrimSuffix_app.
  - intros Hn. unfold out. now rewrite TrimSuffix_none.
Qed.

Lemma convert_one_archive_witness :
  fst (cbz2epub.handleConvertCommand (rt := stable_runtime) (plain_config ["B.CBZ"])
         shelf_host) = None /\
  exists cbzFile,
    entries_at (h_world (snd (cbz2epub.handleConvertCommand (rt := stable_runtime)
                                (plain_config ["B.CBZ"]) shelf_host))) "B.CBZ.epub" =
    epub_entries cbzFile "11111111-2222-4333-8444-555555555555" "2024-05-17".
Proof.
  destruct (convert_one_archive stable_runtime (plain_config ["B.CBZ"]) shelf_host "B.CBZ"
              {| cbz.File_Name := "B.CBZ";
                 cbz.Images := mk_slice
                   [ {| cbz.Name := "b1.png"; cbz.Data := bytes_of "B1";
                        cbz.MimeType := "image/png" |};
                     {| cbz.Name := "b2.png"; cbz.Data := bytes_of "B2";
                        cbz.MimeType := "image/png" |} ] |}
              eq_refl eq_refl eq_refl eq_refl eq_refl (Forall_nil _))
    as (H1 & H2 & _).
  split; [exact H1|]. eexists. exact H2.
Defined.

(** ** Inputs that are passed over *)

Section Skipped.
Context {rt : GoRuntime}.

Lemma range_InputFiles_passed_over (config : cbz2epub.Config) (h : Host)
    (inputFiles : list string) :
  Forall (passed_over config h) inputFiles ->
  forall (acc : option error) (h0 : Host),
    h_world h0 = h_world h -> h_stat h0 = h_stat h -> h_ids h0 = h_ids h ->
    let r := cbz2epub.range_InputFiles config inputFiles acc h0 in
    fst r = acc /\ h_world (snd r) = h_world h /\ h_ids (snd r) = h_ids h.
Proof.
  induction 1 as [|x rest Hx _ IH]; intros acc h0 Ew Es Ei; [now repeat split|].
  cbv zeta. cbn [cbz2epub.range_InputFiles].
  unfold bindH, os_Stat, log_Printf. unfold passed_over, os_Stat in Hx. cbn [fst] in Hx.
  rewrite Ew, Es.
  destruct (match w_written (h_world h) x with
            | Some _ => inr RegularFile
            | None => h_stat h x
            end) as [err|[|dir]]; [contradiction| |].
  - rewrite Hx. cbn [negb]. rewrite say_run. now apply IH.
  - rewrite Hx. rewrite say_run. now apply IH.
Qed.

End Skipped.

(** X15: what the convert command passes over.  A regular file whose path,
    lowered, does not end in .cbz and, when -recursive is not set, a
    directory are only logged as skipped.  When every input is of this kind
    handleConvertCommand returns nil although it has converted nothing: it
    has opened no archive, created no file and attempted no write. *)
Theorem handleConvertCommand_passes_over :
  forall (rt : GoRuntime) (config : cbz2epub.Config) (h : Host),
    elems (cbz2epub.InputFiles config) <> [] ->
    Forall (fun inputFile =>
              match fst (os_Stat inputFile h) with
              | inl _ => False
              | inr RegularFile =>
                  strings.HasSuffix (strings.ToLower inputFile) ".cbz" = false
              | inr (Directory _) => cbz2epub.Recursive config = false
              end)
           (elems (cbz2epub.InputFiles config)) ->
    fst (cbz2epub.handleConvertCommand config h) = None /\
    h_world (snd (cbz2epub.handleConvertCommand config h)) = h_world h.
Proof.
  intros rt config h Hne Hall.
  unfold cbz2epub.handleConvertCommand, len. rewrite (length_zero_false _ Hne).
  destruct (range_InputFiles_passed_over config h (elems (cbz2epub.InputFiles config))
              Hall None h eq_refl eq_refl eq_refl) as (H1 & H2 & _).
  split; assumption.
Qed.

Lemma handleConvertCommand_passes_over_witness :
  fst (cbz2epub.handleConvertCommand (rt := stable_runtime)
         {| cbz2epub.Merge := false; cbz2epub.Convert := true;
            cbz2epub.OutputFile := "out.epub"; cbz2epub.Verbose := true;
            cbz2epub.Recursive := false;
            cbz2epub.InputFiles := mk_slice ["notes.txt"; "comics"] |} shelf_host) = None /\
  h_world (snd (cbz2epub.handleConvertCommand (rt := stable_runtime)
         {| cbz2epub.Merge := false; cbz2epub.Convert := true;
            cbz2epub.OutputFile := "out.epub"; cbz2epub.Verbose := true;
            cbz2epub.Recursive := false;
            cbz2epub.InputFiles := mk_slice ["notes.txt"; "comics"] |} shelf_host)) =
  h_world shelf_host.
Proof.
  apply (handleConvertCommand_passes_over stable_runtime).
  - discriminate.
  - repeat constructor.
Defined.

(** * More on the recognized images *)

Ltac by_extension ext :=
  destruct (ext =? ".jpg"); destruct (ext =? ".jpeg"); destruct (ext =? ".png");
  destruct (ext =? ".gif"); destruct (ext =? ".webp"); simpl.

(** X16: isImageFile and getMimeType agree on every file name: a name is an
    image exactly when getMimeType gives it one of the four image types, and
    is none exactly when getMimeType gives application/octet-stream.  A name
    without an extension is never an image. *)
Theorem isImageFile_iff_image_type :
  forall (rt : GoRuntime) (filename : string),
    (cbz.isImageFile filename = true <->
     In (cbz.getMimeType filename) ["image/jpeg"; "image/png"; "image/gif"; "image/webp"]) /\
    (cbz.isImageFile filename = false <->
     cbz.getMimeType filename = "application/octet-stream") /\
    (filepath.Ext filename = EmptyString -> cbz.isImageFile filename = false).
Proof.
  intros rt filename. split; [|split].
  - unfold cbz.isImageFile, cbz.getMimeType. split.
    + by_extension (strings.ToLower (filepath.Ext filename));
        intros H; try discriminate H; auto 6.
    + by_extension (strings.ToLower (filepath.Ext filename));
        intros H; try reflexivity;
        repeat (destruct H as [H|H]; [discriminate H|]); destruct H.
  - unfold cbz.isImageFile, cbz.getMimeType. split;
      by_extension (strings.ToLower (filepath.Ext filename));
      intros H; try discriminate H; reflexivity.
  - intros E. destruct (cbz.isImageFile filename) eqn:H; [|reflexivity].
    now apply isImageFile_has_Ext in H.
Qed.

(** * The pages of a conversion *)

Lemma unlines_cons (l l2 : string) (rest : list string) :
  unlines (l :: l2 :: rest) = l ++ nl ++ unlines (l2 :: rest).
Proof. reflexivity. Qed.

Lemma lines_unlines (ls : list string) :
  ls <> [] ->
  Forall (fun l => free_of (ascii_of_nat 10) l = true) ls ->
  lines (unlines ls) = ls.
Proof.
  intros Hne H. induction H as [|l rest Hl Hrest IH]; [congruence|].
  destruct rest as [|l2 rest].
  - apply lines_free, Hl.
  - rewrite unlines_cons, lines_app, (lines_free l Hl), IH by discriminate. reflexivity.
Qed.

Lemma page_xhtml_unlines (n : nat) (newName : string) :
  epub.page_xhtml n newName = unlines (page_texts n newName).
Proof.
  unfold epub.page_xhtml, page_texts, img_line, img_src, img_alt. cbn [unlines].
  rewrite !string_app_assoc. reflexivity.
Qed.

Lemma img_line_free (sep : ascii) (n : nat) (newName : string) :
  is_digit sep = false ->
  free_of sep "    <img src=../images/ alt=Page  />" = true ->
  free_of sep dq = true ->
  free_of sep newName = true ->
  free_of sep (img_line n newName) = true.
Proof.
  intros Hd Hs Hq Hn. unfold img_line, img_src, img_alt, q.
  rewrite !free_of_app, Hq, Hn, (digits_free sep _ Hd (d_digits n)).
  unfold free_of in Hs |- *. simpl in Hs |- *.
  repeat (apply andb_true_iff in Hs; destruct Hs as [? Hs]).
  repeat (apply andb_true_iff; split); assumption.
Qed.

Lemma page_texts_free (n : nat) (newName : string) :
  free_of (ascii_of_nat 10) newName = true ->
  Forall (fun l => free_of (ascii_of_nat 10) l = true) (page_texts n newName).
Proof.
  intros Hn. unfold page_texts.
  repeat (constructor; [try reflexivity|]); try constructor.
  - rewrite !free_of_app, d_free_nl. reflexivity.
  - now apply img_line_free.
Qed.

Lemma img_line_src (n : nat) (newName : string) :
  free_of (ascii_of_nat 34) newName = true ->
  fields (img_line n newName) =
  ["    <img src="; img_src newName; " alt="; img_alt n; " />"].
Proof.
  intros Hn. unfold img_line, q.
  rewrite !string_app_assoc, !fields_app.
  rewrite (fields_free "    <img src=") by reflexivity.
  rewrite (fields_free (img_src newName))
    by (unfold img_src; rewrite free_of_app, Hn; reflexivity).
  rewrite (fields_free " alt=") by reflexivity.
  rewrite (fields_free (img_alt n))
    by (unfold img_alt; rewrite free_of_app, d_free_dq; reflexivity).
  rewrite (fields_free " />") by reflexivity.
  reflexivity.
Qed.

Lemma img_src_of_page (n : nat) (newName : string) :
  quotable newName = true ->
  img_src_of (epub.page_xhtml n newName) = Some ("../images/" ++ newName).
Proof.
  intros Hq. unfold img_src_of.
  rewrite page_xhtml_unlines, lines_unlines;
    [|discriminate | apply page_texts_free, quotable_nl, Hq].
  change (find (String.prefix "    <img src=") (page_texts n newName))
    with (Some (img_line n newName)).
  cbv beta iota. rewrite (img_line_src n newName (quotable_dq _ Hq)). reflexivity.
Qed.

Lemma substring_all (s : string) : substring 0 (String.length s) s = s.
Proof. induction s as [|c s IH]; simpl; [reflexivity | now rewrite IH]. Qed.

Lemma from_pages_images (newName : string) :
  from_pages ("../images/" ++ newName) = Some ("OEBPS/images/" ++ newName).
Proof.
  unfold from_pages.
  change (String.prefix "../" ("../images/" ++ newName)) with true. cbv iota.
  change (String.length ("../images/" ++ newName) - 3)
    with (String.length ("images/" ++ newName)).
  change (substring 3 (String.length ("images/" ++ newName)) ("../images/" ++ newName))
    with (substring 0 (String.length ("images/" ++ newName)) ("images/" ++ newName)).
  rewrite substring_all. reflexivity.
Qed.

Lemma entry_named_In (l : list Entry) (e : Entry) :
  NoDup (map e_Name l) -> In e l -> entry_named (e_Name e) l = Some e.
Proof.
  unfold entry_named. induction l as [|x l IH]; intros Hn Hin; [destruct Hin|].
  cbn [map] in Hn. inversion Hn as [|? ? Hx Hl]; subst. cbn [find].
  destruct (String.eqb_spec (e_Name x) (e_Name e)) as [E|N].
  - destruct Hin as [->|Hin]; [reflexivity|].
    exfalso. apply Hx. rewrite E. now apply in_map.
  - destruct Hin as [->|Hin]; [congruence | now apply IH].
Qed.

Lemma numbered_from_nth {A : Type} (l : list A) :
  forall (n k : nat) (x : A), nth_error l k = Some x -> In (n + k, x) (numbered_from n l).
Proof.
  induction l as [|a l IH]; intros n [|k] x H; try discriminate H.
  - injection H as ->. rewrite numbered_from_cons, Nat.add_0_r. now left.
  - rewrite numbered_from_cons. right.
    replace (n + S k) with (S n + k) by lia. now apply IH.
Qed.

(** X18: every page shows its image.  After a successful conversion, for the
    image at position k+1 whose extension holds no double quote and no line
    feed, the entry OEBPS/pages/page{k+1}.xhtml is a page whose img element
    has the src ../images/image{k+1}{ext}; taken from the folder of the
    pages this names the entry OEBPS/images/image{k+1}{ext}, which is in the
    container and holds the bytes of that image. *)
Theorem pages_show_their_images :
  forall (cbzFile : cbz.File) (outputFile : string) (w : World) (k : nat) (image : cbz.Image),
    fst (epub.ConvertFromCBZ cbzFile outputFile w) = Ok tt ->
    nth_error (elems (cbz.Images cbzFile)) k = Some image ->
    quotable (filepath.Ext (cbz.Name image)) = true ->
    let written := entries_at (snd (epub.ConvertFromCBZ cbzFile outputFile w)) outputFile in
    exists page src target,
      option_map text_of
        (entry_named ("OEBPS/pages/page" ++ fmt.d03 (k + 1) ++ ".xhtml") written) =
        Some page /\
      img_src_of page = Some src /\
      src = "../images/image" ++ fmt.d03 (k + 1) ++ filepath.Ext (cbz.Name image) /\
      from_pages src = Some target /\
      entry_named target written =
        Some {| e_Name := "OEBPS/images/image" ++ fmt.d03 (k + 1) ++
                          filepath.Ext (cbz.Name image);
                e_Method := Deflate;
                e_Data := cbz.Data image |}.
Proof.
  intros cbzFile out w k image Hok Hk Hq. cbv zeta.
  rewrite (ConvertFromCBZ_ok _ _ _ Hok), epub_puts_entries.
  pose proof (numbered_from_nth _ 1 k image Hk) as Hin.
  rewrite (Nat.add_comm 1 k) in Hin.
  set (x := (k + 1, image)) in *.
  assert (Hpage : In (page_entry x) (epub_entries cbzFile (w_uuid w) (w_today w))).
  { unfold epub_entries. cbn [List.app]. right. right.
    apply in_or_app. right. apply in_or_app. left. now apply in_map. }
  assert (Himage : In (image_entry x) (epub_entries cbzFile (w_uuid w) (w_today w))).
  { unfold epub_entries. cbn [List.app]. right. right.
    apply in_or_app. left. now apply in_map. }
  pose proof (epub_names_NoDup cbzFile (w_uuid w) (w_today w)) as Hnd.
  exists (epub.page_xhtml (k + 1) (image_file (k + 1) image)),
         ("../images/" ++ image_file (k + 1) image),
         ("OEBPS/images/" ++ image_file (k + 1) image).
  split; [|split; [|split; [|split]]].
  - change ("OEBPS/pages/page" ++ fmt.d03 (k + 1) ++ ".xhtml") with (e_Name (page_entry x)).
    rewrite (entry_named_In _ _ Hnd Hpage). cbn [option_map]. f_equal.
    apply text_of_bytes.
  - apply img_src_of_page. unfold image_file, quotable.
    rewrite !free_of_app, d03_free_dq, d03_free_nl.
    apply andb_true_iff in Hq. destruct Hq as [Q1 Q2]. now rewrite Q1, Q2.
  - reflexivity.
  - apply from_pages_images.
  - change ("OEBPS/images/" ++ image_file (k + 1) image) with (e_Name (image_entry x)).
    rewrite (entry_named_In _ _ Hnd Himage). reflexivity.
Qed.

Lemma pages_show_their_images_witness :
  exists page src target,
    option_map text_of
      (entry_named "OEBPS/pages/page003.xhtml"
         (entries_at (snd (epub.ConvertFromCBZ three_pages "one.epub"
                             (quiet_world shelf_zips))) "one.epub")) = Some page /\
    img_src_of page = Some src /\
    src = "../images/image003.GIF" /\
    from_pages src = Some target /\
    entry_named target
      (entries_at (snd (epub.ConvertFromCBZ three_pages "one.epub"
                          (quiet_world shelf_zips))) "one.epub") =
      Some {| e_Name := "OEBPS/images/image003.GIF"; e_Method := Deflate;
              e_Data := bytes_of "three" |}.
Proof.
  exact (pages_show_their_images three_pages "one.epub" (quiet_world shelf_zips) 2
           {| cbz.Name := "p3.GIF"; cbz.Data := bytes_of "three"; cbz.MimeType := "image/gif" |}
           eq_refl eq_refl eq_refl).
Defined.

(** * The files a merge touches *)

Section MergeTouches.
Context {rt : GoRuntime}.

Lemma range_inputFiles_off (out : string) (inputFiles : list string) :
  forall (c n : nat) (w : World),
    off out w (snd (cbz.range_inputFiles out c inputFiles n w)).
Proof.
  induction inputFiles as [|x rest IH]; intros c n w; [apply off_refl|].
  destruct (read_result (w_zips w) x) as [a|e] eqn:R.
  - rewrite (range_inputFiles_step out c n x rest a w R). unfold bind.
    pose proof (puts_off out (chapter_puts c n (elems (cbz.Images a))) (logged x w)) as F.
    destruct (puts out (chapter_puts c n (elems (cbz.Images a))) (logged x w))
      as [[[]|e] w1]; cbn [snd] in F |- *.
    + apply (off_trans out w w1); [|apply IH].
      exact (off_trans out w (logged x w) _ (off_logged out x w) F).
    + exact (off_trans out w (logged x w) _ (off_logged out x w) F).
  - rewrite (range_inputFiles_read_error out c n x rest e w R). apply off_logged.
Qed.

Lemma MergeFiles_off (inputFiles : list string) (out : string) (w : World) :
  off out w (snd (cbz.MergeFiles inputFiles out w)).
Proof.
  rewrite MergeFiles_run.
  assert (G : off out w (snd (closing out (cbz.range_inputFiles out 0 inputFiles 1
                                             (created out w))))).
  { apply off_closing. apply (off_trans out w (created out w)); [apply off_created|].
    apply range_inputFiles_off. }
  destruct (w_faults w) as [|[e|] fs]; [exact G | unfold off; repeat split | exact G].
Qed.

Lemma keeps_MergeFiles (resolve : string -> string) (inputFiles : list string)
    (out p : string) :
  resolve p <> resolve out ->
  keeps_file resolve p (cbz2epub.cbz_MergeFiles inputFiles out).
Proof.
  intros Hp h Hr. unfold cbz2epub.cbz_MergeFiles.
  pose proof (MergeFiles_off inputFiles out (h_world h)) as Hs.
  destruct (cbz.MergeFiles inputFiles out (h_world h)) as [r w]. cbn [snd set_world h_world].
  apply (off_same_file out p _ _ Hs). now rewrite Hr.
Qed.

End MergeTouches.

(** X19: a merge writes its output and nothing else.  MergeFiles leaves in
    every file other than the one its output names the archive and the
    container that were there, whether it succeeds or fails, and so does
    handleMergeCommand for every file other than the one its output names
    (merged.cbz when none is given): an input of a merge is never modified,
    unless it names the file of the output. *)
Theorem merge_writes_output_only :
  forall (rt : GoRuntime) (p : string),
    (forall (inputFiles : list string) (outputFile : string) (w : World),
       w_file w p <> w_file w outputFile ->
       let w' := snd (cbz.MergeFiles inputFiles outputFile w) in
       w_zips w' p = w_zips w p /\ w_written w' p = w_written w p) /\
    (forall (config : cbz2epub.Config) (h : Host),
       w_file (h_world h) p <>
       w_file (h_world h) (if cbz2epub.OutputFile config =? EmptyString
                           then "merged.cbz" else cbz2epub.OutputFile config) ->
       let h' := snd (cbz2epub.handleMergeCommand config h) in
       w_zips (h_world h') p = w_zips (h_world h) p /\
       w_written (h_world h') p = w_written (h_world h) p).
Proof.
  intros rt p. split.
  - intros inputFiles out w Hp.
    exact (proj2 (off_same_file out p w _ (MergeFiles_off inputFiles out w) Hp)).
  - intros config h Hp. cbv zeta.
    assert (K : keeps_file (w_file (h_world h)) p (cbz2epub.handleMergeCommand config)).
    { unfold cbz2epub.handleMergeCommand.
      destruct (len (cbz2epub.InputFiles config) =? 0)%nat.
      - apply keeps_bindH; [apply keeps_say | intros _].
        apply keeps_bindH; [|intros _; apply keeps_retH].
        intros h0 _. rewrite printUsage_run. apply same_file_refl.
      - apply keeps_bindH; [apply keeps_verbose | intros _].
        apply keeps_bindH; [now apply keeps_MergeFiles | intros [e|]];
          (apply keeps_bindH; [apply keeps_say | intros _; apply keeps_retH]). }
    exact (proj2 (K h eq_refl)).
Qed.

Lemma merge_writes_output_only_witness :
  w_zips (snd (cbz.MergeFiles (rt := stable_runtime) ["a.cbz"; "b.cbz"] "all.cbz"
                 (quiet_world shelf_zips))) "a.cbz" = w_zips (quiet_world shelf_zips) "a.cbz" /\
  w_written (h_world (snd (cbz2epub.handleMergeCommand (rt := stable_runtime)
                             (plain_config ["b.cbz"; "a.cbz"]) shelf_host))) "a.cbz" =
    w_written (h_world shelf_host) "a.cbz".
Proof.
  destruct (merge_writes_output_only stable_runtime "a.cbz") as [H1 H2].
  split.
  - refine (proj1 (H1 ["a.cbz"; "b.cbz"] "all.cbz" (quiet_world shelf_zips) _)).
    discriminate.
  - refine (proj2 (H2 (plain_config ["b.cbz"; "a.cbz"]) shelf_host _)).
    discriminate.
Defined.

(** * The archives a directory run attempts *)

Lemma ConvertFromCBZ_opened (cbzFile : cbz.File) (o : string) (w : World) :
  w_opened (snd (epub.ConvertFromCBZ cbzFile o w)) = w_opened w.
Proof.
  rewrite ConvertFromCBZ_run.
  destruct (puts_frame o (epub_puts cbzFile (w_uuid w) (w_today w)) (created o w))
    as (_ & _ & Fo & _).
  destruct (w_faults w) as [|[e|] fs]; cbn [closing snd]; rewrite ?opened_closed;
    [exact Fo | reflexivity | exact Fo].
Qed.

Lemma ConvertFile_opened {rt : GoRuntime} (i o : string) (w : World) :
  w_opened (snd (epub.ConvertFile i o w)) = (w_opened w ++ [i])%list.
Proof.
  rewrite ConvertFile_run. destruct (read_result (w_zips w) i) as [f|e]; [|reflexivity].
  cbn [snd]. now rewrite ConvertFromCBZ_opened.
Qed.

Section Attempts.
Context {rt : GoRuntime}.
Variable glob : string -> error + list string.

Lemma opens_bindH {A B : Type} (m : Cmd A) (k : A -> Cmd B) (l1 l2 : list string) :
  opens glob m l1 -> (forall a, opens glob (k a) l2) -> opens glob (bindH m k) (l1 ++ l2)%list.
Proof.
  intros Hm Hk h Hg. unfold bindH. destruct (Hm h Hg) as [G1 O1].
  destruct (m h) as [a h1]. cbn [snd] in G1, O1.
  destruct (Hk a h1 G1) as [G2 O2]. split; [exact G2|].
  now rewrite O2, O1, app_assoc.
Qed.

Lemma opens_retH {A : Type} (a : A) : opens glob (retH a) [].
Proof. intros h Hg. split; [exact Hg | now rewrite app_nil_r]. Qed.

Lemma opens_say (o : Output) : opens glob (say o) [].
Proof. intros h Hg. split; [exact Hg | cbn; now rewrite app_nil_r]. Qed.

Lemma opens_verbose (b : bool) (msg : string) :
  opens glob (if b then log_Printf msg else retH tt) [].
Proof. destruct b; [apply opens_say | apply opens_retH]. Qed.

Lemma opens_ConvertFile (i o : string) : opens glob (cbz2epub.epub_ConvertFile i o) [i].
Proof.
  intros h Hg. unfold cbz2epub.epub_ConvertFile.
  pose proof (ConvertFile_opened i o (renewed h)) as Ho.
  destruct (epub.ConvertFile i o (renewed h)) as [r w]. cbn [snd h_glob h_world] in *.
  split; [exact Hg|]. rewrite Ho. unfold renewed.
  now destruct (h_ids h) as [|[date uuid] ids].
Qed.

Lemma opens_range_files (config : cbz2epub.Config) (files : list string) :
  forall acc : option error, opens glob (cbz2epub.range_files config files acc) files.
Proof.
  induction files as [|file rest IH]; intros acc; [apply opens_retH|].
  cbn [cbz2epub.range_files].
  apply (opens_bindH _ _ [] (file :: rest)); [apply opens_verbose | intros _].
  apply (opens_bindH _ _ [file] rest); [apply opens_ConvertFile | intros [e|]];
    (apply (opens_bindH _ _ [] rest); [apply opens_say | intros _; apply IH]).
Qed.

Lemma opens_Glob {B : Type} (pattern : string) (k : error + list string -> Cmd B)
    (l : list string) :
  opens glob (k (glob pattern)) l -> opens glob (bindH (filepath_Glob pattern) k) l.
Proof.
  intros Hk h Hg. unfold bindH, filepath_Glob. rewrite Hg. exact (Hk h Hg).
Qed.

Lemma opens_nothing {A : Type} (msg : string) (a : A) :
  opens glob (bindH (log_Printf msg) (fun _ => retH a)) [].
Proof. apply (opens_bindH _ _ [] []); [apply opens_say | intros _; apply opens_retH]. Qed.

Lemma opens_processDirectory (config : cbz2epub.Config) (dir : Dir) :
  forall dirPath : string,
    opens glob (cbz2epub.processDirectory dir dirPath config)
      (attempted glob (cbz2epub.Recursive config) dir dirPath).
Proof.
  induction dir as [e|entries IH] using Dir_induction; intros dirPath;
    cbn [cbz2epub.processDirectory attempted];
    (apply (opens_bindH _ _ []); [apply opens_verbose | intros _]);
    apply opens_Glob;
    (destruct (glob (filepath_Join dirPath "*.cbz")) as [err|files];
     [apply opens_nothing|]);
    (destruct (List.length files =? 0)%nat; [apply opens_nothing|]);
    (apply opens_bindH; [apply opens_range_files | intros acc]);
    (destruct (cbz2epub.Recursive config); [|apply opens_retH]).
  - apply opens_nothing.
  - revert acc. induction entries as [|[name [subdir|]] rest IHl]; intros acc.
    + apply opens_retH.
    + apply opens_bindH; [apply (IH name subdir); now left | intros a].
      apply IHl. intros n s Hin. apply (IH n s). now right.
    + apply IHl. intros n s Hin. apply (IH n s). now right.
Qed.

End Attempts.

(** X20: the archives a directory run attempts.  processDirectory calls
    ConvertFile, and with it ReadFile, exactly once for each match of
    [filepath.Glob] in the directory, in the order of the matches and
    whatever fails; then, when it had a match, -recursive is set and the
    directory can be listed, it does the same for each subdirectory in the
    order of the listing, depth first.  It opens no other archive. *)
Theorem processDirectory_attempts :
  forall (rt : GoRuntime) (dir : Dir) (dirPath : string) (config : cbz2epub.Config) (h : Host),
    w_opened (h_world (snd (cbz2epub.processDirectory dir dirPath config h))) =
    (w_opened (h_world h) ++
     attempted (h_glob h) (cbz2epub.Recursive config) dir dirPath)%list.
Proof.
  intros rt dir dirPath config h.
  exact (proj2 (opens_processDirectory (h_glob h) config dir dirPath h eq_refl)).
Qed.
